(** * cvd server: connection multiplexing and request dispatch

    A shallow embedding of [host/commands/cvd/server.cc]: the handler
    router [RequestHandler], the scoped cleanup guard [ScopeGuard], the
    per-connection callbacks [AcceptClient] and [HandleMessage], the
    interrupt callback closed over the per-request [SharedState], and the
    worker loop with its shutdown cascade ([BestEffortWakeup], [Stop],
    [Join]).

    Scope of the model.  One call of a server function is followed on
    the worker thread that runs it, with no other thread touching the
    world in between; the worker pool is a transition system whose steps
    are such calls.  A handler is an outside collaborator: a call into it
    is its returned [Result] and an entry in the trace, and whatever it
    does to the server through references of its own is not described.
    The multiplexer ([epoll_loop.h]) is not among the sources and is
    modelled from its specification.

    Conventions.
    - A function returning [Result<T>] is a state transformer
      [S -> Result T * S]: the state reached so far survives a failure,
      as it does in C++ when a function returns early.
    - Every externally visible action (multiplexer calls, socket I/O,
      virtual calls into a handler, mutex operations) is appended to the
      [trace] of the world, oldest first, so that ordering properties can
      be read off one run.
    - Closures handed to the multiplexer are defunctionalised into the
      constructors of [EpollCallback]. *)

From Stdlib Require Import List String Bool Arith NArith Lia.
From Stdlib Require Import DecimalString Decimal Permutation.
Import ListNotations.
Local Open Scope string_scope.
Local Open Scope list_scope.
Local Open Scope nat_scope.

Set Implicit Arguments.

(** ** Results and the error-propagation macro *)

(** An error is the stack of messages accumulated while it propagates,
    outermost frame first. *)
Definition Error := list string.

Inductive Result (A : Type) : Type :=
| Ok (a : A)
| Err (e : Error).
Arguments Ok {A} a.
Arguments Err {A} e.

Definition ok {A} (r : Result A) : bool :=
  match r with Ok _ => true | Err _ => false end.

(** Computations over a state [S] that may return early with an error. *)
Definition Op (S A : Type) := S -> Result A * S.

Definition ret {S A} (a : A) : Op S A := fun s => (Ok a, s).

Definition bind {S A B} (m : Op S A) (k : A -> Op S B) : Op S B :=
  fun s => match m s with
           | (Ok a, s') => k a s'
           | (Err e, s') => (Err e, s')
           end.

Declare Scope op_scope.
Delimit Scope op_scope with op.
Notation "x <- m ;; k" := (bind m (fun x => k))
  (at level 61, m at next level, right associativity) : op_scope.
Notation "m ;;; k" := (bind m (fun _ => k))
  (at level 61, right associativity) : op_scope.
Local Open Scope op_scope.

(** [CF_EXPECT(expr)] on a [Result]: on failure the enclosing function
    returns at once, with the message ["Received error"] pushed on the
    error; on success the macro evaluates to the carried value.  (The
    macro lives in [common/libs/utils/result.h]; it is modelled by what
    its uses in [server.cc] rely on.) *)
Definition CF_EXPECT {S A} (m : Op S A) : Op S A :=
  fun s => match m s with
           | (Ok a, s') => (Ok a, s')
           | (Err e, s') => (Err ("Received error" :: e), s')
           end.

(** [CF_EXPECT(cond, msg)] on a boolean: a false condition returns the
    message as an error. *)
Definition CF_EXPECT_that {S} (cond : bool) (msg : string) : Op S unit :=
  fun s => if cond then (Ok tt, s) else (Err [msg], s).

(** A call whose [Result] is dropped on the floor: [f(x);]. *)
Definition discard {S A} (m : Op S A) : Op S unit :=
  fun s => (Ok tt, snd (m s)).

(** [operator<<] on an unsigned count. *)
Definition to_string (n : nat) : string :=
  NilEmpty.string_of_uint (Nat.to_uint n).

(** ** Descriptors, readiness events, callbacks *)

(** A [SharedFD] is identified by the file instance it points to. *)
Definition SharedFD := nat.

Definition EPOLLIN : N := 1.
Definition EPOLLHUP : N := 16.

Record EpollEvent := { fd : SharedFD; events : N }.

(** [event.events & FLAG] used as a condition. *)
Definition has_flag (evs flag : N) : bool := negb (N.land evs flag =? 0)%N.

(** The closures registered with the multiplexer.  [interrupt_cb] captures
    the address of its [SharedState]. *)
Inductive EpollCallback :=
| accept_cb                      (* [this](ev) { AcceptClient(ev) } *)
| message_cb                     (* [this](ev) { HandleMessage(ev) } *)
| interrupt_cb (shared : nat)    (* [shared](ev) { ... Interrupt() ... } *)
| wakeup_cb.                     (* [](ev) { return {}; } *)

Inductive Action :=
| ActRegister (f : SharedFD) (interest : N) (cb : EpollCallback) (done : bool)
| ActRemove (f : SharedFD) (done : bool)
| ActAccept (listener : SharedFD)
| ActGetRequest (f : SharedFD)
| ActSendResponse (f : SharedFD) (done : bool)
| ActCanHandle (handler : nat)
| ActHandle (handler : nat)
| ActInterrupt (handler : nat)
| ActLock (shared : nat)
| ActUnlock (shared : nat)
| ActEventfdWrite (f : SharedFD)
| ActDispatch (f : SharedFD)
| ActStop.

Definition is_handle (a : Action) : bool :=
  match a with ActHandle _ => true | _ => false end.
Definition is_io (a : Action) : bool :=
  match a with ActGetRequest _ | ActSendResponse _ _ => true | _ => false end.

(** One row of the multiplexer's table. *)
Record Registration :=
  { reg_fd : SharedFD; reg_interest : N; reg_cb : EpollCallback }.

Section Server.

(** The payload types come from [cvd_server.pb.h] and [server.h]; the
    dispatch engine never looks inside them. *)
Variables RequestWithStdio Response : Type.

(** [class CvdServerHandler]: three virtual entry points.  [handler_id]
    stands for the object's address. *)
Record CvdServerHandler := {
  handler_id : nat;
  CanHandle : RequestWithStdio -> Result bool;
  Handle : RequestWithStdio -> Result Response;
  Interrupt : Result unit
}.

(** [struct SharedState { CvdServerHandler* handler; std::mutex mutex; }] *)
Record SharedState := {
  handler : option CvdServerHandler;
  mutex : bool                       (* true while some lock_guard holds it *)
}.

Record World := {
  running_ : bool;
  callbacks_ : list Registration;    (* the table inside [epoll_pool_] *)
  heap : list SharedState;           (* cells made by [make_shared] *)
  next_fd : SharedFD;                (* next descriptor the kernel hands out *)
  signalled : list SharedFD;         (* eventfds with a non-zero counter *)
  trace : list Action
}.

Definition log (a : Action) (w : World) : World :=
  {| running_ := running_ w; callbacks_ := callbacks_ w; heap := heap w;
     next_fd := next_fd w; signalled := signalled w;
     trace := trace w ++ [a] |}.

Definition set_callbacks (t : list Registration) (w : World) : World :=
  {| running_ := running_ w; callbacks_ := t; heap := heap w;
     next_fd := next_fd w; signalled := signalled w; trace := trace w |}.

Definition set_running (b : bool) (w : World) : World :=
  {| running_ := b; callbacks_ := callbacks_ w; heap := heap w;
     next_fd := next_fd w; signalled := signalled w; trace := trace w |}.

Definition set_heap (h : list SharedState) (w : World) : World :=
  {| running_ := running_ w; callbacks_ := callbacks_ w; heap := h;
     next_fd := next_fd w; signalled := signalled w; trace := trace w |}.

Definition set_next_fd (n : SharedFD) (w : World) : World :=
  {| running_ := running_ w; callbacks_ := callbacks_ w; heap := heap w;
     next_fd := n; signalled := signalled w; trace := trace w |}.

Definition set_signalled (l : list SharedFD) (w : World) : World :=
  {| running_ := running_ w; callbacks_ := callbacks_ w; heap := heap w;
     next_fd := next_fd w; signalled := l; trace := trace w |}.

(** ** The readiness multiplexer *)

Definition registrations (f : SharedFD) (t : list Registration)
  : list Registration :=
  filter (fun r => reg_fd r =? f) t.

Definition registered (f : SharedFD) (t : list Registration) : bool :=
  existsb (fun r => reg_fd r =? f) t.

Definition unregister (f : SharedFD) (t : list Registration)
  : list Registration :=
  filter (fun r => negb (reg_fd r =? f)) t.

(** Modelled from the spec: [EpollPool::Register] of
    [host/commands/cvd/epoll_loop.h], which is not among the sources.
    Spec 4.1: Register fails if the descriptor already has a live
    registration; otherwise the tuple is entered in the table. *)
Definition Register (f : SharedFD) (interest : N) (cb : EpollCallback)
  : Op World unit :=
  fun w =>
    if registered f (callbacks_ w)
    then (Err ["Already have a callback created"],
          log (ActRegister f interest cb false) w)
    else (Ok tt,
          log (ActRegister f interest cb true)
            (set_callbacks
               ({| reg_fd := f; reg_interest := interest; reg_cb := cb |}
                  :: callbacks_ w) w)).

(** Modelled from the spec: [EpollPool::Remove], not among the sources.
    Spec 4.1: Remove fails if no registration exists; otherwise the
    descriptor's registration leaves the table. *)
Definition Remove (f : SharedFD) : Op World unit :=
  fun w =>
    if registered f (callbacks_ w)
    then (Ok tt,
          log (ActRemove f true)
            (set_callbacks (unregister f (callbacks_ w)) w))
    else (Err ["No callback registered with epoll"],
          log (ActRemove f false) w).

(** Modelled from the spec: [EpollPool::HandleEvent] ("WaitAndDispatch"),
    not among the sources.  Spec 4.1: once a registered descriptor is
    ready, its callback is invoked on the calling thread and the
    callback's result is returned; the multiplexer does not re-arm, so the
    registration is consumed by the dispatch and the callback has to
    register the descriptor again.  [ready] is the event the wait
    reported; [run] invokes a stored closure. *)
Definition HandleEvent (run : EpollCallback -> EpollEvent -> Op World unit)
    (ready : EpollEvent) : Op World unit :=
  fun w =>
    match registrations (fd ready) (callbacks_ w) with
    | [] => (Err ["Could not find event callback"], w)
    | r :: _ =>
        CF_EXPECT (run (reg_cb r) ready)
          (log (ActDispatch (fd ready))
             (set_callbacks (unregister (fd ready) (callbacks_ w)) w))
    end.

(** ** What the server asks of its surroundings *)

Record Env := {
  (* injector.getMultibindings<CvdServerHandler>() *)
  possible_handlers : list CvdServerHandler;
  (* GetRequest(fd): a request, clean end-of-file, or a read failure *)
  GetRequest : SharedFD -> Result (option RequestWithStdio);
  (* SendResponse(fd, response) *)
  SendResponse : SharedFD -> Response -> Result unit;
  (* fd->IsOpen() for a descriptor just made by Accept or Event *)
  IsOpen : SharedFD -> bool;
  (* fd->EventfdWrite(1) == 0 *)
  EventfdWrite : SharedFD -> bool
}.

Variable env : Env.

(** [SharedFD::Accept] and [SharedFD::Event]: a new file instance. *)
Definition new_fd : Op World SharedFD :=
  fun w => (Ok (next_fd w), set_next_fd (S (next_fd w)) w).

Definition SharedFD_Accept (listener : SharedFD) : Op World SharedFD :=
  fun w => new_fd (log (ActAccept listener) w).

Definition call_EventfdWrite (f : SharedFD) : Op World bool :=
  fun w =>
    if EventfdWrite env f
    then (Ok true, log (ActEventfdWrite f) (set_signalled (f :: signalled w) w))
    else (Ok false, w).

Definition call_GetRequest (f : SharedFD)
  : Op World (option RequestWithStdio) :=
  fun w => (GetRequest env f, log (ActGetRequest f) w).

Definition call_SendResponse (f : SharedFD) (response : Response)
  : Op World unit :=
  fun w => (SendResponse env f response,
            log (ActSendResponse f (ok (SendResponse env f response))) w).

(** Virtual calls into a handler. *)
Definition call_CanHandle (h : CvdServerHandler) (request : RequestWithStdio)
  : Op World bool :=
  fun w => (CanHandle h request, log (ActCanHandle (handler_id h)) w).

(** [Handle] taken as one step of the calling worker: what the handler
    and the other workers do to the server while it runs is left out
    here and let in by [call_Handle_among] further down. *)
Definition call_Handle (h : CvdServerHandler) (request : RequestWithStdio)
  : Op World Response :=
  fun w => (Handle h request, log (ActHandle (handler_id h)) w).

Definition call_Interrupt (h : CvdServerHandler) : Op World unit :=
  fun w => (Interrupt h, log (ActInterrupt (handler_id h)) w).

(** ** Worker pool plumbing *)

(** [void CvdServer::Stop() { running_ = false; }] *)
Definition Stop (w : World) : World := log ActStop (set_running false w).

Definition BestEffortWakeup : Op World unit :=
  eventfd <- new_fd ;;
  CF_EXPECT_that (IsOpen env eventfd) "eventfd->StrError()" ;;;
  written <- call_EventfdWrite eventfd ;;
  CF_EXPECT_that written "eventfd->StrError()" ;;;
  CF_EXPECT (Register eventfd EPOLLIN wakeup_cb) ;;;
  ret tt.

(** ** Routing *)

(** The loop of [RequestHandler]: [compatible] is [compatible_handlers]
    so far, [push_back] appends. *)
Fixpoint collect_compatible (request : RequestWithStdio)
    (handlers compatible : list CvdServerHandler)
  : Op World (list CvdServerHandler) :=
  match handlers with
  | [] => ret compatible
  | handler :: rest =>
      can <- CF_EXPECT (call_CanHandle handler request) ;;
      collect_compatible request rest
        (if can then compatible ++ [handler] else compatible)
  end.

Definition RequestHandler (request : RequestWithStdio)
    (handlers : list CvdServerHandler) : Op World CvdServerHandler :=
  compatible_handlers <- collect_compatible request handlers [] ;;
  CF_EXPECT_that (List.length compatible_handlers =? 1)
    ("Expected exactly one handler for message, found "
       ++ to_string (List.length compatible_handlers))%string ;;;
  match compatible_handlers with
  | h :: _ => ret h
  | [] => fun w => (Err ["compatible_handlers[0]"], w)
  end.

(** ** The scoped guard *)

Record ScopeGuard := { fn_ : option (World -> World) }.

(** [~ScopeGuard() { if (fn_) fn_(); }] *)
Definition ScopeGuard_destroy (g : ScopeGuard) (w : World) : World :=
  match fn_ g with
  | Some fn => fn w
  | None => w
  end.

(** A function body runs with its guard next to the world. *)
Definition Frame : Type := ScopeGuard * World.

Definition in_world {A} (m : Op World A) : Op Frame A :=
  fun fr => let (r, w') := m (snd fr) in (r, (fst fr, w')).

(** [void Cancel() { fn_ = nullptr; }] *)
Definition Cancel : Op Frame unit :=
  fun fr => (Ok tt, ({| fn_ := None |}, snd fr)).

(** Declaring a guard at the top of a function: it is constructed armed
    and destroyed when the function returns, on whichever path. *)
Definition guarded {A} (fn : World -> World) (body : Op Frame A)
  : Op World A :=
  fun w =>
    let (r, fr) := body ({| fn_ := Some fn |}, w) in
    (r, ScopeGuard_destroy (fst fr) (snd fr)).

(** ** The listener *)

(** The body of [AcceptClient], below the declaration of its guard. *)
Definition AcceptClient_body (event : EpollEvent) : Op Frame unit :=
  CF_EXPECT_that (has_flag (events event) EPOLLIN)
    "event.events & EPOLLIN" ;;;
  client_fd <- in_world (SharedFD_Accept (fd event)) ;;
  CF_EXPECT_that (IsOpen env client_fd) "client_fd->StrError()" ;;;
  in_world (CF_EXPECT (Register client_fd EPOLLIN message_cb)) ;;;
  in_world (CF_EXPECT (Register (fd event) EPOLLIN accept_cb)) ;;;
  Cancel ;;;
  ret tt.

(** [ScopeGuard stop_on_failure([this] { Stop(); });] and the body. *)
Definition AcceptClient (event : EpollEvent) : Op World unit :=
  guarded Stop (AcceptClient_body event).

(** ** The per-request shared state *)

Fixpoint update {A} (n : nat) (f : A -> A) (l : list A) : list A :=
  match l, n with
  | [], _ => []
  | x :: l', 0 => f x :: l'
  | x :: l', S n' => x :: update n' f l'
  end.

(** [std::make_shared<SharedState>()]: the new cell's address. *)
Definition make_shared : Op World nat :=
  fun w => (Ok (List.length (heap w)),
            set_heap (heap w ++ [{| handler := None; mutex := false |}]) w).

(** [shared->handler = p;] *)
Definition set_handler (shared : nat) (p : option CvdServerHandler)
  : Op World unit :=
  fun w => (Ok tt,
            set_heap (update shared
                        (fun c => {| handler := p; mutex := mutex c |})
                        (heap w)) w).

(** [shared->handler] *)
Definition get_handler (shared : nat) (w : World) : option CvdServerHandler :=
  match nth_error (heap w) shared with
  | Some c => handler c
  | None => None
  end.

Definition set_mutex (shared : nat) (held : bool) (w : World) : World :=
  set_heap (update shared
              (fun c => {| handler := handler c; mutex := held |})
              (heap w)) w.

(** [std::lock_guard lock(shared->mutex);] around the rest of a block:
    taken on entry, released when the block is left on any path. *)
Definition lock_guard {A} (shared : nat) (block : Op World A) : Op World A :=
  fun w =>
    let (r, w') := block (log (ActLock shared) (set_mutex shared true w)) in
    (r, log (ActUnlock shared) (set_mutex shared false w')).

(** The closure [interrupt_cb] of [HandleMessage]. *)
Definition interrupt (shared : nat) (_ : EpollEvent) : Op World unit :=
  lock_guard shared
    (p <- (fun w => (Ok (get_handler shared w), w)) ;;
     CF_EXPECT_that (match p with Some _ => true | None => false end)
       "shared->handler != nullptr" ;;;
     match p with
     | Some h => CF_EXPECT (call_Interrupt h)
     | None => ret tt
     end ;;;
     ret tt).

(** ** The connection state machine *)

(** The body of [HandleMessage], below the declaration of its guard. *)
Definition HandleMessage_body (event : EpollEvent) : Op Frame unit :=
  if has_flag (events event) EPOLLHUP then
    (* Client went away. *)
    in_world (discard (Remove (fd event))) ;;;
    ret tt
  else
    CF_EXPECT_that (has_flag (events event) EPOLLIN)
      "event.events & EPOLLIN" ;;;
    request <- in_world (CF_EXPECT (call_GetRequest (fd event))) ;;
    match request with
    | None =>
        (* End-of-file / client went away. *)
        in_world (discard (Remove (fd event))) ;;;
        ret tt
    | Some request =>
        let handlers := possible_handlers env in
        shared <- in_world make_shared ;;
        h <- in_world (CF_EXPECT (RequestHandler request handlers)) ;;
        in_world (set_handler shared (Some h)) ;;;
        in_world
          (CF_EXPECT (Register (fd event) EPOLLHUP (interrupt_cb shared))) ;;;
        (* shared->handler is the pointer stored two lines up *)
        response <- in_world (CF_EXPECT (call_Handle h request)) ;;
        in_world (CF_EXPECT (call_SendResponse (fd event) response)) ;;;
        in_world (lock_guard shared (set_handler shared None)) ;;;
        in_world (CF_EXPECT (Remove (fd event))) ;;;
        in_world (CF_EXPECT (Register (fd event) EPOLLIN message_cb)) ;;;
        Cancel ;;;
        ret tt
    end.

(** The default action of the guard [abandon_client]:
    [epoll_pool_.Remove(event.fd)], result dropped. *)
Definition abandon_client (event : EpollEvent) (w : World) : World :=
  snd (Remove (fd event) w).

(** [ScopeGuard abandon_client([this, event] { ... });] and the body. *)
Definition HandleMessage (event : EpollEvent) : Op World unit :=
  guarded (abandon_client event) (HandleMessage_body event).

(** Invoking a closure stored in the multiplexer. *)
Definition run_callback (cb : EpollCallback) (ev : EpollEvent)
  : Op World unit :=
  match cb with
  | accept_cb => CF_EXPECT (AcceptClient ev) ;;; ret tt
  | message_cb => CF_EXPECT (HandleMessage ev) ;;; ret tt
  | interrupt_cb shared => interrupt shared ev
  | wakeup_cb => ret tt
  end.

(** ** The worker pool

    Each thread made by the constructor runs
    [while (running_) { HandleEvent(); }  BestEffortWakeup();  CHECK(ok)].
    A thread is described by where it stands in that program; the pool
    advances by one thread taking one step, in any order. *)

Definition kNumThreads : nat := 10.

Inductive Worker :=
| AtLoopTest        (* about to evaluate [while (running_)] *)
| InHandleEvent     (* inside [epoll_pool_.HandleEvent()], waiting *)
| AtWakeup          (* loop left, about to call [BestEffortWakeup] *)
| Finished          (* thread function returned: [join] succeeds *)
| Aborted.          (* [CHECK(wakeup.ok())] failed *)

Record Pool := { world : World; threads_ : list Worker }.

(** With no client traffic the only readiness comes from eventfds whose
    counter was written and never drained: such a descriptor is readable
    on every wait for as long as it is registered for [EPOLLIN]. *)
Definition signals (w : World) (r : Registration) : bool :=
  existsb (Nat.eqb (reg_fd r)) (signalled w)
  && has_flag (reg_interest r) EPOLLIN.

Definition ready_now (w : World) (ev : EpollEvent) : bool :=
  (events ev =? EPOLLIN)%N
  && existsb (signals w) (registrations (fd ev) (callbacks_ w)).

(** One step of one worker; [None] when it cannot move ([ready] is not a
    pending event, or the thread is over). *)
Definition worker_step (ready : EpollEvent) (t : Worker) (w : World)
  : option (Worker * World) :=
  match t with
  | AtLoopTest =>
      Some (if running_ w then InHandleEvent else AtWakeup, w)
  | InHandleEvent =>
      if ready_now w ready
      then (* a failed result is logged and the loop goes on *)
           Some (AtLoopTest, snd (HandleEvent run_callback ready w))
      else None
  | AtWakeup =>
      let (wakeup, w') := BestEffortWakeup w in
      Some (if ok wakeup then Finished else Aborted, w')
  | Finished | Aborted => None
  end.

Inductive step : Pool -> Pool -> Prop :=
| step_worker i ready t t' w' p :
    nth_error (threads_ p) i = Some t ->
    worker_step ready t (world p) = Some (t', w') ->
    step p {| world := w'; threads_ := update i (fun _ => t') (threads_ p) |}.

Inductive steps : nat -> Pool -> Pool -> Prop :=
| steps_O p : steps 0 p p
| steps_S n p q r : steps n p q -> step q r -> steps (S n) p r.

Definition is_finished (t : Worker) : bool :=
  match t with Finished => true | _ => false end.

(** [Join()] returns once every thread of [threads_] has been joined. *)
Definition Join_returns (p : Pool) : bool := forallb is_finished (threads_ p).

(** The owner's shutdown request, as in [~CvdServer]:
    [running_ = false; BestEffortWakeup();]. *)
Definition request_shutdown : Op World unit :=
  fun w => BestEffortWakeup (set_running false w).

(** Wake-up signals armed so far. *)
Definition is_wakeup_armed (a : Action) : bool :=
  match a with ActRegister _ _ wakeup_cb true => true | _ => false end.

Definition wakeups_armed (w : World) : nat :=
  List.length (filter is_wakeup_armed (trace w)).

(** * Vocabulary of the properties *)

(** [w'] differs from [w] only by the actions [t] logged in between. *)
Definition only_logged (t : list Action) (w w' : World) : Prop :=
  running_ w' = running_ w /\ callbacks_ w' = callbacks_ w /\
  heap w' = heap w /\ next_fd w' = next_fd w /\
  signalled w' = signalled w /\ trace w' = trace w ++ t.

(** The actions performed between [w] and a later world [w']. *)
Definition since (w w' : World) : list Action :=
  skipn (List.length (trace w)) (trace w').

(** The predicate of [h] answers, and answers true. *)
Definition can_handle (request : RequestWithStdio) (h : CvdServerHandler)
  : bool :=
  match CanHandle h request with Ok true => true | _ => false end.

(** The handlers whose predicate answers true. *)
Definition matching (request : RequestWithStdio)
    (handlers : list CvdServerHandler) : list CvdServerHandler :=
  filter (can_handle request) handlers.

(** The trace entry of a call to [h]'s predicate. *)
Definition asked (h : CvdServerHandler) : Action := ActCanHandle (handler_id h).

(** What [RequestHandler] returns once the loop has collected
    [compatible_handlers]. *)
Definition routed (compatible_handlers : list CvdServerHandler)
  : Result CvdServerHandler :=
  match compatible_handlers with
  | [h] => Ok h
  | _ => Err [("Expected exactly one handler for message, found "
                 ++ to_string (List.length compatible_handlers))%string]
  end.

(** From [w] to [w']: [running_] kept, the table now [T'], the actions
    [t] logged. *)
Definition evolves (t : list Action) (T' : list Registration)
    (w w' : World) : Prop :=
  running_ w' = running_ w /\ callbacks_ w' = T' /\ trace w' = trace w ++ t.

(** The paths through the body of [HandleMessage], one constructor per
    exit: what decides the path, then the result, the guard and the world
    the body leaves.  [HandleMessage_body_path] shows the body always
    takes one of them. *)
Inductive HandleMessage_path (event : EpollEvent) (g : ScopeGuard) (w : World)
  : Result unit -> ScopeGuard -> World -> Prop :=
| path_hangup w' :
    has_flag (events event) EPOLLHUP = true ->
    evolves [ActRemove (fd event) (registered (fd event) (callbacks_ w))]
      (unregister (fd event) (callbacks_ w)) w w' ->
    HandleMessage_path event g w (Ok tt) g w'
| path_not_readable :
    has_flag (events event) EPOLLHUP = false ->
    has_flag (events event) EPOLLIN = false ->
    HandleMessage_path event g w (Err ["event.events & EPOLLIN"]) g w
| path_read_failed e w' :
    has_flag (events event) EPOLLHUP = false ->
    has_flag (events event) EPOLLIN = true ->
    GetRequest env (fd event) = Err e ->
    evolves [ActGetRequest (fd event)] (callbacks_ w) w w' ->
    HandleMessage_path event g w (Err ("Received error" :: e)) g w'
| path_end_of_file w' :
    has_flag (events event) EPOLLHUP = false ->
    has_flag (events event) EPOLLIN = true ->
    GetRequest env (fd event) = Ok None ->
    evolves [ActGetRequest (fd event);
             ActRemove (fd event) (registered (fd event) (callbacks_ w))]
      (unregister (fd event) (callbacks_ w)) w w' ->
    HandleMessage_path event g w (Ok tt) g w'
| path_unrouted request e asks w' :
    has_flag (events event) EPOLLHUP = false ->
    has_flag (events event) EPOLLIN = true ->
    GetRequest env (fd event) = Ok (Some request) ->
    fst (RequestHandler request (possible_handlers env) w) = Err e ->
    evolves (ActGetRequest (fd event) :: map asked asks) (callbacks_ w) w w' ->
    HandleMessage_path event g w (Err ("Received error" :: e)) g w'
| path_register_refused request h asks w' :
    has_flag (events event) EPOLLHUP = false ->
    has_flag (events event) EPOLLIN = true ->
    GetRequest env (fd event) = Ok (Some request) ->
    fst (RequestHandler request (possible_handlers env) w) = Ok h ->
    registered (fd event) (callbacks_ w) = true ->
    evolves (ActGetRequest (fd event) :: map asked asks
               ++ [ActRegister (fd event) EPOLLHUP
                     (interrupt_cb (List.length (heap w))) false])
      (callbacks_ w) w w' ->
    HandleMessage_path event g w
      (Err ["Received error"; "Already have a callback created"]) g w'
| path_handle_failed request h asks e w' :
    has_flag (events event) EPOLLHUP = false ->
    has_flag (events event) EPOLLIN = true ->
    GetRequest env (fd event) = Ok (Some request) ->
    fst (RequestHandler request (possible_handlers env) w) = Ok h ->
    registered (fd event) (callbacks_ w) = false ->
    Handle h request = Err e ->
    evolves (ActGetRequest (fd event) :: map asked asks
               ++ [ActRegister (fd event) EPOLLHUP
                     (interrupt_cb (List.length (heap w))) true;
                   ActHandle (handler_id h)])
      ({| reg_fd := fd event; reg_interest := EPOLLHUP;
          reg_cb := interrupt_cb (List.length (heap w)) |} :: callbacks_ w)
      w w' ->
    HandleMessage_path event g w (Err ("Received error" :: e)) g w'
| path_send_failed request h asks response e w' :
    has_flag (events event) EPOLLHUP = false ->
    has_flag (events event) EPOLLIN = true ->
    GetRequest env (fd event) = Ok (Some request) ->
    fst (RequestHandler request (possible_handlers env) w) = Ok h ->
    registered (fd event) (callbacks_ w) = false ->
    Handle h request = Ok response ->
    SendResponse env (fd event) response = Err e ->
    evolves (ActGetRequest (fd event) :: map asked asks
               ++ [ActRegister (fd event) EPOLLHUP
                     (interrupt_cb (List.length (heap w))) true;
                   ActHandle (handler_id h);
                   ActSendResponse (fd event) false])
      ({| reg_fd := fd event; reg_interest := EPOLLHUP;
          reg_cb := interrupt_cb (List.length (heap w)) |} :: callbacks_ w)
      w w' ->
    HandleMessage_path event g w (Err ("Received error" :: e)) g w'
| path_served request h asks response w' :
    has_flag (events event) EPOLLHUP = false ->
    has_flag (events event) EPOLLIN = true ->
    GetRequest env (fd event) = Ok (Some request) ->
    fst (RequestHandler request (possible_handlers env) w) = Ok h ->
    registered (fd event) (callbacks_ w) = false ->
    Handle h request = Ok response ->
    SendResponse env (fd event) response = Ok tt ->
    evolves (ActGetRequest (fd event) :: map asked asks
               ++ [ActRegister (fd event) EPOLLHUP
                     (interrupt_cb (List.length (heap w))) true;
                   ActHandle (handler_id h);
                   ActSendResponse (fd event) true;
                   ActLock (List.length (heap w));
                   ActUnlock (List.length (heap w));
                   ActRemove (fd event) true;
                   ActRegister (fd event) EPOLLIN message_cb true])
      ({| reg_fd := fd event; reg_interest := EPOLLIN; reg_cb := message_cb |}
         :: callbacks_ w)
      w w' ->
    get_handler (List.length (heap w)) w' = None ->
    HandleMessage_path event g w (Ok tt) {| fn_ := None |} w'.

(** The guard [abandon_client] as constructed. *)
Definition armed (event : EpollEvent) : ScopeGuard :=
  {| fn_ := Some (abandon_client event) |}.

(** The registration [AcceptClient] makes for the accepted descriptor. *)
Definition client_registration (w : World) : Registration :=
  {| reg_fd := next_fd w; reg_interest := EPOLLIN; reg_cb := message_cb |}.

(** The paths through the body of [AcceptClient]. *)
Inductive AcceptClient_path (event : EpollEvent) (g : ScopeGuard) (w : World)
  : Result unit -> ScopeGuard -> World -> Prop :=
| accept_not_readable :
    has_flag (events event) EPOLLIN = false ->
    AcceptClient_path event g w (Err ["event.events & EPOLLIN"]) g w
| accept_failed w' :
    has_flag (events event) EPOLLIN = true ->
    IsOpen env (next_fd w) = false ->
    evolves [ActAccept (fd event)] (callbacks_ w) w w' ->
    AcceptClient_path event g w (Err ["client_fd->StrError()"]) g w'
| accept_client_refused w' :
    has_flag (events event) EPOLLIN = true ->
    IsOpen env (next_fd w) = true ->
    registered (next_fd w) (callbacks_ w) = true ->
    evolves [ActAccept (fd event);
             ActRegister (next_fd w) EPOLLIN message_cb false]
      (callbacks_ w) w w' ->
    AcceptClient_path event g w
      (Err ["Received error"; "Already have a callback created"]) g w'
| accept_listener_refused w' :
    has_flag (events event) EPOLLIN = true ->
    IsOpen env (next_fd w) = true ->
    registered (next_fd w) (callbacks_ w) = false ->
    registered (fd event) (client_registration w :: callbacks_ w) = true ->
    evolves [ActAccept (fd event);
             ActRegister (next_fd w) EPOLLIN message_cb true;
             ActRegister (fd event) EPOLLIN accept_cb false]
      (client_registration w :: callbacks_ w) w w' ->
    AcceptClient_path event g w
      (Err ["Received error"; "Already have a callback created"]) g w'
| accept_done w' :
    has_flag (events event) EPOLLIN = true ->
    IsOpen env (next_fd w) = true ->
    registered (next_fd w) (callbacks_ w) = false ->
    registered (fd event) (client_registration w :: callbacks_ w) = false ->
    evolves [ActAccept (fd event);
             ActRegister (next_fd w) EPOLLIN message_cb true;
             ActRegister (fd event) EPOLLIN accept_cb true]
      ({| reg_fd := fd event; reg_interest := EPOLLIN; reg_cb := accept_cb |}
         :: client_registration w :: callbacks_ w) w w' ->
    AcceptClient_path event g w (Ok tt) {| fn_ := None |} w'.

(** Registrations of interest in read-readiness, and reads. *)
Definition arms_read (a : Action) : bool :=
  match a with
  | ActRegister _ interest _ _ => has_flag interest EPOLLIN
  | _ => false
  end.

Definition is_read (a : Action) : bool :=
  match a with ActGetRequest _ => true | _ => false end.

(** At most one live registration per descriptor. *)
Definition one_registration_each (T : list Registration) : Prop :=
  forall f, List.length (registrations f T) <= 1.

(** Steps a worker still has to take before its thread function returns,
    once [running_] is false. *)
Definition remaining (t : Worker) : nat :=
  match t with
  | InHandleEvent => 3
  | AtLoopTest => 2
  | AtWakeup => 1
  | Finished | Aborted => 0
  end.

Definition remaining_all (ts : list Worker) : nat :=
  list_sum (map remaining ts).

Definition finished_count (ts : list Worker) : nat :=
  List.length (filter is_finished ts).

Definition is_signalled (w : World) (r : Registration) : bool :=
  existsb (Nat.eqb (reg_fd r)) (signalled w).

(** A server with nothing pending: descriptors in the table were handed
    out earlier, and none of them is a written eventfd. *)
Definition quiet (w : World) : Prop :=
  forall r, In r (callbacks_ w) ->
            reg_fd r < next_fd w /\ is_signalled w r = false.

(** What holds of the pool all along the cascade. *)
Record cascading (p : Pool) : Prop := {
  stopped : running_ (world p) = false;
  handed_out : forall r, In r (callbacks_ (world p)) ->
                         reg_fd r < next_fd (world p);
  wake_only : forall r, In r (callbacks_ (world p)) ->
                        is_signalled (world p) r = true ->
                        reg_cb r = wakeup_cb /\ reg_interest r = EPOLLIN;
  none_aborted : ~ In Aborted (threads_ p);
  signal_pending : existsb (signals (world p)) (callbacks_ (world p)) = true
                   \/ In AtLoopTest (threads_ p)
                   \/ In AtWakeup (threads_ p)
}.

(** The pool right after the owner asked for shutdown, with [N] workers
    waiting in [HandleEvent]. *)
Definition shutting_down (N : nat) (w : World) : Pool :=
  {| world := snd (request_shutdown w);
     threads_ := repeat InHandleEvent N |}.

(** ** Further vocabulary *)

(** [StartServer]: the listening descriptor is handed to the multiplexer
    with the accepting closure. *)
Definition StartServer (server_fd : SharedFD) : Op World unit :=
  CF_EXPECT (Register server_fd EPOLLIN accept_cb) ;;;
  ret tt.

Definition is_interrupt (a : Action) : bool :=
  match a with ActInterrupt _ => true | _ => false end.

Definition is_lock (a : Action) : bool :=
  match a with ActLock _ => true | _ => false end.

Definition is_response (a : Action) : bool :=
  match a with ActSendResponse _ _ => true | _ => false end.

(** Actions a request on descriptor [f] has no business performing:
    stopping the server, accepting, arming or consuming wake-ups,
    interrupting, or any multiplexer or socket call on another
    descriptor. *)
Definition strays (f : SharedFD) (a : Action) : bool :=
  match a with
  | ActRegister f' _ _ _ | ActRemove f' _
  | ActGetRequest f' | ActSendResponse f' _ => negb (f' =? f)
  | ActCanHandle _ | ActHandle _ | ActLock _ | ActUnlock _ => false
  | ActAccept _ | ActEventfdWrite _ | ActDispatch _
  | ActInterrupt _ | ActStop => true
  end.

(** The registrations the listener makes for itself and for a client. *)
Definition listener_registration (server_fd : SharedFD) : Registration :=
  {| reg_fd := server_fd; reg_interest := EPOLLIN; reg_cb := accept_cb |}.

Definition connection_registration (f : SharedFD) : Registration :=
  {| reg_fd := f; reg_interest := EPOLLIN; reg_cb := message_cb |}.

(** The pool after worker [i] came back from a dispatch of [event] while
    its [N - 1] colleagues wait. *)
Definition after_dispatch (N i : nat) (event : EpollEvent) (w : World) : Pool :=
  {| world := snd (HandleEvent run_callback event w);
     threads_ := update i (fun _ => AtLoopTest) (repeat InHandleEvent N) |}.

(** ** A request while the server goes on

    [HandleMessage] above follows one call with nothing else happening.
    While a request is in flight, though, the handler may call back into
    the server it was constructed with (the shutdown handler calls
    [Stop]), and the other workers go on dispatching, the hang-up watch
    of this very request among their events.  The definitions below
    repeat [HandleMessage] with a parameter [meanwhile] for all that
    happens to the world at the moments the rest of the server is let
    in; with nothing happening they are the definitions above. *)

(** The moments: while [Handle] runs (line 206), while the response is
    written (line 207), and between the release of the mutex and
    [Remove] (lines 212 to 213).  They cover the time the hang-up watch
    of line 204 is registered; before and after, the connection has no
    registration another worker could be dispatched on. *)
Inductive Moment : Type := DuringHandle | DuringSendResponse | BeforeRemove.

Definition same_moment (a b : Moment) : bool :=
  match a, b with
  | DuringHandle, DuringHandle
  | DuringSendResponse, DuringSendResponse
  | BeforeRemove, BeforeRemove => true
  | _, _ => false
  end.

Definition call_Handle_among (meanwhile : Moment -> World -> World)
    (h : CvdServerHandler) (request : RequestWithStdio) : Op World Response :=
  fun w => (Handle h request,
            meanwhile DuringHandle (log (ActHandle (handler_id h)) w)).

Definition call_SendResponse_among (meanwhile : Moment -> World -> World)
    (f : SharedFD) (response : Response) : Op World unit :=
  fun w => (SendResponse env f response,
            meanwhile DuringSendResponse
              (log (ActSendResponse f (ok (SendResponse env f response))) w)).

Definition Remove_among (meanwhile : Moment -> World -> World)
    (f : SharedFD) : Op World unit :=
  fun w => Remove f (meanwhile BeforeRemove w).

Definition HandleMessage_body_among (meanwhile : Moment -> World -> World)
    (event : EpollEvent) : Op Frame unit :=
  if has_flag (events event) EPOLLHUP then
    in_world (discard (Remove (fd event))) ;;;
    ret tt
  else
    CF_EXPECT_that (has_flag (events event) EPOLLIN)
      "event.events & EPOLLIN" ;;;
    request <- in_world (CF_EXPECT (call_GetRequest (fd event))) ;;
    match request with
    | None =>
        in_world (discard (Remove (fd event))) ;;;
        ret tt
    | Some request =>
        let handlers := possible_handlers env in
        shared <- in_world make_shared ;;
        h <- in_world (CF_EXPECT (RequestHandler request handlers)) ;;
        in_world (set_handler shared (Some h)) ;;;
        in_world
          (CF_EXPECT (Register (fd event) EPOLLHUP (interrupt_cb shared))) ;;;
        response <-
          in_world (CF_EXPECT (call_Handle_among meanwhile h request)) ;;
        in_world
          (CF_EXPECT (call_SendResponse_among meanwhile (fd event) response)) ;;;
        in_world (lock_guard shared (set_handler shared None)) ;;;
        in_world (CF_EXPECT (Remove_among meanwhile (fd event))) ;;;
        in_world (CF_EXPECT (Register (fd event) EPOLLIN message_cb)) ;;;
        Cancel ;;;
        ret tt
    end.

Definition HandleMessage_among (meanwhile : Moment -> World -> World)
    (event : EpollEvent) : Op World unit :=
  guarded (abandon_client event) (HandleMessage_body_among meanwhile event).

(** The closures, with a request running among other things. *)
Definition run_callback_among (meanwhile : Moment -> World -> World)
    (cb : EpollCallback) (ev : EpollEvent) : Op World unit :=
  match cb with
  | message_cb => CF_EXPECT (HandleMessage_among meanwhile ev) ;;; ret tt
  | _ => run_callback cb ev
  end.

(** Nothing happens meanwhile. *)
Definition alone : Moment -> World -> World := fun _ u => u.

(** What another worker does to the world when the multiplexer hands it
    the event [hangup]. *)
Definition dispatched_elsewhere (hangup : EpollEvent) (w : World) : World :=
  snd (HandleEvent run_callback hangup w).

(** The client hangs up at the moment [when]: another worker is handed the
    event there, and nothing else happens. *)
Definition hangup_at (when : Moment) (hangup : EpollEvent)
  : Moment -> World -> World :=
  fun moment u =>
    if same_moment moment when then dispatched_elsewhere hangup u else u.

(** The handler calls [Stop] on the server it was built with, as a
    shutdown handler does, and nothing else happens. *)
Definition handler_stops : Moment -> World -> World :=
  fun moment u => match moment with DuringHandle => Stop u | _ => u end.

(** What is left of [HandleMessage] once [Handle] has returned
    [response]: lines 207 to 222. *)
Definition after_Handle (meanwhile : Moment -> World -> World)
    (event : EpollEvent) (shared : nat) (response : Response)
  : Op Frame unit :=
  in_world
    (CF_EXPECT (call_SendResponse_among meanwhile (fd event) response)) ;;;
  in_world (lock_guard shared (set_handler shared None)) ;;;
  in_world (CF_EXPECT (Remove_among meanwhile (fd event))) ;;;
  in_world (CF_EXPECT (Register (fd event) EPOLLIN message_cb)) ;;;
  Cancel ;;;
  ret tt.

(** The world in which [Remove] of line 213 runs, when [Handle] left the
    world [v] and the response was written. *)
Definition at_Remove (meanwhile : Moment -> World -> World)
    (event : EpollEvent) (shared : nat) (response : Response) (v : World)
  : World :=
  meanwhile BeforeRemove
    (snd (lock_guard shared (set_handler shared None)
            (snd (call_SendResponse_among meanwhile (fd event) response v)))).

(** What happens meanwhile leaves the registrations of [f] alone: no
    worker is dispatched on [f], and nobody registers or removes it. *)
Definition leaves_registered (f : SharedFD)
    (meanwhile : Moment -> World -> World) : Prop :=
  forall moment u,
    registrations f (callbacks_ (meanwhile moment u))
    = registrations f (callbacks_ u).

(** From [u] to [u'] the record of calls only grew, by calls that stay
    with the descriptor [f]. *)
Definition kept_to (f : SharedFD) (u u' : World) : Prop :=
  exists t, trace u' = trace u ++ t /\ existsb (strays f) t = false.

(** A stretch of a call's own steps on the connection [f]: [running_]
    is not written, no other descriptor gains or loses a registration,
    and the calls made stay with [f]. *)
Definition own_steps (f : SharedFD) (u u' : World) : Prop :=
  running_ u' = running_ u
  /\ (forall f', f' <> f ->
        registrations f' (callbacks_ u') = registrations f' (callbacks_ u))
  /\ kept_to f u u'.

(** Stretches of own steps, with what happens meanwhile between them. *)
Inductive interleaved (f : SharedFD) (meanwhile : Moment -> World -> World)
  : World -> World -> Prop :=
| own_last u u' : own_steps f u u' -> interleaved f meanwhile u u'
| own_then u u1 moment u' :
    own_steps f u u1 ->
    interleaved f meanwhile (meanwhile moment u1) u' ->
    interleaved f meanwhile u u'.

(** The descriptor the kernel hands out next, once [AcceptClient] has run
    on [event]: it calls [Accept] exactly when the event is readable. *)
Definition next_fd_after_accept (event : EpollEvent) (w : World) : SharedFD :=
  if has_flag (events event) EPOLLIN then S (next_fd w) else next_fd w.

(** From the descriptor [first] on, what the kernel hands out as an
    eventfd is open and can be written. *)
Definition eventfds_from (first : SharedFD) : Prop :=
  forall f, first <= f -> IsOpen env f = true /\ EventfdWrite env f = true.

(** ** Small concrete servers, used by the examples *)

(** A handler with a fixed verdict and a fixed reply. *)
Definition stub_handler (id : nat) (verdict : Result bool)
    (reply : Result Response) : CvdServerHandler :=
  {| handler_id := id;
     CanHandle := fun _ => verdict;
     Handle := fun _ => reply;
     Interrupt := Ok tt |}.

(** Surroundings where every read yields [read], every write [written],
    and descriptors can always be created. *)
Definition scripted (handlers : list CvdServerHandler)
    (read : Result (option RequestWithStdio)) (written : Result unit) : Env :=
  {| possible_handlers := handlers;
     GetRequest := fun _ => read;
     SendResponse := fun _ _ => written;
     IsOpen := fun _ => true;
     EventfdWrite := fun _ => true |}.

(** A running server inside the callback of client descriptor 5: the
    dispatch has consumed that registration, the listener 3 is armed. *)
Definition serving : World :=
  {| running_ := true;
     callbacks_ := [{| reg_fd := 3; reg_interest := EPOLLIN;
                       reg_cb := accept_cb |}];
     heap := [];
     next_fd := 6;
     signalled := [];
     trace := [] |}.

(** A running server with nothing to do: listener 3 and client 5 are
    both waiting for input. *)
Definition idle : World :=
  {| running_ := true;
     callbacks_ := [{| reg_fd := 5; reg_interest := EPOLLIN;
                       reg_cb := message_cb |};
                    {| reg_fd := 3; reg_interest := EPOLLIN;
                       reg_cb := accept_cb |}];
     heap := [];
     next_fd := 6;
     signalled := [];
     trace := [] |}.

Definition readable (f : SharedFD) : EpollEvent :=
  {| fd := f; events := EPOLLIN |}.

Definition hung_up (f : SharedFD) : EpollEvent :=
  {| fd := f; events := N.lor EPOLLIN EPOLLHUP |}.

(** Surroundings like [scripted], except that descriptor [closed] comes
    out of [Accept] or [Event] not open. *)
Definition scripted_but (closed : SharedFD)
    (handlers : list CvdServerHandler)
    (read : Result (option RequestWithStdio)) (written : Result unit) : Env :=
  {| possible_handlers := handlers;
     GetRequest := fun _ => read;
     SendResponse := fun _ _ => written;
     IsOpen := fun f => negb (f =? closed);
     EventfdWrite := fun _ => true |}.

(** * Properties *)

(** ** Routing *)

Lemma only_logged_refl w : only_logged [] w w.
Proof. unfold only_logged; rewrite app_nil_r; auto 6. Qed.

Lemma only_logged_log a t w w' :
  only_logged t (log a w) w' -> only_logged (a :: t) w w'.
Proof.
  unfold only_logged; simpl; intros (? & ? & ? & ? & ? & ->).
  rewrite <- app_assoc; auto 6.
Qed.

Lemma since_app w w' t : trace w' = trace w ++ t -> since w w' = t.
Proof.
  unfold since; intros ->.
  rewrite skipn_app, skipn_all, Nat.sub_diag; reflexivity.
Qed.

Lemma only_logged_since t w w' : only_logged t w w' -> since w w' = t.
Proof. intros (_ & _ & _ & _ & _ & H); now apply since_app. Qed.

(** When every predicate answers, the loop asks every handler in order
    and keeps exactly the ones that said true. *)
Lemma collect_compatible_total request handlers :
  (forall h, In h handlers -> ok (CanHandle h request) = true) ->
  forall compatible w,
  exists w',
    collect_compatible request handlers compatible w
      = (Ok (compatible ++ matching request handlers), w')
    /\ only_logged (map asked handlers) w w'.
Proof.
  induction handlers as [|h hs IH]; intros Hall compatible w; simpl.
  - exists w; rewrite app_nil_r; split; [reflexivity | apply only_logged_refl].
  - assert (Hh : ok (CanHandle h request) = true) by (apply Hall; now left).
    assert (Hhs : forall k, In k hs -> ok (CanHandle k request) = true)
      by (intros; apply Hall; now right).
    unfold bind, CF_EXPECT, call_CanHandle, can_handle.
    destruct (CanHandle h request) as [b|e]; [|discriminate].
    destruct (IH Hhs (if b then compatible ++ [h] else compatible)
                (log (asked h) w)) as (w' & E & L).
    exists w'; split; [|now apply only_logged_log].
    unfold asked in E; rewrite E; destruct b; simpl;
      [rewrite <- app_assoc|]; reflexivity.
Qed.

(** The first predicate that fails ends the loop with its error. *)
Lemma collect_compatible_fails request pre h post e :
  (forall p, In p pre -> ok (CanHandle p request) = true) ->
  CanHandle h request = Err e ->
  forall compatible w,
  exists w',
    collect_compatible request (pre ++ h :: post) compatible w
      = (Err ("Received error" :: e), w')
    /\ only_logged (map asked (pre ++ [h])) w w'.
Proof.
  induction pre as [|p pre IH]; intros Hpre He compatible w; simpl.
  - unfold bind, CF_EXPECT, call_CanHandle; rewrite He.
    eexists; split; [reflexivity|].
    apply only_logged_log, only_logged_refl.
  - assert (Hp : ok (CanHandle p request) = true) by (apply Hpre; now left).
    assert (Hps : forall k, In k pre -> ok (CanHandle k request) = true)
      by (intros; apply Hpre; now right).
    unfold bind, CF_EXPECT, call_CanHandle.
    destruct (CanHandle p request) as [b|e']; [|discriminate].
    destruct (IH Hps He (if b then compatible ++ [p] else compatible)
                (log (asked p) w)) as (w' & E & L).
    exists w'; split; [exact E | now apply only_logged_log].
Qed.

(** A handler set with a failing predicate splits at the first failure. *)
Lemma first_failure request handlers :
  (exists h, In h handlers /\ ok (CanHandle h request) = false) ->
  exists pre h post e,
    handlers = pre ++ h :: post
    /\ (forall p, In p pre -> ok (CanHandle p request) = true)
    /\ CanHandle h request = Err e.
Proof.
  induction handlers as [|k ks IH]; intros (h & Hin & Hh).
  - destruct Hin.
  - destruct (CanHandle k request) as [b|e] eqn:Ek.
    + destruct Hin as [->|Hin]; [rewrite Ek in Hh; discriminate|].
      destruct IH as (pre & h' & post & e' & -> & Hpre & He');
        [now exists h|].
      exists (k :: pre), h', post, e'; repeat split; auto.
      intros p [<-|Hp]; [now rewrite Ek | now apply Hpre].
    + exists [], k, ks, e; repeat split; auto.
Qed.

Lemma no_handle_asked handlers :
  existsb is_handle (map asked handlers) = false.
Proof. induction handlers; simpl; auto. Qed.

Lemma RequestHandler_total request handlers w :
  (forall h, In h handlers -> ok (CanHandle h request) = true) ->
  exists w',
    RequestHandler request handlers w
      = (routed (matching request handlers), w')
    /\ only_logged (map asked handlers) w w'.
Proof.
  intros Hall.
  destruct (collect_compatible_total request handlers Hall [] w)
    as (w' & E & L).
  exists w'; split; [|exact L].
  unfold RequestHandler, bind; rewrite E; simpl.
  destruct (matching request handlers) as [|h [|k l]]; reflexivity.
Qed.

(** Whatever the predicates answer, routing only asks handlers (a prefix
    of them, in order) and its verdict does not depend on the world. *)
Lemma collect_compatible_logs request handlers :
  forall compatible w,
  exists asks,
    only_logged (map asked asks) w
      (snd (collect_compatible request handlers compatible w)).
Proof.
  induction handlers as [|h hs IH]; intros compatible w; simpl.
  - exists []; apply only_logged_refl.
  - unfold bind, CF_EXPECT, call_CanHandle.
    destruct (CanHandle h request) as [b|e]; simpl.
    + destruct (IH (if b then compatible ++ [h] else compatible)
                  (log (asked h) w)) as (asks & L).
      exists (h :: asks); now apply only_logged_log.
    + exists [h]; apply only_logged_log, only_logged_refl.
Qed.

Lemma collect_compatible_verdict request handlers :
  forall compatible w1 w2,
    fst (collect_compatible request handlers compatible w1)
    = fst (collect_compatible request handlers compatible w2).
Proof.
  induction handlers as [|h hs IH]; intros compatible w1 w2; simpl.
  - reflexivity.
  - unfold bind, CF_EXPECT, call_CanHandle.
    destruct (CanHandle h request) as [b|e]; simpl; [apply IH | reflexivity].
Qed.

Lemma RequestHandler_logs request handlers w :
  exists asks,
    only_logged (map asked asks) w (snd (RequestHandler request handlers w)).
Proof.
  destruct (collect_compatible_logs request handlers [] w) as (asks & L).
  exists asks. unfold RequestHandler, bind.
  destruct (collect_compatible request handlers [] w) as [[c|e] w']; simpl in *;
    [|exact L].
  unfold CF_EXPECT_that.
  destruct (List.length c =? 1); [|exact L].
  destruct c; exact L.
Qed.

Lemma RequestHandler_verdict request handlers w1 w2 :
  fst (RequestHandler request handlers w1)
  = fst (RequestHandler request handlers w2).
Proof.
  unfold RequestHandler, bind.
  pose proof (collect_compatible_verdict request handlers [] w1 w2) as E.
  destruct (collect_compatible request handlers [] w1) as [[c1|e1] u1],
           (collect_compatible request handlers [] w2) as [[c2|e2] u2];
    simpl in E; try discriminate; inversion E; subst; [|reflexivity].
  unfold CF_EXPECT_that.
  destruct (List.length c2 =? 1); [|reflexivity].
  destruct c2; reflexivity.
Qed.

Lemma unregister_fresh f T : registered f T = false -> unregister f T = T.
Proof.
  unfold registered, unregister; induction T as [|r T IH]; simpl; auto.
  intros H; apply orb_false_iff in H as [-> H]; simpl; now rewrite IH.
Qed.

Arguments registered : simpl never.
Arguments unregister : simpl never.

Lemma registered_cons f i cb T :
  registered f ({| reg_fd := f; reg_interest := i; reg_cb := cb |} :: T) = true.
Proof. unfold registered; simpl; now rewrite Nat.eqb_refl. Qed.

Lemma unregister_cons f i cb T :
  unregister f ({| reg_fd := f; reg_interest := i; reg_cb := cb |} :: T)
  = unregister f T.
Proof. unfold unregister; simpl; now rewrite Nat.eqb_refl. Qed.

Lemma registered_unregister f T : registered f (unregister f T) = false.
Proof.
  unfold registered, unregister; induction T as [|r T IH]; simpl; auto.
  destruct (reg_fd r =? f) eqn:E; simpl; [exact IH | now rewrite E].
Qed.

Lemma nth_error_update {A} n (f : A -> A) (l : list A) :
  nth_error (update n f l) n = option_map f (nth_error l n).
Proof.
  revert n; induction l as [|x l IH]; intros [|n]; simpl; auto.
Qed.

Ltac evolved :=
  unfold evolves; cbn;
  repeat match goal with
         | H : only_logged _ _ _ |- _ =>
             destruct H as (? & ? & ? & ? & ? & ?); cbn in *
         end;
  repeat split;
  repeat match goal with
         | H : trace _ = _ |- _ => rewrite H
         | H : callbacks_ _ = _ |- _ => rewrite H
         | H : running_ _ = _ |- _ => rewrite H
         end;
  rewrite ?unregister_fresh by assumption;
  rewrite <- ?app_assoc; cbn;
  try congruence.

Lemma HandleMessage_body_path event g w :
  HandleMessage_path event g w
    (fst (HandleMessage_body event (g, w)))
    (fst (snd (HandleMessage_body event (g, w))))
    (snd (snd (HandleMessage_body event (g, w)))).
Proof.
  set (P := fun X : Result unit * Frame =>
              HandleMessage_path event g w (fst X) (fst (snd X)) (snd (snd X))).
  change (P (HandleMessage_body event (g, w))).
  unfold HandleMessage_body.
  destruct (has_flag (events event) EPOLLHUP) eqn:Hhup.
  { unfold P; cbn. apply path_hangup; auto. unfold Remove.
    destruct (registered (fd event) (callbacks_ w)) eqn:R; evolved. }
  unfold bind at 1, CF_EXPECT_that at 1.
  destruct (has_flag (events event) EPOLLIN) eqn:Hin;
    [|unfold P; cbn; now apply path_not_readable].
  unfold bind at 1, in_world at 1, CF_EXPECT at 1, call_GetRequest at 1.
  cbn [snd fst].
  destruct (GetRequest env (fd event)) as [[request|]|e] eqn:Hreq.
  3:{ unfold P; cbn. apply path_read_failed; auto. evolved. }
  2:{ unfold P; cbn. apply path_end_of_file; auto. unfold Remove; cbn.
      destruct (registered (fd event) (callbacks_ w)) eqn:R; evolved. }
  unfold bind at 1, in_world at 1, make_shared at 1. cbn [snd fst].
  unfold bind at 1, in_world at 1, CF_EXPECT at 1. cbn [snd fst].
  match goal with |- context [RequestHandler request ?hs ?W] =>
    destruct (RequestHandler_logs request hs W) as (asks & L);
    pose proof (RequestHandler_verdict request hs W w) as V;
    destruct (RequestHandler request hs W) as [[h|e] w2] end; cbn in V, L.
  2:{ unfold P; cbn. apply path_unrouted with request asks; auto. evolved. }
  unfold bind at 1, in_world at 1, set_handler at 1. cbn [snd fst].
  unfold bind at 1, in_world at 1, CF_EXPECT at 1, Register at 1.
  cbn [snd fst callbacks_ set_heap].
  replace (callbacks_ w2) with (callbacks_ w) by (symmetry; apply L).
  replace (heap w2) with (heap w ++ [{| handler := None; mutex := false |}])
    by (symmetry; apply L).
  destruct (registered (fd event) (callbacks_ w)) eqn:R.
  { unfold P; cbn. apply path_register_refused with request h asks; auto.
    evolved. }
  cbn [snd fst].
  unfold bind at 1, in_world at 1, CF_EXPECT at 1, call_Handle at 1.
  cbn [snd fst].
  destruct (Handle h request) as [response|e] eqn:Hh.
  2:{ unfold P; cbn. apply path_handle_failed with request h asks; auto.
      evolved. }
  unfold bind at 1, in_world at 1, CF_EXPECT at 1, call_SendResponse at 1.
  cbn [snd fst].
  destruct (SendResponse env (fd event) response) as [[]|e] eqn:Hs.
  2:{ unfold P; cbn. apply path_send_failed with request h asks response; auto.
      evolved. }
  unfold bind at 1, in_world at 1, lock_guard at 1, set_handler at 1.
  cbn [snd fst].
  unfold bind at 1, in_world at 1, CF_EXPECT at 1, Remove at 1.
  cbn [snd fst callbacks_ set_heap log set_mutex set_callbacks].
  rewrite registered_cons, unregister_cons, (unregister_fresh _ _ R).
  cbn [snd fst].
  unfold bind at 1, in_world at 1, CF_EXPECT at 1, Register at 1.
  cbn [snd fst callbacks_ set_heap log set_mutex set_callbacks].
  rewrite R. cbn [snd fst].
  unfold P; cbn.
  apply path_served with request h asks response; auto.
  - evolved.
  - unfold get_handler; cbn.
    rewrite !nth_error_update.
    replace (heap w2) with (heap w ++ [{| handler := None; mutex := false |}])
      by (symmetry; apply L).
    rewrite nth_error_app2, Nat.sub_diag by lia. reflexivity.
Qed.
(** ** The guard and the connection's registration *)

Lemma abandon_client_evolves event w :
  evolves [ActRemove (fd event) (registered (fd event) (callbacks_ w))]
    (unregister (fd event) (callbacks_ w)) w (abandon_client event w).
Proof.
  unfold abandon_client, Remove.
  destruct (registered (fd event) (callbacks_ w)) eqn:R; evolved.
Qed.

Lemma registrations_unregister f f' T :
  f' <> f -> registrations f' (unregister f T) = registrations f' T.
Proof.
  intros N; unfold registrations, unregister.
  induction T as [|r T IH]; simpl; auto.
  destruct (reg_fd r =? f) eqn:E; simpl.
  - apply Nat.eqb_eq in E.
    destruct (reg_fd r =? f') eqn:E'; [apply Nat.eqb_eq in E'; congruence|].
    exact IH.
  - destruct (reg_fd r =? f'); now rewrite IH.
Qed.

Lemma registrations_cons_other f f' i cb T :
  f' <> f ->
  registrations f' ({| reg_fd := f; reg_interest := i; reg_cb := cb |} :: T)
  = registrations f' T.
Proof.
  intros N; unfold registrations; simpl.
  destruct (f =? f') eqn:E; [apply Nat.eqb_eq in E; congruence | reflexivity].
Qed.

(** Case analysis over the paths of one [HandleMessage] call: [r], [g1],
    [w1] are what the body leaves behind, before the guard is destroyed. *)
Ltac handle_message_paths event w r g1 w1 HP :=
  pose proof (HandleMessage_body_path event (armed event) w) as HP;
  unfold HandleMessage, guarded; fold (armed event);
  destruct (HandleMessage_body event (armed event, w)) as [r [g1 w1]];
  cbn [fst snd] in HP |- *;
  inversion HP; subst; clear HP;
  cbn [ScopeGuard_destroy armed fn_ ok] in *.

Ltac use_evolves :=
  repeat match goal with
         | H : evolves _ _ _ _ |- _ =>
             let Hr := fresh "Hrun" in
             let Hc := fresh "Htab" in
             let Ht := fresh "Htr" in
             destruct H as (Hr & Hc & Ht)
         end.

Ltac settle_table :=
  repeat match goal with
         | H : callbacks_ _ = _ |- _ => rewrite H
         end;
  rewrite ?registrations_unregister, ?registrations_cons_other by auto;
  rewrite ?unregister_cons;
  auto using registered_unregister.

Lemma AcceptClient_body_path event g w :
  AcceptClient_path event g w
    (fst (AcceptClient_body event (g, w)))
    (fst (snd (AcceptClient_body event (g, w))))
    (snd (snd (AcceptClient_body event (g, w)))).
Proof.
  set (P := fun X : Result unit * Frame =>
              AcceptClient_path event g w (fst X) (fst (snd X)) (snd (snd X))).
  change (P (AcceptClient_body event (g, w))).
  unfold AcceptClient_body.
  unfold bind at 1, CF_EXPECT_that at 1.
  destruct (has_flag (events event) EPOLLIN) eqn:Hin;
    [|unfold P; cbn; now apply accept_not_readable].
  unfold bind at 1, in_world at 1, SharedFD_Accept, new_fd. cbn [fst snd].
  unfold bind at 1, CF_EXPECT_that at 1. cbn [next_fd log].
  destruct (IsOpen env (next_fd w)) eqn:Hopen.
  2:{ unfold P; cbn. apply accept_failed; auto. evolved. }
  unfold bind at 1, in_world at 1, CF_EXPECT at 1, Register at 1.
  cbn [fst snd callbacks_ set_next_fd log].
  destruct (registered (next_fd w) (callbacks_ w)) eqn:Rc.
  { unfold P; cbn. apply accept_client_refused; auto. evolved. }
  unfold bind at 1, in_world at 1, CF_EXPECT at 1, Register at 1.
  cbn [fst snd callbacks_ set_next_fd log set_callbacks].
  fold (client_registration w).
  destruct (registered (fd event) (client_registration w :: callbacks_ w))
    eqn:Rl; unfold P; cbn.
  - apply accept_listener_refused; auto. evolved.
  - apply accept_done; auto. evolved.
Qed.

Ltac accept_client_paths event w r g1 w1 HP :=
  pose proof (AcceptClient_body_path event {| fn_ := Some Stop |} w) as HP;
  unfold AcceptClient, guarded;
  destruct (AcceptClient_body event ({| fn_ := Some Stop |}, w))
    as [r [g1 w1]];
  cbn [fst snd] in HP |- *;
  inversion HP; subst; clear HP;
  cbn [ScopeGuard_destroy fn_ ok] in *.

(** Every failing [AcceptClient] stops the server. *)
Lemma AcceptClient_failure_stops event w :
  ok (fst (AcceptClient event w)) = false ->
  running_ (snd (AcceptClient event w)) = false.
Proof.
  accept_client_paths event w r g1 w1 HP; intros Hr;
    try discriminate; reflexivity.
Qed.

(** C9. A readiness event carrying the peer-hangup flag makes
    [HandleMessage] return success after nothing but [Remove] calls on
    the connection's descriptor: no request is read, no response written,
    no handler asked; the descriptor ends up without a registration and
    every other descriptor keeps its own. *)
Theorem hangup_drops_connection event w :
  has_flag (events event) EPOLLHUP = true ->
  let w' := snd (HandleMessage event w) in
  fst (HandleMessage event w) = Ok tt
  /\ since w w'
     = [ActRemove (fd event) (registered (fd event) (callbacks_ w));
        ActRemove (fd event) false]
  /\ existsb is_io (since w w') = false
  /\ registered (fd event) (callbacks_ w') = false
  /\ (forall f', f' <> fd event ->
        registrations f' (callbacks_ w') = registrations f' (callbacks_ w))
  /\ running_ w' = running_ w.
Proof.
  intros Hhup.
  handle_message_paths event w r g1 w1 HP; try congruence.
  pose proof (abandon_client_evolves event w1) as Hg; use_evolves.
  assert (E : since w (abandon_client event w1)
              = [ActRemove (fd event) (registered (fd event) (callbacks_ w));
                 ActRemove (fd event) false]).
  { apply since_app. rewrite Htr, Htr0, Htab0, registered_unregister.
    now rewrite <- app_assoc. }
  rewrite E.
  repeat split; [settle_table | intros; settle_table | congruence].
Qed.

(** C4 (amended). When the read of a request fails, [HandleMessage]
    returns that failure, the guard removes the connection's
    registration, other descriptors keep theirs, and [running_] is left
    as it was: nothing on this path calls [Stop]. *)
Theorem read_failure_drops_connection event w e :
  has_flag (events event) EPOLLHUP = false ->
  has_flag (events event) EPOLLIN = true ->
  GetRequest env (fd event) = Err e ->
  let w' := snd (HandleMessage event w) in
  fst (HandleMessage event w) = Err ("Received error" :: e)
  /\ since w w'
     = [ActGetRequest (fd event);
        ActRemove (fd event) (registered (fd event) (callbacks_ w))]
  /\ registered (fd event) (callbacks_ w') = false
  /\ (forall f', f' <> fd event ->
        registrations f' (callbacks_ w') = registrations f' (callbacks_ w))
  /\ running_ w' = running_ w.
Proof.
  intros Hhup Hin Hreq.
  handle_message_paths event w r g1 w1 HP; try congruence.
  pose proof (abandon_client_evolves event w1) as Hg; use_evolves.
  repeat split; [congruence | | settle_table | intros; settle_table
                 | congruence].
  apply since_app. rewrite Htr, Htr0, Htab0. now rewrite <- app_assoc.
Qed.

Lemma registrations_fresh f T : registered f T = false -> registrations f T = [].
Proof.
  unfold registered, registrations; induction T as [|r T IH]; simpl; auto.
  intros H; apply orb_false_iff in H as [-> H]; auto.
Qed.

(** Taking a logged action apart: it sits in one of the segments of an
    explicit trace. *)
Ltac in_trace H :=
  repeat (cbn in H;
          match type of H with
          | In _ (_ ++ _) => apply in_app_or in H; destruct H as [H|H]
          | In _ (map asked _) =>
              apply in_map_iff in H; destruct H as (? & H & _);
              discriminate H
          | _ \/ _ => destruct H as [H|H]
          | False => contradiction
          | _ = _ => first [discriminate H | fail 1]
          end).

(** C6. [HandleMessage] is its body followed by the destruction of the
    guard.  Whenever the body returns an error the guard is still armed,
    so the last thing the call does is the guard's [Remove] and the
    descriptor ends up without a registration.  Whenever the body got as
    far as registering the descriptor for the next read, it returns
    success with the guard cancelled, and destroying the guard changes
    nothing: the fresh registration stays. *)
Theorem guard_fires_unless_cancelled event w :
  let run := HandleMessage_body event (armed event, w) in
  let r := fst run in
  let g1 := fst (snd run) in
  let w1 := snd (snd run) in
  let w' := snd (HandleMessage event w) in
  HandleMessage event w = (r, ScopeGuard_destroy g1 w1)
  /\ (ok r = false ->
      fn_ g1 = Some (abandon_client event)
      /\ w' = abandon_client event w1
      /\ since w1 w'
         = [ActRemove (fd event) (registered (fd event) (callbacks_ w1))]
      /\ registered (fd event) (callbacks_ w') = false)
  /\ (In (ActRegister (fd event) EPOLLIN message_cb true) (since w w1) ->
      r = Ok tt
      /\ fn_ g1 = None
      /\ w' = w1
      /\ registrations (fd event) (callbacks_ w')
         = [{| reg_fd := fd event; reg_interest := EPOLLIN;
               reg_cb := message_cb |}]).
Proof.
  cbv zeta.
  handle_message_paths event w r g1 w1 HP; (split; [reflexivity|]);
    pose proof (abandon_client_evolves event w1) as Hg; use_evolves.
  all: split;
    [ intros Hr; try discriminate Hr;
      (split; [reflexivity|]); (split; [reflexivity|]);
      (split; [now apply since_app | settle_table])
    | intros Hreg ].
  all: try (erewrite since_app in Hreg by eassumption; now in_trace Hreg).
  - unfold since in Hreg; rewrite skipn_all in Hreg; destruct Hreg.
  - repeat split. rewrite Htab0; unfold registrations; simpl.
    rewrite Nat.eqb_refl. fold (registrations (fd event) (callbacks_ w)).
    now rewrite registrations_fresh.
Qed.

Lemma existsb_asked (p : Action -> bool) asks :
  (forall n, p (ActCanHandle n) = false) ->
  existsb p (map asked asks) = false.
Proof.
  intros H; induction asks as [|h asks IH]; simpl; auto.
  unfold asked at 1; now rewrite H.
Qed.

Lemma split_at_last {A} (p : A -> bool) x y pre t1 t2 :
  p x = true -> existsb p pre = false ->
  t1 ++ x :: t2 = pre ++ [y] -> x = y /\ t1 = pre /\ t2 = [].
Proof.
  intros Hx; revert pre; induction t1 as [|a t1 IH]; intros [|b pre] N E;
    simpl in *.
  - now inversion E.
  - inversion E; subst. rewrite Hx in N; discriminate.
  - inversion E as [[Ea Et]]. destruct t1; discriminate.
  - inversion E as [[Ea Et]]; subst.
    apply orb_false_iff in N as [_ N].
    destruct (IH pre N Et) as (-> & -> & ->); auto.
Qed.

Lemma absent_from_trace {A} (p : A -> bool) x t t1 t2 :
  p x = true -> existsb p t = false -> t = t1 ++ x :: t2 -> False.
Proof.
  intros Hx N ->. rewrite existsb_app in N; simpl in N.
  rewrite Hx, orb_true_r in N; discriminate.
Qed.

Lemma only_at_head {A} (p : A -> bool) x y rest t1 t2 :
  p x = true -> existsb p rest = false ->
  y :: rest = t1 ++ x :: t2 -> t1 = [].
Proof.
  intros Hx N E. destruct t1 as [|a t1]; [reflexivity|].
  inversion E; subst. exfalso; eapply absent_from_trace; eauto.
Qed.

(** The actions of a whole call: those of the body, then the guard's. *)
Ltac whole_trace :=
  match goal with
  | Htr : trace (abandon_client ?e ?w1) = trace ?w1 ++ ?g,
    Htr0 : trace ?w1 = trace ?w ++ ?tb
    |- context [since ?w (abandon_client ?e ?w1)] =>
      replace (since w (abandon_client e w1)) with (tb ++ g)
        by (symmetry; apply since_app; rewrite Htr, Htr0;
            now rewrite <- app_assoc)
  | Htr : trace (abandon_client ?e ?w) = trace ?w ++ ?g
    |- context [since ?w (abandon_client ?e ?w)] =>
      replace (since w (abandon_client e w)) with g
        by (symmetry; now apply since_app)
  | Htr0 : trace ?w1 = trace ?w ++ ?tb |- context [since ?w ?w1] =>
      replace (since w w1) with tb by (symmetry; now apply since_app)
  end.

Ltac scan_trace :=
  cbn; rewrite ?existsb_app, ?existsb_asked by reflexivity; cbn;
  rewrite ?orb_false_r; try reflexivity.

(** C7. In any one [HandleMessage] call the request is read before
    anything else, and a registration of interest in read-readiness is
    the very last action: it is made for the connection's own descriptor
    with the [HandleMessage] closure, after the request was read, the
    handler ran and [SendResponse] reported the response written.  The
    next read on the connection needs such a registration, so it cannot
    start before the response is out. *)
Theorem next_read_armed_after_response event w :
  let t := since w (snd (HandleMessage event w)) in
  (forall t1 t2 a,
      t = t1 ++ a :: t2 -> arms_read a = true ->
      a = ActRegister (fd event) EPOLLIN message_cb true
      /\ t2 = []
      /\ In (ActGetRequest (fd event)) t1
      /\ existsb is_handle t1 = true
      /\ In (ActSendResponse (fd event) true) t1)
  /\ (forall t1 t2 a, t = t1 ++ a :: t2 -> is_read a = true -> t1 = []).
Proof.
  cbv zeta.
  handle_message_paths event w r g1 w1 HP;
    try (pose proof (abandon_client_evolves event w1) as Hg); use_evolves;
    whole_trace.
  all: split; intros t1 t2 a E Ha.
  all: try (exfalso;
            match type of Ha with
            | ?p _ = true => eapply (absent_from_trace p _ _ _ Ha)
            end; [|exact E]; scan_trace; fail).
  all: try (match type of Ha with
            | ?p _ = true => eapply (only_at_head p _ _ _ Ha)
            end; [|exact E]; scan_trace; fail).
  symmetry in E.
  change (ActGetRequest (fd event) :: map asked asks ++ ?l) with
    ((ActGetRequest (fd event) :: map asked asks) ++ l) in E.
  match type of E with
  | _ = ?pre ++ [?x1; ?x2; ?x3; ?x4; ?x5; ?x6; ?y] =>
      change (pre ++ [x1; x2; x3; x4; x5; x6; y])
        with (pre ++ [x1; x2; x3; x4; x5; x6] ++ [y]) in E;
      rewrite app_assoc in E;
      apply (split_at_last arms_read _ _ _ _ _ Ha) in E;
        [destruct E as (-> & -> & ->) | scan_trace]
  end.
  split; [reflexivity|]. split; [reflexivity|].
  split; [now left|]. split; [scan_trace|].
  apply in_or_app; right. simpl; auto.
Qed.
(** ** Registration discipline *)

Lemma one_registration_unregister f T :
  one_registration_each T -> one_registration_each (unregister f T).
Proof.
  intros I f'. destruct (Nat.eq_dec f' f) as [->|N].
  - rewrite registrations_fresh by apply registered_unregister.
    simpl; lia.
  - rewrite registrations_unregister by exact N. apply I.
Qed.

Lemma one_registration_cons f i cb T :
  registered f T = false ->
  one_registration_each T ->
  one_registration_each
    ({| reg_fd := f; reg_interest := i; reg_cb := cb |} :: T).
Proof.
  intros R I f'. destruct (Nat.eq_dec f' f) as [->|N].
  - unfold registrations; simpl. rewrite Nat.eqb_refl.
    fold (registrations f T). rewrite registrations_fresh by exact R.
    simpl; lia.
  - rewrite registrations_cons_other by exact N. apply I.
Qed.

Lemma Register_table f i cb w :
  callbacks_ (snd (Register f i cb w))
  = if registered f (callbacks_ w)
    then callbacks_ w
    else {| reg_fd := f; reg_interest := i; reg_cb := cb |} :: callbacks_ w.
Proof. unfold Register; destruct (registered f (callbacks_ w)); reflexivity. Qed.

Lemma Remove_table f w :
  callbacks_ (snd (Remove f w)) = unregister f (callbacks_ w).
Proof. apply (abandon_client_evolves {| fd := f; events := 0 |} w). Qed.

Lemma HandleMessage_keeps_discipline event w :
  one_registration_each (callbacks_ w) ->
  one_registration_each (callbacks_ (snd (HandleMessage event w))).
Proof.
  intros I.
  handle_message_paths event w r g1 w1 HP;
    try (pose proof (abandon_client_evolves event w1) as Hg); use_evolves;
    repeat match goal with H : callbacks_ _ = _ |- _ => rewrite H end;
    rewrite ?unregister_cons;
    auto using one_registration_unregister, one_registration_cons.
Qed.

Lemma AcceptClient_keeps_discipline event w :
  one_registration_each (callbacks_ w) ->
  one_registration_each (callbacks_ (snd (AcceptClient event w))).
Proof.
  intros I.
  accept_client_paths event w r g1 w1 HP; use_evolves;
    unfold Stop; cbn [callbacks_ log set_running];
    repeat match goal with H : callbacks_ _ = _ |- _ => rewrite H end;
    unfold client_registration in *;
    auto using one_registration_cons.
Qed.

Lemma get_handler_set_mutex shared b w :
  get_handler shared (set_mutex shared b w) = get_handler shared w.
Proof.
  unfold get_handler, set_mutex; cbn. rewrite nth_error_update.
  destruct (nth_error (heap w) shared); reflexivity.
Qed.

(** The interrupt closure, path by path. *)
Lemma interrupt_run shared event w :
  let w' := snd (interrupt shared event w) in
  evolves
    (match get_handler shared w with
     | Some h => [ActLock shared; ActInterrupt (handler_id h);
                  ActUnlock shared]
     | None => [ActLock shared; ActUnlock shared]
     end) (callbacks_ w) w w'
  /\ fst (interrupt shared event w)
     = match get_handler shared w with
       | Some h => match Interrupt h with
                   | Ok _ => Ok tt
                   | Err e => Err ("Received error" :: e)
                   end
       | None => Err ["shared->handler != nullptr"]
       end
  /\ get_handler shared w' = get_handler shared w.
Proof.
  assert (G : forall b u, get_handler shared (set_mutex shared b u)
                          = get_handler shared u)
    by (intros; apply get_handler_set_mutex).
  assert (L : forall a u, get_handler shared (log a u) = get_handler shared u)
    by reflexivity.
  unfold interrupt, lock_guard, bind, CF_EXPECT_that, CF_EXPECT,
    call_Interrupt, ret.
  rewrite L, G.
  destruct (get_handler shared w) as [h|] eqn:Eh.
  - destruct (Interrupt h) as [[]|e]; cbn [fst snd];
      (split; [evolved|]); (split; [reflexivity|]);
      now rewrite ?L, ?G, ?L, ?G.
  - cbn [fst snd]. split; [evolved|]. split; [reflexivity|].
    now rewrite ?L, ?G, ?L, ?G.
Qed.

Lemma run_callback_world cb event w :
  snd (run_callback cb event w)
  = match cb with
    | accept_cb => snd (AcceptClient event w)
    | message_cb => snd (HandleMessage event w)
    | interrupt_cb shared => snd (interrupt shared event w)
    | wakeup_cb => w
    end.
Proof.
  destruct cb; unfold run_callback, bind, CF_EXPECT; try reflexivity.
  - destruct (AcceptClient event w) as [[[]|e] w']; reflexivity.
  - destruct (HandleMessage event w) as [[[]|e] w']; reflexivity.
Qed.

Lemma BestEffortWakeup_table w :
  callbacks_ (snd (BestEffortWakeup w)) = callbacks_ w
  \/ (registered (next_fd w) (callbacks_ w) = false
      /\ callbacks_ (snd (BestEffortWakeup w))
         = {| reg_fd := next_fd w; reg_interest := EPOLLIN;
              reg_cb := wakeup_cb |} :: callbacks_ w).
Proof.
  unfold BestEffortWakeup, bind, new_fd, CF_EXPECT_that, call_EventfdWrite,
    CF_EXPECT, Register, ret.
  destruct (IsOpen env (next_fd w)); [|now left].
  destruct (EventfdWrite env (next_fd w)); [|now left].
  cbn [callbacks_ log set_signalled set_next_fd].
  destruct (registered (next_fd w) (callbacks_ w)) eqn:R; [now left|].
  right; split; reflexivity.
Qed.

Lemma callback_keeps_discipline cb event w :
  one_registration_each (callbacks_ w) ->
  one_registration_each (callbacks_ (snd (run_callback cb event w))).
Proof.
  intros I. rewrite run_callback_world. destruct cb.
  - now apply AcceptClient_keeps_discipline.
  - now apply HandleMessage_keeps_discipline.
  - destruct (interrupt_run shared event w) as ((_ & -> & _) & _). exact I.
  - exact I.
Qed.

Lemma HandleEvent_keeps_discipline event w :
  one_registration_each (callbacks_ w) ->
  one_registration_each
    (callbacks_ (snd (HandleEvent run_callback event w))).
Proof.
  intros I. unfold HandleEvent.
  destruct (registrations (fd event) (callbacks_ w)) as [|r rs]; [exact I|].
  match goal with
  | |- context [CF_EXPECT ?m ?u] =>
      replace (snd (CF_EXPECT m u)) with (snd (m u))
        by (unfold CF_EXPECT; destruct (m u) as [[|] ?]; reflexivity)
  end.
  apply callback_keeps_discipline; cbn.
  now apply one_registration_unregister.
Qed.

(** C8. The table never holds two registrations for one descriptor:
    the property survives [Register], [Remove], a dispatch by
    [HandleEvent] with the callback it runs, and so every path of
    [HandleMessage], [AcceptClient], the interrupt closure and
    [BestEffortWakeup].  The two table operations refuse what would break
    it or has no object: [Register] on a registered descriptor and
    [Remove] on an unregistered one both return an error and leave the
    table alone. *)
Theorem registration_discipline f interest cb shared event w :
  one_registration_each (callbacks_ w) ->
  (one_registration_each (callbacks_ (snd (Register f interest cb w)))
   /\ one_registration_each (callbacks_ (snd (Remove f w)))
   /\ one_registration_each
        (callbacks_ (snd (HandleEvent run_callback event w)))
   /\ one_registration_each (callbacks_ (snd (HandleMessage event w)))
   /\ one_registration_each (callbacks_ (snd (AcceptClient event w)))
   /\ one_registration_each (callbacks_ (snd (interrupt shared event w)))
   /\ one_registration_each (callbacks_ (snd (BestEffortWakeup w))))
  /\ (registered f (callbacks_ w) = false ->
      fst (Remove f w) = Err ["No callback registered with epoll"]
      /\ callbacks_ (snd (Remove f w)) = callbacks_ w)
  /\ (registered f (callbacks_ w) = true ->
      fst (Remove f w) = Ok tt
      /\ registrations f (callbacks_ (snd (Remove f w))) = []
      /\ fst (Register f interest cb w)
         = Err ["Already have a callback created"]
      /\ callbacks_ (snd (Register f interest cb w)) = callbacks_ w).
Proof.
  intros I. split; [|split].
  - repeat split.
    + rewrite Register_table.
      destruct (registered f (callbacks_ w)) eqn:R;
        auto using one_registration_cons.
    + rewrite Remove_table. now apply one_registration_unregister.
    + now apply HandleEvent_keeps_discipline.
    + now apply HandleMessage_keeps_discipline.
    + now apply AcceptClient_keeps_discipline.
    + destruct (interrupt_run shared event w) as ((_ & -> & _) & _). exact I.
    + destruct (BestEffortWakeup_table w) as [->|(R & ->)];
        auto using one_registration_cons.
  - intros R. rewrite Remove_table, unregister_fresh by exact R.
    unfold Remove; rewrite R; auto.
  - intros R. rewrite Remove_table, Register_table.
    rewrite registrations_fresh by apply registered_unregister.
    unfold Remove, Register; rewrite R; auto.
Qed.

(** C2 (amended). The interrupt closure takes the mutex of its shared
    state first and gives it back last.  In between it calls [Interrupt]
    on the handler, once, exactly when the handler reference is still
    set, and then returns what [Interrupt] returned.  When the reference
    has been cleared it calls nothing and returns the error of the failed
    null check.  Either way the table, [running_] and the reference
    itself are untouched.  The reference is cleared by the end of every
    [HandleMessage] call that served its request. *)
Theorem interrupt_only_while_handling shared event w :
  let w' := snd (interrupt shared event w) in
  since w w'
  = [ActLock shared]
      ++ match get_handler shared w with
         | Some h => [ActInterrupt (handler_id h)]
         | None => []
         end
      ++ [ActUnlock shared]
  /\ fst (interrupt shared event w)
     = match get_handler shared w with
       | Some h => match Interrupt h with
                   | Ok _ => Ok tt
                   | Err e => Err ("Received error" :: e)
                   end
       | None => Err ["shared->handler != nullptr"]
       end
  /\ callbacks_ w' = callbacks_ w
  /\ running_ w' = running_ w
  /\ get_handler shared w' = get_handler shared w
  /\ (forall request_event u,
        existsb is_handle (since u (snd (HandleMessage request_event u)))
        = true ->
        ok (fst (HandleMessage request_event u)) = true ->
        get_handler (List.length (heap u))
          (snd (HandleMessage request_event u)) = None).
Proof.
  cbv zeta.
  destruct (interrupt_run shared event w) as ((Hr & Ht & Htr) & Hres & Hh).
  split; [|repeat split; auto].
  - apply since_app. rewrite Htr.
    destruct (get_handler shared w); reflexivity.
  - clear. intros event u.
    handle_message_paths event u r g1 w1 HP;
      try (pose proof (abandon_client_evolves event w1) as Hg); use_evolves;
      whole_trace; intros Hh Hok; try discriminate Hok; auto.
    all: exfalso; revert Hh; scan_trace; discriminate.
Qed.

(** C10. As soon as one handler's [CanHandle] fails, [RequestHandler]
    fails with that handler's error (the first failure in registration
    order, under the macro's "Received error" frame): it asks no handler
    after it and returns none, whatever the other predicates answer. *)
Theorem predicate_error_aborts_routing request handlers w :
  (exists h, In h handlers /\ ok (CanHandle h request) = false) ->
  exists pre h post e,
    handlers = pre ++ h :: post
    /\ (forall p, In p pre -> ok (CanHandle p request) = true)
    /\ CanHandle h request = Err e
    /\ fst (RequestHandler request handlers w) = Err ("Received error" :: e)
    /\ only_logged (map asked (pre ++ [h])) w
         (snd (RequestHandler request handlers w)).
Proof.
  intros X.
  destruct (first_failure request handlers X)
    as (pre & h & post & e & -> & Hpre & He).
  exists pre, h, post, e.
  destruct (collect_compatible_fails request pre h post Hpre He [] w)
    as (w' & Ec & L).
  unfold RequestHandler, bind; rewrite Ec; cbn [fst snd].
  repeat split; auto; apply L.
Qed.

(** C1 (amended). Provided every registered handler's [CanHandle]
    answers (none returns an error), [RequestHandler] succeeds exactly
    when one handler answered true, and then returns that handler; with
    no match or several it returns the routing error whose message ends
    with the number of matches.  Routing itself only asks predicates, and
    a [HandleMessage] call whose request is not routed to exactly one
    handler invokes no [Handle]. *)
Theorem routing_needs_exactly_one_match request handlers w :
  (forall h, In h handlers -> ok (CanHandle h request) = true) ->
  let found := List.length (matching request handlers) in
  let r := fst (RequestHandler request handlers w) in
  let w' := snd (RequestHandler request handlers w) in
  (ok r = true <-> found = 1)
  /\ (forall h, r = Ok h <-> matching request handlers = [h])
  /\ (found <> 1 ->
      r = Err [("Expected exactly one handler for message, found "
                  ++ to_string found)%string])
  /\ only_logged (map asked handlers) w w'
  /\ existsb is_handle (since w w') = false
  /\ (forall event,
        handlers = possible_handlers env ->
        GetRequest env (fd event) = Ok (Some request) ->
        found <> 1 ->
        existsb is_handle (since w (snd (HandleMessage event w))) = false).
Proof.
  intros Hall; cbv zeta.
  destruct (RequestHandler_total request handlers w Hall) as (w' & E & L).
  rewrite E; cbn [fst snd].
  assert (R1 : forall h, routed (matching request handlers) = Ok h
                         <-> matching request handlers = [h]).
  { intros h. unfold routed.
    destruct (matching request handlers) as [|k [|k' l]]; split; intros H;
      inversion H; reflexivity. }
  assert (R2 : List.length (matching request handlers) <> 1 ->
               routed (matching request handlers)
               = Err [("Expected exactly one handler for message, found "
                         ++ to_string
                              (List.length (matching request handlers)))%string]).
  { unfold routed.
    destruct (matching request handlers) as [|k [|k' l]]; simpl; intros N;
      [reflexivity | congruence | reflexivity]. }
  split; [|split; [exact R1|split; [exact R2|split; [exact L|split]]]].
  - split.
    + destruct (routed (matching request handlers)) as [h|e] eqn:Er;
        [|discriminate].
      intros _. now rewrite (proj1 (R1 h) eq_refl).
    + intros H1.
      destruct (matching request handlers) as [|k [|k' l]];
        try discriminate; reflexivity.
  - rewrite (only_logged_since L). apply no_handle_asked.
  - intros event -> Hreq N.
    pose proof (f_equal fst E) as V; cbn [fst] in V.
    rewrite (R2 N) in V. clear E L R1 R2 Hall.
    handle_message_paths event w r g1 w1 HP;
      try (pose proof (abandon_client_evolves event w1) as Hg); use_evolves;
      whole_trace; try (scan_trace; fail).
    all: congruence.
Qed.

(** ** More on one request *)

Lemma split_unique {A} (p : A -> bool) x y pre post t1 t2 :
  p x = true -> p y = true ->
  existsb p pre = false -> existsb p post = false ->
  t1 ++ x :: t2 = pre ++ y :: post -> t1 = pre /\ x = y /\ t2 = post.
Proof.
  intros Hx Hy; revert pre; induction t1 as [|a t1 IH]; intros [|b pre] N M E;
    simpl in *.
  - now inversion E.
  - inversion E; subst. rewrite Hx in N; discriminate.
  - inversion E as [[Ea Et]]; subst.
    exfalso. rewrite existsb_app in M; simpl in M.
    rewrite Hx, orb_true_r in M; discriminate.
  - inversion E as [[Ea Et]]; subst.
    apply orb_false_iff in N as [_ N].
    destruct (IH pre N M Et) as (-> & -> & ->); auto.
Qed.

(** X4. A clean end-of-file (the read succeeds and yields no request)
    ends the connection like a hang-up does: success, nothing but the
    read and [Remove] calls on the descriptor, no handler asked, no
    response written, the descriptor left without a registration. *)
Theorem end_of_file_drops_connection event w :
  has_flag (events event) EPOLLHUP = false ->
  has_flag (events event) EPOLLIN = true ->
  GetRequest env (fd event) = Ok None ->
  let w' := snd (HandleMessage event w) in
  fst (HandleMessage event w) = Ok tt
  /\ since w w'
     = [ActGetRequest (fd event);
        ActRemove (fd event) (registered (fd event) (callbacks_ w));
        ActRemove (fd event) false]
  /\ registered (fd event) (callbacks_ w') = false
  /\ (forall f', f' <> fd event ->
        registrations f' (callbacks_ w') = registrations f' (callbacks_ w))
  /\ running_ w' = running_ w.
Proof.
  intros Hhup Hin Hreq.
  handle_message_paths event w r g1 w1 HP; try congruence.
  pose proof (abandon_client_evolves event w1) as Hg; use_evolves.
  split; [reflexivity|]. split.
  { apply since_app. rewrite Htr, Htr0, Htab0, registered_unregister.
    now rewrite <- app_assoc. }
  repeat split; [settle_table | intros; settle_table | congruence].
Qed.

(** X5. A request is read exactly when the event has the read-readiness
    flag and not the hang-up flag: hang-up wins over pending data, and an
    event with neither flag reads nothing. *)
Theorem reads_exactly_when_readable event w :
  existsb is_read (since w (snd (HandleMessage event w)))
  = negb (has_flag (events event) EPOLLHUP)
    && has_flag (events event) EPOLLIN.
Proof.
  handle_message_paths event w r g1 w1 HP;
    try (pose proof (abandon_client_evolves event w1) as Hg); use_evolves;
    whole_trace;
    repeat match goal with H : has_flag _ _ = _ |- _ => rewrite H end;
    reflexivity.
Qed.

Lemma regroup {A} (a b c : A) m rest :
  a :: m ++ b :: c :: rest = (a :: m ++ [b]) ++ c :: rest.
Proof. simpl. now rewrite <- app_assoc. Qed.

Lemma regroup_more {A} (a b c : A) m rest more :
  (a :: m ++ b :: c :: rest) ++ more
  = (a :: m ++ [b]) ++ c :: (rest ++ more).
Proof. simpl. now rewrite <- !app_assoc. Qed.

(** X6. [Handle] is invoked at most once per call, on the handler
    routing chose for the request just read, and only right after the
    hang-up watch with the interrupt closure was accepted by the
    multiplexer; in particular never when the descriptor still had a
    registration on entry. *)
Theorem handler_runs_under_watch event w t1 t2 n :
  since w (snd (HandleMessage event w)) = t1 ++ ActHandle n :: t2 ->
  registered (fd event) (callbacks_ w) = false
  /\ (exists request h,
         GetRequest env (fd event) = Ok (Some request)
         /\ fst (RequestHandler request (possible_handlers env) w) = Ok h
         /\ n = handler_id h)
  /\ (exists t0,
         t1 = t0 ++ [ActRegister (fd event) EPOLLHUP
                       (interrupt_cb (List.length (heap w))) true])
  /\ existsb is_handle t1 = false
  /\ existsb is_handle t2 = false.
Proof.
  handle_message_paths event w r g1 w1 HP;
    try (pose proof (abandon_client_evolves event w1) as Hg); use_evolves;
    whole_trace; intros E.
  all: try (exfalso;
            eapply (absent_from_trace is_handle (ActHandle n) _ _ eq_refl);
            [|exact E]; scan_trace; fail).
  all: symmetry in E;
    first [rewrite regroup_more in E | rewrite regroup in E];
    apply (split_unique is_handle) in E; try reflexivity;
    try (scan_trace; fail).
  all: destruct E as (-> & En & ->); inversion En; subst n.
  all: split; [assumption|];
    (split; [exists request, h; auto|]);
    (split; [exists (ActGetRequest (fd event) :: map asked asks); reflexivity|]);
    split; scan_trace.
Qed.

Lemma regroup_at {A} (a c : A) m mid rest :
  a :: m ++ mid ++ c :: rest = (a :: m ++ mid) ++ c :: rest.
Proof. simpl. now rewrite <- app_assoc. Qed.

Lemma regroup_at_more {A} (a c : A) m mid rest more :
  (a :: m ++ mid ++ c :: rest) ++ more
  = (a :: m ++ mid) ++ c :: (rest ++ more).
Proof. simpl. now rewrite <- !app_assoc. Qed.

(** X7. A response is written at most once, and only for a request that
    was read, routed to one handler and handled successfully: when the
    read, the routing, the registration of the watch or [Handle] fails,
    nothing is sent to the client (no error reply either).  The logged
    outcome is that of the write of the handler's response. *)
Theorem response_only_after_handle event w t1 t2 f done :
  since w (snd (HandleMessage event w))
  = t1 ++ ActSendResponse f done :: t2 ->
  f = fd event
  /\ (exists request h response,
         GetRequest env (fd event) = Ok (Some request)
         /\ fst (RequestHandler request (possible_handlers env) w) = Ok h
         /\ Handle h request = Ok response
         /\ done = ok (SendResponse env (fd event) response))
  /\ existsb is_handle t1 = true
  /\ existsb is_response t1 = false
  /\ existsb is_response t2 = false.
Proof.
  handle_message_paths event w r g1 w1 HP;
    try (pose proof (abandon_client_evolves event w1) as Hg); use_evolves;
    whole_trace; intros E.
  all: try (exfalso;
            eapply (absent_from_trace is_response (ActSendResponse f done)
                      _ _ eq_refl);
            [|exact E]; scan_trace; fail).
  all: symmetry in E;
    match type of E with
    | context [?b :: ?c :: ActSendResponse ?f' ?d :: ?rest] =>
        change (b :: c :: ActSendResponse f' d :: rest)
          with ([b; c] ++ ActSendResponse f' d :: rest) in E
    end;
    first [rewrite regroup_at_more in E | rewrite regroup_at in E];
    apply (split_unique is_response) in E; try reflexivity;
    try (scan_trace; fail).
  all: destruct E as (-> & En & ->); inversion En; subst f done.
  all: split; [reflexivity|];
    (split; [exists request, h, response; repeat split; auto;
             match goal with H : SendResponse _ _ _ = _ |- _ => now rewrite H end
            |]);
    repeat split; scan_trace.
Qed.

(** X8. The mutex of the shared state is taken at most once per call,
    for the state made by this call, after the response was written, and
    it is released by the very next action: nothing else (no handler
    call, no socket or multiplexer call) happens while it is held. *)
Theorem mutex_held_for_the_clear_only event w t1 t2 s :
  since w (snd (HandleMessage event w)) = t1 ++ ActLock s :: t2 ->
  s = List.length (heap w)
  /\ (exists t3, t2 = ActUnlock s :: t3)
  /\ In (ActSendResponse (fd event) true) t1
  /\ existsb is_lock t1 = false
  /\ existsb is_lock t2 = false.
Proof.
  handle_message_paths event w r g1 w1 HP;
    try (pose proof (abandon_client_evolves event w1) as Hg); use_evolves;
    whole_trace; intros E.
  all: try (exfalso;
            eapply (absent_from_trace is_lock (ActLock s) _ _ eq_refl);
            [|exact E]; scan_trace; fail).
  symmetry in E.
  match type of E with
  | context [?b :: ?c :: ?d :: ActLock ?s' :: ?rest] =>
      change (b :: c :: d :: ActLock s' :: rest)
        with ([b; c; d] ++ ActLock s' :: rest) in E
  end.
  rewrite regroup_at in E.
  apply (split_unique is_lock) in E; try reflexivity; try (scan_trace; fail).
  destruct E as (-> & En & ->); inversion En; subst s.
  split; [reflexivity|]. split; [eexists; reflexivity|].
  split; [|split; scan_trace].
  right. apply in_or_app; right. simpl; auto.
Qed.

(** ** Dispatch and re-arming *)

Lemma HandleEvent_dispatches r event w rest :
  registrations (fd event) (callbacks_ w) = r :: rest ->
  HandleEvent run_callback event w
  = CF_EXPECT (run_callback (reg_cb r) event)
      (log (ActDispatch (fd event))
         (set_callbacks (unregister (fd event) (callbacks_ w)) w)).
Proof. intros E. unfold HandleEvent. now rewrite E. Qed.

Lemma dispatched_world cb event w :
  snd (CF_EXPECT (run_callback cb event) w) = snd (run_callback cb event w).
Proof.
  unfold CF_EXPECT. destruct (run_callback cb event w) as [[|] ?]; reflexivity.
Qed.

Lemma registrations_self f i cb T :
  registrations f ({| reg_fd := f; reg_interest := i; reg_cb := cb |} :: T)
  = {| reg_fd := f; reg_interest := i; reg_cb := cb |} :: registrations f T.
Proof. unfold registrations; simpl. now rewrite Nat.eqb_refl. Qed.

(** X13. An armed interrupt fires at most once.  Dispatching the
    hang-up event to the interrupt closure consumes the registration and
    the closure does not register again: [Interrupt] was called once if
    the handler reference was set and not at all otherwise, the
    descriptor is left without a registration, and a second hang-up event
    finds no callback, fails and changes nothing. *)
Theorem interrupt_fires_once shared event w :
  registrations (fd event) (callbacks_ w)
    = [{| reg_fd := fd event; reg_interest := EPOLLHUP;
          reg_cb := interrupt_cb shared |}] ->
  let w1 := snd (HandleEvent run_callback event w) in
  List.length (filter is_interrupt (since w w1))
    = (match get_handler shared w with Some _ => 1 | None => 0 end)
  /\ registered (fd event) (callbacks_ w1) = false
  /\ HandleEvent run_callback event w1
     = (Err ["Could not find event callback"], w1).
Proof.
  intros Hreg; cbv zeta.
  rewrite (HandleEvent_dispatches event w Hreg).
  rewrite dispatched_world. cbn [reg_cb run_callback].
  set (wd := log (ActDispatch (fd event))
               (set_callbacks (unregister (fd event) (callbacks_ w)) w)).
  destruct (interrupt_run shared event wd) as ((_ & Htab & Htr) & _ & _).
  assert (Hfree : registered (fd event)
                    (callbacks_ (snd (interrupt shared event wd))) = false)
    by (rewrite Htab; apply registered_unregister).
  split; [|split; [exact Hfree|]].
  - replace (get_handler shared w) with (get_handler shared wd) by reflexivity.
    erewrite since_app.
    2:{ rewrite Htr. unfold wd at 1; cbn [trace log set_callbacks].
        rewrite <- app_assoc. reflexivity. }
    destruct (get_handler shared wd); reflexivity.
  - unfold HandleEvent. now rewrite registrations_fresh.
Qed.

(** X14. After any call the connection is either armed for its next
    read or gone: its descriptor holds the single registration for
    reading with the [HandleMessage] closure when the call re-armed it,
    and no registration at all otherwise.  In particular the hang-up
    watch with the interrupt closure, made on the way, never stays in the
    table once the call has returned. *)
Theorem connection_rearmed_or_gone event w :
  let w' := snd (HandleMessage event w) in
  registrations (fd event) (callbacks_ w')
  = (if existsb arms_read (since w w')
     then [connection_registration (fd event)]
     else []).
Proof.
  cbv zeta.
  handle_message_paths event w r g1 w1 HP;
    try (pose proof (abandon_client_evolves event w1) as Hg); use_evolves;
    whole_trace.
  all: match goal with
       | |- _ = if ?b then _ else _ =>
           replace b with false by (symmetry; scan_trace);
           rewrite Htab;
           apply registrations_fresh, registered_unregister
       | _ => idtac
       end.
  match goal with
  | |- _ = if ?b then _ else _ => replace b with true by (symmetry; scan_trace)
  end.
  rewrite Htab0, registrations_self.
  now rewrite registrations_fresh.
Qed.

(** ** A request while the server goes on *)

Lemma HandleMessage_among_alone event w :
  HandleMessage_among alone event w = HandleMessage event w.
Proof. reflexivity. Qed.

Lemma strays_asked f asks : existsb (strays f) (map asked asks) = false.
Proof. now apply existsb_asked. Qed.

Lemma registered_registrations f T T' :
  registrations f T' = registrations f T -> registered f T' = registered f T.
Proof.
  unfold registrations, registered. intros E.
  assert (R : forall l, existsb (fun r => reg_fd r =? f) l
                        = negb (match filter (fun r => reg_fd r =? f) l with
                                | [] => true | _ => false end)).
  { induction l as [|a l IH]; simpl; [reflexivity|].
    destruct (reg_fd a =? f); simpl; [reflexivity | exact IH]. }
  now rewrite !R, E.
Qed.

(** From the return of [Handle] to the end of the body, on whatever
    world [v] the call left. *)
Lemma after_Handle_run meanwhile event shared response g v :
  let X := after_Handle meanwhile event shared response (g, v) in
  let v2 := at_Remove meanwhile event shared response v in
  match SendResponse env (fd event) response with
  | Err e =>
      X = (Err ("Received error" :: e),
           (g, meanwhile DuringSendResponse
                 (log (ActSendResponse (fd event) false) v)))
  | Ok _ =>
      if registered (fd event) (callbacks_ v2)
      then fst X = Ok tt
           /\ fst (snd X) = {| fn_ := None |}
           /\ evolves [ActRemove (fd event) true;
                       ActRegister (fd event) EPOLLIN message_cb true]
                (connection_registration (fd event)
                   :: unregister (fd event) (callbacks_ v2))
                v2 (snd (snd X))
      else fst X = Err ["Received error"; "No callback registered with epoll"]
           /\ fst (snd X) = g
           /\ evolves [ActRemove (fd event) false] (callbacks_ v2) v2
                (snd (snd X))
  end.
Proof.
  cbv zeta.
  set (v2 := at_Remove meanwhile event shared response v).
  set (P := fun X : Result unit * Frame =>
      match SendResponse env (fd event) response with
      | Err e =>
          X = (Err ("Received error" :: e),
               (g, meanwhile DuringSendResponse
                     (log (ActSendResponse (fd event) false) v)))
      | Ok _ =>
          if registered (fd event) (callbacks_ v2)
          then fst X = Ok tt
               /\ fst (snd X) = {| fn_ := None |}
               /\ evolves [ActRemove (fd event) true;
                           ActRegister (fd event) EPOLLIN message_cb true]
                    (connection_registration (fd event)
                       :: unregister (fd event) (callbacks_ v2))
                    v2 (snd (snd X))
          else fst X
               = Err ["Received error"; "No callback registered with epoll"]
               /\ fst (snd X) = g
               /\ evolves [ActRemove (fd event) false] (callbacks_ v2) v2
                    (snd (snd X))
      end).
  change (P (after_Handle meanwhile event shared response (g, v))).
  unfold after_Handle.
  unfold bind at 1, in_world at 1, CF_EXPECT at 1.
  unfold v2, at_Remove in P.
  unfold call_SendResponse_among in *.
  cbn [snd fst] in *.
  destruct (SendResponse env (fd event) response) as [[]|e] eqn:Hs.
  2:{ unfold P; reflexivity. }
  cbn [ok] in *.
  set (v1 := meanwhile DuringSendResponse
               (log (ActSendResponse (fd event) true) v)) in *.
  unfold bind at 1, in_world at 1.
  cbn [snd fst].
  destruct (lock_guard shared (set_handler shared None) v1) as [rl vl] eqn:El.
  assert (Erl : rl = Ok tt).
  { unfold lock_guard, set_handler in El. now inversion El. }
  subst rl. cbn [snd fst] in *.
  unfold bind at 1, in_world at 1, CF_EXPECT at 1, Remove_among at 1,
    Remove at 1.
  cbn [snd fst].
  destruct (registered (fd event) (callbacks_ (meanwhile BeforeRemove vl)))
    eqn:R.
  2:{ unfold P, evolves; cbn; repeat split. }
  cbn [snd fst].
  unfold bind at 1, in_world at 1, CF_EXPECT at 1, Register at 1.
  cbn [snd fst callbacks_ set_heap log set_mutex set_callbacks].
  rewrite registered_unregister. cbn [snd fst].
  unfold P, evolves; cbn; repeat split. now rewrite <- app_assoc.
Qed.

(** Up to the return of [Handle]: either the body leaves before the
    call, having touched only its own descriptor, or it gets there, and
    goes on from the world [Handle] and the rest of the server left. *)
Lemma HandleMessage_body_among_run meanwhile event g w :
  let X := HandleMessage_body_among meanwhile event (g, w) in
  (exists t T',
      fst (snd X) = g
      /\ evolves t T' w (snd (snd X))
      /\ (T' = callbacks_ w \/ T' = unregister (fd event) (callbacks_ w))
      /\ existsb (strays (fd event)) t = false
      /\ (ok (fst X) = true ->
          has_flag (events event) EPOLLHUP = true
          \/ GetRequest env (fd event) = Ok None)
      /\ (forall request h,
            has_flag (events event) EPOLLHUP = false ->
            has_flag (events event) EPOLLIN = true ->
            GetRequest env (fd event) = Ok (Some request) ->
            fst (RequestHandler request (possible_handlers env) w) = Ok h ->
            registered (fd event) (callbacks_ w) = false ->
            False))
  \/ (exists request h asks uH,
         has_flag (events event) EPOLLHUP = false
         /\ has_flag (events event) EPOLLIN = true
         /\ GetRequest env (fd event) = Ok (Some request)
         /\ fst (RequestHandler request (possible_handlers env) w) = Ok h
         /\ registered (fd event) (callbacks_ w) = false
         /\ evolves
              (ActGetRequest (fd event) :: map asked asks
                 ++ [ActRegister (fd event) EPOLLHUP
                       (interrupt_cb (List.length (heap w))) true;
                     ActHandle (handler_id h)])
              ({| reg_fd := fd event; reg_interest := EPOLLHUP;
                  reg_cb := interrupt_cb (List.length (heap w)) |}
                 :: callbacks_ w)
              w uH
         /\ get_handler (List.length (heap w)) uH = Some h
         /\ X = match Handle h request with
                | Err e =>
                    (Err ("Received error" :: e),
                     (g, meanwhile DuringHandle uH))
                | Ok response =>
                    after_Handle meanwhile event (List.length (heap w))
                      response (g, meanwhile DuringHandle uH)
                end).
Proof.
  cbv zeta.
  set (P := fun X : Result unit * Frame =>
  (exists t T',
      fst (snd X) = g
      /\ evolves t T' w (snd (snd X))
      /\ (T' = callbacks_ w \/ T' = unregister (fd event) (callbacks_ w))
      /\ existsb (strays (fd event)) t = false
      /\ (ok (fst X) = true ->
          has_flag (events event) EPOLLHUP = true
          \/ GetRequest env (fd event) = Ok None)
      /\ (forall request h,
            has_flag (events event) EPOLLHUP = false ->
            has_flag (events event) EPOLLIN = true ->
            GetRequest env (fd event) = Ok (Some request) ->
            fst (RequestHandler request (possible_handlers env) w) = Ok h ->
            registered (fd event) (callbacks_ w) = false ->
            False))
  \/ (exists request h asks uH,
         has_flag (events event) EPOLLHUP = false
         /\ has_flag (events event) EPOLLIN = true
         /\ GetRequest env (fd event) = Ok (Some request)
         /\ fst (RequestHandler request (possible_handlers env) w) = Ok h
         /\ registered (fd event) (callbacks_ w) = false
         /\ evolves
              (ActGetRequest (fd event) :: map asked asks
                 ++ [ActRegister (fd event) EPOLLHUP
                       (interrupt_cb (List.length (heap w))) true;
                     ActHandle (handler_id h)])
              ({| reg_fd := fd event; reg_interest := EPOLLHUP;
                  reg_cb := interrupt_cb (List.length (heap w)) |}
                 :: callbacks_ w)
              w uH
         /\ get_handler (List.length (heap w)) uH = Some h
         /\ X = match Handle h request with
                | Err e =>
                    (Err ("Received error" :: e),
                     (g, meanwhile DuringHandle uH))
                | Ok response =>
                    after_Handle meanwhile event (List.length (heap w))
                      response (g, meanwhile DuringHandle uH)
                end)).
  change (P (HandleMessage_body_among meanwhile event (g, w))).
  unfold HandleMessage_body_among.
  destruct (has_flag (events event) EPOLLHUP) eqn:Hhup.
  { unfold P; cbn. left.
    exists [ActRemove (fd event) (registered (fd event) (callbacks_ w))],
      (unregister (fd event) (callbacks_ w)).
    split; [reflexivity|]. split; [|split; [now right|split; [|split]]].
    - apply (abandon_client_evolves event w).
    - cbn. now rewrite Nat.eqb_refl.
    - now left.
    - intros; congruence. }
  unfold bind at 1, CF_EXPECT_that at 1.
  destruct (has_flag (events event) EPOLLIN) eqn:Hin.
  2:{ unfold P; cbn. left. exists [], (callbacks_ w).
      split; [reflexivity|]. split; [|split; [now left|split; [|split]]].
      - unfold evolves; cbn. now rewrite app_nil_r.
      - reflexivity.
      - discriminate.
      - intros; congruence. }
  unfold bind at 1, in_world at 1, CF_EXPECT at 1, call_GetRequest at 1.
  cbn [snd fst].
  destruct (GetRequest env (fd event)) as [[request|]|e] eqn:Hreq.
  3:{ unfold P; cbn. left. exists [ActGetRequest (fd event)], (callbacks_ w).
      split; [reflexivity|]. split; [evolved|]. split; [now left|].
      split; [cbn; now rewrite Nat.eqb_refl|].
      split; [discriminate | intros; congruence]. }
  2:{ unfold P; cbn. left.
      exists [ActGetRequest (fd event);
              ActRemove (fd event) (registered (fd event) (callbacks_ w))],
        (unregister (fd event) (callbacks_ w)).
      split; [reflexivity|]. split; [|split; [now right|split; [|split]]].
      - unfold Remove; cbn.
        destruct (registered (fd event) (callbacks_ w)) eqn:R; evolved.
      - cbn. now rewrite Nat.eqb_refl.
      - now right.
      - intros; congruence. }
  unfold bind at 1, in_world at 1, make_shared at 1. cbn [snd fst].
  unfold bind at 1, in_world at 1, CF_EXPECT at 1. cbn [snd fst].
  match goal with |- context [RequestHandler request ?hs ?W] =>
    destruct (RequestHandler_logs request hs W) as (asks & L);
    pose proof (RequestHandler_verdict request hs W w) as V;
    destruct (RequestHandler request hs W) as [[h|e] w2] end; cbn in V, L.
  2:{ unfold P; cbn. left.
      exists (ActGetRequest (fd event) :: map asked asks), (callbacks_ w).
      split; [reflexivity|]. split; [evolved|]. split; [now left|].
      split; [cbn; now rewrite Nat.eqb_refl, strays_asked|].
      split; [discriminate|].
      intros request' h' _ _ Hr' Hh' _.
      assert (request' = request) by congruence; subst request'.
      rewrite Hh' in V. discriminate V. }
  unfold bind at 1, in_world at 1, set_handler at 1. cbn [snd fst].
  unfold bind at 1, in_world at 1, CF_EXPECT at 1, Register at 1.
  cbn [snd fst callbacks_ set_heap].
  replace (callbacks_ w2) with (callbacks_ w) by (symmetry; apply L).
  replace (heap w2) with (heap w ++ [{| handler := None; mutex := false |}])
    by (symmetry; apply L).
  destruct (registered (fd event) (callbacks_ w)) eqn:R.
  { unfold P; cbn. left.
    exists (ActGetRequest (fd event) :: map asked asks
              ++ [ActRegister (fd event) EPOLLHUP
                    (interrupt_cb (List.length (heap w))) false]),
      (callbacks_ w).
    split; [reflexivity|]. split; [evolved|]. split; [now left|].
    split; [|split; [discriminate | intros; congruence]].
    cbn. now rewrite Nat.eqb_refl, existsb_app, strays_asked; cbn;
      rewrite Nat.eqb_refl. }
  cbn [snd fst].
  unfold P. right.
  eexists request, h, asks, _.
  repeat match goal with |- _ /\ _ => split end; auto.
  3:{ unfold bind at 1, in_world at 1, CF_EXPECT at 1,
        call_Handle_among at 1.
      cbn [snd fst].
      destruct (Handle h request) as [response|e]; reflexivity. }
  - evolved.
  - unfold get_handler; cbn.
    rewrite !nth_error_update.
    replace (heap w2) with (heap w ++ [{| handler := None; mutex := false |}])
      by (symmetry; apply L).
    rewrite nth_error_app2, Nat.sub_diag by lia. reflexivity.
Qed.

Lemma at_Remove_registrations f meanwhile event shared response v :
  leaves_registered f meanwhile ->
  registrations f (callbacks_ (at_Remove meanwhile event shared response v))
  = registrations f (callbacks_ v).
Proof.
  intros Hm. unfold at_Remove, call_SendResponse_among, lock_guard,
    set_handler.
  cbn [fst snd]. rewrite Hm. cbn [callbacks_ log set_mutex set_heap].
  rewrite Hm. reflexivity.
Qed.

(** Dispatch of a readable event to a connection registered with the
    [HandleMessage] closure. *)
Lemma HandleEvent_among_dispatches meanwhile event w :
  registrations (fd event) (callbacks_ w)
    = [connection_registration (fd event)] ->
  let wd := log (ActDispatch (fd event))
              (set_callbacks (unregister (fd event) (callbacks_ w)) w) in
  snd (HandleEvent (run_callback_among meanwhile) event w)
    = snd (HandleMessage_among meanwhile event wd)
  /\ fst (HandleEvent (run_callback_among meanwhile) event w)
     = match fst (HandleMessage_among meanwhile event wd) with
       | Ok _ => Ok tt
       | Err e => Err ("Received error" :: "Received error" :: e)
       end.
Proof.
  intros Hreg; cbv zeta. unfold HandleEvent. rewrite Hreg.
  cbn [reg_cb connection_registration].
  unfold run_callback_among, bind, CF_EXPECT, ret.
  destruct (HandleMessage_among meanwhile event _) as [[[]|e] u];
    split; reflexivity.
Qed.

(** X9. Keep-alive.  When the multiplexer dispatches a readable event to
    a connection registered with the [HandleMessage] closure, the request
    is read, routed, handled and answered, and nothing that happens
    meanwhile touches the registrations of the connection (the hang-up
    watch is not dispatched, in particular), then the dispatch returns
    success and the connection has the registration it had before, so it
    is armed for its next request exactly as it was for this one; so has
    every other descriptor that kept its registrations meanwhile. *)
Theorem served_request_rearms_connection meanwhile event w request h response :
  registrations (fd event) (callbacks_ w)
    = [connection_registration (fd event)] ->
  has_flag (events event) EPOLLHUP = false ->
  has_flag (events event) EPOLLIN = true ->
  GetRequest env (fd event) = Ok (Some request) ->
  fst (RequestHandler request (possible_handlers env) w) = Ok h ->
  Handle h request = Ok response ->
  SendResponse env (fd event) response = Ok tt ->
  leaves_registered (fd event) meanwhile ->
  let w' := snd (HandleEvent (run_callback_among meanwhile) event w) in
  fst (HandleEvent (run_callback_among meanwhile) event w) = Ok tt
  /\ registrations (fd event) (callbacks_ w')
     = [connection_registration (fd event)]
  /\ (forall f, leaves_registered f meanwhile ->
        registrations f (callbacks_ w') = registrations f (callbacks_ w)).
Proof.
  intros Hreg Hhup Hin Hreq Hroute Hhandle Hsend Hleft; cbv zeta.
  destruct (HandleEvent_among_dispatches meanwhile event w Hreg) as (-> & ->).
  set (wd := log (ActDispatch (fd event))
               (set_callbacks (unregister (fd event) (callbacks_ w)) w)).
  assert (Hfree : registered (fd event) (callbacks_ wd) = false)
    by apply registered_unregister.
  assert (Htabd : callbacks_ wd = unregister (fd event) (callbacks_ w))
    by reflexivity.
  rewrite (RequestHandler_verdict request (possible_handlers env) w wd)
    in Hroute.
  clearbody wd.
  unfold HandleMessage_among, guarded; fold (armed event).
  pose proof (HandleMessage_body_among_run meanwhile event (armed event) wd)
    as H; cbv zeta in H.
  destruct H as [(t & T' & _ & _ & _ & _ & _ & No)
                |(request' & h' & asks & uH & _ & _ & Hr' & Hh' & _ & He & _
                  & HX)].
  { exfalso; eauto. }
  assert (request' = request) by congruence; subst request'.
  assert (h' = h) by congruence; subst h'.
  rewrite HX, Hhandle. clear HX.
  set (s := List.length (heap wd)) in *.
  set (v := meanwhile DuringHandle uH).
  pose proof (after_Handle_run meanwhile event s response (armed event) v)
    as A; cbv zeta in A. rewrite Hsend in A.
  assert (Hv2 : forall f, leaves_registered f meanwhile ->
            registrations f (callbacks_ (at_Remove meanwhile event s response v))
            = registrations f
                ({| reg_fd := fd event; reg_interest := EPOLLHUP;
                    reg_cb := interrupt_cb s |} :: callbacks_ wd)).
  { intros f Hf. rewrite (at_Remove_registrations _ _ _ _ Hf).
    unfold v. rewrite Hf. destruct He as (_ & -> & _). reflexivity. }
  rewrite (registered_registrations _ _ _ (Hv2 _ Hleft)), registered_cons in A.
  destruct (after_Handle meanwhile event s response (armed event, v))
    as [r [g1 w1]]; cbn [fst snd] in *.
  destruct A as (-> & -> & (_ & Htab & _)).
  cbn [ScopeGuard_destroy fn_].
  split; [reflexivity|].
  assert (Hall : forall f, leaves_registered f meanwhile ->
            registrations f (callbacks_ w1) = registrations f (callbacks_ w)).
  { intros f Hf. rewrite Htab. unfold connection_registration.
    destruct (Nat.eq_dec f (fd event)) as [->|N].
    - rewrite registrations_self, Hreg.
      now rewrite registrations_fresh by apply registered_unregister.
    - rewrite registrations_cons_other, registrations_unregister by auto.
      rewrite (Hv2 _ Hf), registrations_cons_other, Htabd by auto.
      now apply registrations_unregister. }
  split; [|exact Hall].
  rewrite <- Hreg. now apply Hall.
Qed.

Lemma filter_none {A} (p : A -> bool) t : existsb p t = false -> filter p t = [].
Proof.
  induction t as [|a t IH]; simpl; [reflexivity|].
  destruct (p a); simpl; [discriminate | exact IH].
Qed.

Lemma evolves_trans t1 T1 t2 T2 u1 u2 u3 :
  evolves t1 T1 u1 u2 -> evolves t2 T2 u2 u3 -> evolves (t1 ++ t2) T2 u1 u3.
Proof.
  intros (R1 & C1 & L1) (R2 & C2 & L2). repeat split; try congruence.
  now rewrite L2, L1, app_assoc.
Qed.

Lemma evolves_log a u : evolves [a] (callbacks_ u) u (log a u).
Proof. repeat split. Qed.

Lemma evolves_cleared s u :
  evolves [ActLock s; ActUnlock s] (callbacks_ u) u
    (snd (lock_guard s (set_handler s None) u)).
Proof.
  unfold lock_guard, set_handler, evolves; cbn. repeat split.
  now rewrite <- app_assoc.
Qed.

Lemma cleared_handler s u h :
  get_handler s u = Some h ->
  get_handler s (snd (lock_guard s (set_handler s None) u)) = None.
Proof.
  unfold lock_guard, set_handler, set_mutex, get_handler; cbn.
  rewrite !nth_error_update.
  destruct (nth_error (heap u) s); [reflexivity | discriminate].
Qed.

(** Another worker is handed the hang-up of a connection under watch. *)
Lemma dispatched_elsewhere_interrupt hangup f s u rest :
  fd hangup = f ->
  callbacks_ u
    = {| reg_fd := f; reg_interest := EPOLLHUP; reg_cb := interrupt_cb s |}
        :: rest ->
  registered f rest = false ->
  evolves
    (ActDispatch f
       :: match get_handler s u with
          | Some h => [ActLock s; ActInterrupt (handler_id h); ActUnlock s]
          | None => [ActLock s; ActUnlock s]
          end)
    rest u (dispatched_elsewhere hangup u).
Proof.
  intros Hf Htab Hfree. unfold dispatched_elsewhere.
  assert (Hreg : registrations (fd hangup) (callbacks_ u)
                 = [{| reg_fd := f; reg_interest := EPOLLHUP;
                       reg_cb := interrupt_cb s |}]).
  { rewrite Htab, Hf, registrations_self.
    now rewrite (registrations_fresh _ _ Hfree). }
  rewrite (HandleEvent_dispatches hangup u Hreg).
  rewrite dispatched_world. cbn [reg_cb run_callback].
  set (ud := log (ActDispatch (fd hangup))
               (set_callbacks (unregister (fd hangup) (callbacks_ u)) u)).
  destruct (interrupt_run s hangup ud) as (E & _ & _).
  replace (get_handler s u) with (get_handler s ud) by reflexivity.
  assert (E0 : evolves [ActDispatch f] rest u ud).
  { unfold ud, evolves; cbn. rewrite Hf. repeat split.
    rewrite Htab, unregister_cons. now apply unregister_fresh. }
  pose proof (evolves_trans E0 E) as E1. cbn [app] in E1.
  destruct E1 as (R1 & C1 & L1). repeat split; try assumption.
  rewrite C1. apply E0.
Qed.

(** X16. The client hangs up while its request is in flight.  The
    hang-up watch registered before [Handle] is one-shot: when another
    worker is handed the hang-up event while [Handle] runs, while the
    response is written, or after the handler reference was cleared, it
    consumes the registration, and [Remove] after the response finds
    none.  A request that was read, routed, handled and answered then
    still fails, on "No callback registered with epoll"; the response had
    been written; the connection is left without a registration; and
    [Interrupt] was called once if the hang-up came before the reference
    was cleared and not at all if it came after. *)
Theorem hangup_in_flight_fails_request when event hangup w request h response :
  fd hangup = fd event ->
  registrations (fd event) (callbacks_ w)
    = [connection_registration (fd event)] ->
  has_flag (events event) EPOLLHUP = false ->
  has_flag (events event) EPOLLIN = true ->
  GetRequest env (fd event) = Ok (Some request) ->
  fst (RequestHandler request (possible_handlers env) w) = Ok h ->
  Handle h request = Ok response ->
  SendResponse env (fd event) response = Ok tt ->
  let run := HandleEvent (run_callback_among (hangup_at when hangup)) event w in
  fst run = Err ["Received error"; "Received error"; "Received error";
                 "No callback registered with epoll"]
  /\ registered (fd event) (callbacks_ (snd run)) = false
  /\ In (ActSendResponse (fd event) true) (since w (snd run))
  /\ List.length (filter is_interrupt (since w (snd run)))
     = match when with BeforeRemove => 0 | _ => 1 end.
Proof.
  intros Hfd Hreg Hhup Hin Hreq Hroute Hhandle Hsend; cbv zeta.
  destruct (HandleEvent_among_dispatches (hangup_at when hangup) event w Hreg)
    as (-> & ->).
  set (wd := log (ActDispatch (fd event))
               (set_callbacks (unregister (fd event) (callbacks_ w)) w)).
  assert (Hfree : registered (fd event) (callbacks_ wd) = false)
    by apply registered_unregister.
  assert (Ed : evolves [ActDispatch (fd event)] (callbacks_ wd) w wd)
    by (repeat split).
  rewrite (RequestHandler_verdict request (possible_handlers env) w wd)
    in Hroute.
  clearbody wd.
  unfold HandleMessage_among, guarded; fold (armed event).
  pose proof (HandleMessage_body_among_run (hangup_at when hangup) event
                (armed event) wd) as H; cbv zeta in H.
  destruct H as [(t & T' & _ & _ & _ & _ & _ & No)
                |(request' & h' & asks & uH & _ & _ & Hr' & Hh' & _ & He & Hget
                  & HX)].
  { exfalso; eauto. }
  assert (request' = request) by congruence; subst request'.
  assert (h' = h) by congruence; subst h'.
  rewrite HX, Hhandle. clear HX.
  set (s := List.length (heap wd)) in *.
  pose proof (after_Handle_run (hangup_at when hangup) event s response
                (armed event) (hangup_at when hangup DuringHandle uH))
    as A; cbv zeta in A. rewrite Hsend in A.
  assert (Hend : evolves
            (ActDispatch (fd event) :: ActGetRequest (fd event)
               :: map asked asks
               ++ ActRegister (fd event) EPOLLHUP (interrupt_cb s) true
               :: ActHandle (handler_id h)
               :: match when with
                  | DuringHandle =>
                      [ActDispatch (fd event); ActLock s;
                       ActInterrupt (handler_id h); ActUnlock s;
                       ActSendResponse (fd event) true;
                       ActLock s; ActUnlock s]
                  | DuringSendResponse =>
                      [ActSendResponse (fd event) true;
                       ActDispatch (fd event); ActLock s;
                       ActInterrupt (handler_id h); ActUnlock s;
                       ActLock s; ActUnlock s]
                  | BeforeRemove =>
                      [ActSendResponse (fd event) true;
                       ActLock s; ActUnlock s;
                       ActDispatch (fd event); ActLock s; ActUnlock s]
                  end)
            (callbacks_ wd) w
            (at_Remove (hangup_at when hangup) event s response
               (hangup_at when hangup DuringHandle uH))).
  { pose proof (evolves_trans Ed He) as E1.
    assert (HtabH := proj1 (proj2 He)).
    unfold at_Remove, call_SendResponse_among, hangup_at.
    rewrite Hsend. cbn [fst snd ok].
    destruct when; cbn [same_moment].
    - pose proof (dispatched_elsewhere_interrupt hangup uH Hfd HtabH Hfree)
        as E2. rewrite Hget in E2.
      set (v := dispatched_elsewhere hangup uH) in *.
      pose proof (evolves_trans
                    (evolves_trans (evolves_trans E1 E2)
                       (evolves_log (ActSendResponse (fd event) true) v))
                    (evolves_cleared s _)) as E3.
      destruct E2 as (_ & C2 & _).
      destruct E3 as (R3 & C3 & L3).
      split; [exact R3|]. split; [rewrite C3; exact C2|].
      rewrite L3. cbn. now rewrite <- !app_assoc.
    - set (v := log (ActSendResponse (fd event) true) uH).
      assert (Htabv : callbacks_ v = callbacks_ uH) by reflexivity.
      rewrite HtabH in Htabv.
      pose proof (dispatched_elsewhere_interrupt hangup v Hfd Htabv Hfree)
        as E2.
      replace (get_handler s v) with (get_handler s uH) in E2 by reflexivity.
      rewrite Hget in E2.
      pose proof (evolves_trans
                    (evolves_trans
                       (evolves_trans E1
                          (evolves_log (ActSendResponse (fd event) true) uH))
                       E2)
                    (evolves_cleared s _)) as E3.
      destruct E2 as (_ & C2 & _).
      destruct E3 as (R3 & C3 & L3).
      split; [exact R3|]. split; [rewrite C3; exact C2|].
      rewrite L3. cbn. now rewrite <- !app_assoc.
    - set (v := log (ActSendResponse (fd event) true) uH).
      set (vl := snd (lock_guard s (set_handler s None) v)).
      pose proof (evolves_cleared s v) as Ec. fold vl in Ec.
      assert (Htabl : callbacks_ vl = callbacks_ uH) by apply Ec.
      rewrite HtabH in Htabl.
      pose proof (dispatched_elsewhere_interrupt hangup vl Hfd Htabl Hfree)
        as E2.
      assert (Hgl : get_handler s vl = None)
        by (apply (cleared_handler s v (h := h)); exact Hget).
      rewrite Hgl in E2.
      pose proof (evolves_trans
                    (evolves_trans
                       (evolves_trans E1
                          (evolves_log (ActSendResponse (fd event) true) uH))
                       Ec)
                    E2) as E3.
      destruct E3 as (R3 & C3 & L3).
      split; [exact R3|]. split; [exact C3|].
      rewrite L3. cbn. now rewrite <- !app_assoc. }
  set (v2 := at_Remove (hangup_at when hangup) event s response
               (hangup_at when hangup DuringHandle uH)) in *.
  clearbody v2.
  destruct Hend as (_ & C2 & L2).
  rewrite C2, Hfree in A.
  destruct (after_Handle (hangup_at when hangup) event s response
              (armed event, hangup_at when hangup DuringHandle uH))
    as [r [g1 w1]]; cbn [fst snd] in *.
  destruct A as (-> & -> & (_ & C1 & L1)).
  cbn [ScopeGuard_destroy armed fn_].
  destruct (abandon_client_evolves event w1) as (_ & Ca & La).
  split; [reflexivity|]. split; [rewrite Ca; apply registered_unregister|].
  rewrite C1, Hfree in La.
  erewrite since_app
    by (rewrite La, L1, L2, <- !app_assoc; reflexivity).
  split.
  - apply in_or_app; left. apply in_cons, in_cons, in_or_app; right.
    destruct when; cbn; tauto.
  - destruct when; rewrite filter_app; cbn;
      rewrite filter_app, filter_none by (now apply existsb_asked);
      reflexivity.
Qed.
Lemma evolves_own_steps f t T' u u' :
  evolves t T' u u' ->
  (forall f', f' <> f ->
     registrations f' T' = registrations f' (callbacks_ u)) ->
  existsb (strays f) t = false ->
  own_steps f u u'.
Proof.
  intros (Hr & Ht & Htr) HT Hs. split; [exact Hr|]. split.
  - intros f' N. rewrite Ht. now apply HT.
  - now exists t.
Qed.

Lemma own_steps_trans f u1 u2 u3 :
  own_steps f u1 u2 -> own_steps f u2 u3 -> own_steps f u1 u3.
Proof.
  intros (R1 & T1 & t1 & L1 & S1) (R2 & T2 & t2 & L2 & S2).
  split; [congruence|]. split.
  - intros f' N. now rewrite T2, T1.
  - exists (t1 ++ t2). split.
    + now rewrite L2, L1, app_assoc.
    + now rewrite existsb_app, S1, S2.
Qed.

Lemma abandon_client_own_steps event u :
  own_steps (fd event) u (abandon_client event u).
Proof.
  eapply evolves_own_steps; [apply abandon_client_evolves | |].
  - intros f' N. now apply registrations_unregister.
  - cbn. now rewrite Nat.eqb_refl.
Qed.

Lemma ScopeGuard_destroy_own_steps event g u :
  g = armed event \/ g = {| fn_ := None |} ->
  own_steps (fd event) u (ScopeGuard_destroy g u).
Proof.
  intros [->| ->]; cbn [ScopeGuard_destroy armed fn_].
  - apply abandon_client_own_steps.
  - split; [reflexivity|]. split; [reflexivity|].
    exists []. split; [now rewrite app_nil_r | reflexivity].
Qed.

(** A call of [HandleMessage] is made of its own steps on its connection
    and of what happens meanwhile, and of nothing else. *)
Lemma HandleMessage_among_interleaved meanwhile event w :
  interleaved (fd event) meanwhile w
    (snd (HandleMessage_among meanwhile event w)).
Proof.
  unfold HandleMessage_among, guarded; fold (armed event).
  pose proof (HandleMessage_body_among_run meanwhile event (armed event) w)
    as H; cbv zeta in H.
  destruct H as [(t & T' & Hg & He & HT & Hs & _ & _)
                |(request & h & asks & uH & _ & _ & _ & _ & R & He & _ & HX)].
  - destruct (HandleMessage_body_among meanwhile event (armed event, w))
      as [r [g1 w1]]; cbn [fst snd] in *. subst g1.
    apply own_last.
    eapply own_steps_trans; [|apply abandon_client_own_steps].
    eapply evolves_own_steps; [exact He | | exact Hs].
    intros f' N. destruct HT as [-> | ->];
      [reflexivity | now apply registrations_unregister].
  - assert (O1 : own_steps (fd event) w uH).
    { eapply evolves_own_steps; [exact He | |].
      - intros f' N. now apply registrations_cons_other.
      - cbn. now rewrite Nat.eqb_refl, existsb_app, strays_asked; cbn;
          rewrite Nat.eqb_refl. }
    rewrite HX. clear HX.
    apply own_then with uH DuringHandle; [exact O1|].
    set (v := meanwhile DuringHandle uH). clearbody v.
    destruct (Handle h request) as [response|e].
    2:{ cbn [fst snd]. apply own_last, abandon_client_own_steps. }
    pose proof (after_Handle_run meanwhile event (List.length (heap w))
                  response (armed event) v) as A; cbv zeta in A.
    unfold at_Remove, call_SendResponse_among in A. cbn [fst snd] in A.
    destruct (SendResponse env (fd event) response) as [[]|e] eqn:Hs.
    2:{ rewrite A. cbn [fst snd].
        apply own_then
          with (log (ActSendResponse (fd event) false) v) DuringSendResponse.
        - eapply evolves_own_steps with (t := [ActSendResponse (fd event) false])
                                        (T' := callbacks_ v).
          + unfold evolves; cbn; auto.
          + reflexivity.
          + cbn. now rewrite Nat.eqb_refl.
        - apply own_last, abandon_client_own_steps. }
    cbn [ok] in A.
    set (v1 := meanwhile DuringSendResponse
                 (log (ActSendResponse (fd event) true) v)) in *.
    set (vl := snd (lock_guard (List.length (heap w))
                      (set_handler (List.length (heap w)) None) v1)) in *.
    apply own_then
      with (log (ActSendResponse (fd event) true) v) DuringSendResponse.
    { eapply evolves_own_steps with (t := [ActSendResponse (fd event) true])
                                    (T' := callbacks_ v).
      - unfold evolves; cbn; auto.
      - reflexivity.
      - cbn. now rewrite Nat.eqb_refl. }
    fold v1.
    apply own_then with vl BeforeRemove.
    { eapply evolves_own_steps
        with (t := [ActLock (List.length (heap w));
                    ActUnlock (List.length (heap w))])
             (T' := callbacks_ v1).
      - unfold vl, lock_guard, set_handler, evolves; cbn.
        repeat split. now rewrite <- app_assoc.
      - reflexivity.
      - reflexivity. }
    set (v2 := meanwhile BeforeRemove vl) in *.
    destruct (after_Handle meanwhile event (List.length (heap w)) response
                (armed event, v)) as [r [g1 w1]]; cbn [fst snd] in *.
    apply own_last.
    destruct (registered (fd event) (callbacks_ v2)) eqn:Rg;
      destruct A as (_ & -> & Ev).
    + eapply own_steps_trans;
        [|apply ScopeGuard_destroy_own_steps; now right].
      eapply evolves_own_steps; [exact Ev | |].
      * intros f' N. unfold connection_registration.
        now rewrite registrations_cons_other, registrations_unregister.
      * cbn. now rewrite Nat.eqb_refl.
    + eapply own_steps_trans;
        [|apply ScopeGuard_destroy_own_steps; now left].
      eapply evolves_own_steps; [exact Ev | |].
      * reflexivity.
      * cbn. now rewrite Nat.eqb_refl.
Qed.

Lemma interleaved_running f meanwhile u u' :
  (forall moment u0, running_ (meanwhile moment u0) = running_ u0) ->
  interleaved f meanwhile u u' -> running_ u' = running_ u.
Proof.
  intros Hm I. induction I as [u u' (R & _) | u u1 moment u' (R & _) _ IH].
  - exact R.
  - now rewrite IH, Hm.
Qed.

Lemma interleaved_registrations f f' meanwhile u u' :
  f' <> f -> leaves_registered f' meanwhile ->
  interleaved f meanwhile u u' ->
  registrations f' (callbacks_ u') = registrations f' (callbacks_ u).
Proof.
  intros N Hm I.
  induction I as [u u' (_ & T & _) | u u1 moment u' (_ & T & _) _ IH].
  - now apply T.
  - now rewrite IH, Hm, T.
Qed.

Lemma interleaved_kept f meanwhile u u' :
  (forall moment u0, kept_to f u0 (meanwhile moment u0)) ->
  interleaved f meanwhile u u' -> kept_to f u u'.
Proof.
  intros Hm I.
  induction I as [u u' (_ & _ & K) | u u1 moment u' (_ & _ & K) _ IH].
  - exact K.
  - destruct K as (t1 & L1 & S1).
    destruct (Hm moment u1) as (t2 & L2 & S2).
    destruct IH as (t3 & L3 & S3).
    exists (t1 ++ t2 ++ t3). split.
    + now rewrite L3, L2, L1, <- !app_assoc.
    + now rewrite !existsb_app, S1, S2, S3.
Qed.

(** X15. A call of [HandleMessage] stays within its connection, and so
    changes the rest of the server only through what happens meanwhile
    (the handler calling back into the server, the other workers).  If
    nothing that happens meanwhile writes [running_], the call leaves
    [running_] as it was; every other descriptor that keeps its
    registrations meanwhile keeps them over the call; and if the calls
    made meanwhile stay with the connection, so do all calls made from
    entry to return. *)
Theorem request_stays_within_its_connection meanwhile event w :
  let w' := snd (HandleMessage_among meanwhile event w) in
  ((forall moment u, running_ (meanwhile moment u) = running_ u) ->
   running_ w' = running_ w)
  /\ (forall f', f' <> fd event ->
        leaves_registered f' meanwhile ->
        registrations f' (callbacks_ w') = registrations f' (callbacks_ w))
  /\ ((forall moment u, kept_to (fd event) u (meanwhile moment u)) ->
      existsb (strays (fd event)) (since w w') = false).
Proof.
  cbv zeta.
  pose proof (HandleMessage_among_interleaved meanwhile event w) as I.
  split; [|split].
  - intros Hm. now apply (interleaved_running Hm I).
  - intros f' N Hm. now apply (interleaved_registrations N Hm I).
  - intros Hm. destruct (interleaved_kept Hm I) as (t & L & S).
    erewrite since_app by exact L. exact S.
Qed.

(** C5 (amended).  A failure while a request is routed, handled or
    answered costs only the connection: [HandleMessage] fails, the
    descriptor it ran for ends up without a registration, every other
    descriptor keeps its registrations unless something else took them
    meanwhile, and [running_] is as it was unless something else (the
    handler, another worker) wrote it meanwhile; [HandleMessage] itself
    never does.  A failure during accept is of another kind.
    [AcceptClient] fails exactly when the listener event is not
    readable, [accept()] returns a descriptor that is not open, or one
    of its two registrations is refused; whenever it fails it clears
    [running_], stopping the server, and when it succeeds it leaves
    [running_] alone; either way it drops no registration. *)
Theorem handling_failures_local_accept_failures_fatal
    meanwhile event w listening u :
  (forall request,
      has_flag (events event) EPOLLHUP = false ->
      has_flag (events event) EPOLLIN = true ->
      GetRequest env (fd event) = Ok (Some request) ->
      (ok (fst (RequestHandler request (possible_handlers env) w)) = false
       \/ (exists h,
              fst (RequestHandler request (possible_handlers env) w) = Ok h
              /\ ok (Handle h request) = false)
       \/ (exists h response,
              fst (RequestHandler request (possible_handlers env) w) = Ok h
              /\ Handle h request = Ok response
              /\ ok (SendResponse env (fd event) response) = false)) ->
      let w' := snd (HandleMessage_among meanwhile event w) in
      ok (fst (HandleMessage_among meanwhile event w)) = false
      /\ registered (fd event) (callbacks_ w') = false
      /\ (forall f', f' <> fd event ->
            leaves_registered f' meanwhile ->
            registrations f' (callbacks_ w') = registrations f' (callbacks_ w))
      /\ ((forall moment u0, running_ (meanwhile moment u0) = running_ u0) ->
          running_ w' = running_ w))
  /\ (let u' := snd (AcceptClient listening u) in
      (ok (fst (AcceptClient listening u)) = false
       <-> (has_flag (events listening) EPOLLIN = false
            \/ IsOpen env (next_fd u) = false
            \/ registered (next_fd u) (callbacks_ u) = true
            \/ registered (fd listening)
                 (client_registration u :: callbacks_ u) = true))
      /\ running_ u'
         = (if ok (fst (AcceptClient listening u)) then running_ u else false)
      /\ forall r, In r (callbacks_ u) -> In r (callbacks_ u')).
Proof.
  split.
  - intros request Hhup Hin Hreq Hcause; cbv zeta.
    pose proof (HandleMessage_among_interleaved meanwhile event w) as I.
    split; [|split; [|split]].
    3:{ intros f' N Hm. now apply (interleaved_registrations N Hm I). }
    3:{ intros Hm. now apply (interleaved_running Hm I). }
    all: clear I; unfold HandleMessage_among, guarded; fold (armed event);
      pose proof (HandleMessage_body_among_run meanwhile event (armed event) w)
        as H; cbv zeta in H;
      destruct H as [(t & T' & Hg & _ & _ & _ & Hok & _)
                    |(request' & h & asks & uH & _ & _ & Hr' & Hh & _ & _ & _
                      & HX)].
    1,3: destruct (HandleMessage_body_among meanwhile event (armed event, w))
           as [r [g1 w1]]; cbn [fst snd] in *; subst g1.
    + destruct (ok r); [|reflexivity].
      destruct (Hok eq_refl); congruence.
    + cbn [ScopeGuard_destroy armed fn_]. unfold abandon_client.
      rewrite Remove_table. apply registered_unregister.
    + assert (request' = request) by congruence; subst request'.
      rewrite HX; clear HX.
      destruct Hcause as [C|[(k & Hk & C)|(k & resp & Hk & Hk' & C)]].
      * rewrite Hh in C. discriminate C.
      * assert (k = h) by congruence; subst k.
        destruct (Handle h request); [discriminate C | reflexivity].
      * assert (k = h) by congruence; subst k. rewrite Hk'.
        pose proof (after_Handle_run meanwhile event (List.length (heap w))
                      resp (armed event) (meanwhile DuringHandle uH)) as A.
        cbv zeta in A.
        destruct (SendResponse env (fd event) resp); [discriminate C|].
        now rewrite A.
    + assert (request' = request) by congruence; subst request'.
      rewrite HX; clear HX.
      destruct Hcause as [C|[(k & Hk & C)|(k & resp & Hk & Hk' & C)]].
      * rewrite Hh in C. discriminate C.
      * assert (k = h) by congruence; subst k.
        destruct (Handle h request); [discriminate C|].
        cbn [fst snd ScopeGuard_destroy armed fn_]. unfold abandon_client.
        rewrite Remove_table. apply registered_unregister.
      * assert (k = h) by congruence; subst k. rewrite Hk'.
        pose proof (after_Handle_run meanwhile event (List.length (heap w))
                      resp (armed event) (meanwhile DuringHandle uH)) as A.
        cbv zeta in A.
        destruct (SendResponse env (fd event) resp); [discriminate C|].
        rewrite A. cbn [fst snd ScopeGuard_destroy armed fn_].
        unfold abandon_client.
        rewrite Remove_table. apply registered_unregister.
  - cbv zeta.
    accept_client_paths listening u r g1 u1 HP; use_evolves;
      unfold Stop; cbn [callbacks_ running_ log set_running];
      (split;
       [split;
        [intros D; first [discriminate D | tauto]
        |intros C; first [reflexivity | decompose [or] C; congruence]]
       |split; [first [reflexivity | assumption]|]]);
      repeat match goal with H : callbacks_ _ = _ |- _ => rewrite H end;
      intros r X; simpl; tauto.
Qed.

(** ** Routing and registration order *)

Lemma matching_permutation request hs hs' :
  Permutation hs hs' ->
  Permutation (matching request hs) (matching request hs').
Proof.
  unfold matching. induction 1 as [|x l l' P IH|x y l|l l' l'' P1 IH1 P2 IH2];
    simpl.
  - constructor.
  - destruct (can_handle request x); [now constructor | exact IH].
  - destruct (can_handle request x), (can_handle request y);
      try apply Permutation_refl. apply perm_swap.
  - eapply Permutation_trans; eauto.
Qed.

Lemma routed_permutation (l l' : list CvdServerHandler) :
  Permutation l l' -> routed l = routed l'.
Proof.
  intros P. pose proof (Permutation_length P) as L.
  destruct l as [|h [|k l]].
  - apply Permutation_nil in P. now subst.
  - apply Permutation_length_1_inv in P. now subst.
  - destruct l' as [|h' [|k' l']]; try discriminate L.
    unfold routed. now rewrite L.
Qed.

Lemma all_answer_dec request (hs : list CvdServerHandler) :
  (forall h, In h hs -> ok (CanHandle h request) = true)
  \/ (exists h, In h hs /\ ok (CanHandle h request) = false).
Proof.
  induction hs as [|k ks [IH|(h & Hin & Hh)]].
  - left. intros ? [].
  - destruct (ok (CanHandle k request)) eqn:E.
    + left. intros h [<-|Hin]; auto.
    + right. exists k. split; [now left | exact E].
  - right. exists h. split; [now right | exact Hh].
Qed.

(** X10. Whether routing succeeds, and which handler it returns, does
    not depend on the order in which the handlers are registered.  When
    every predicate answers, the whole result (the error message with
    its count included) is the same for any reordering; when some
    predicate fails, routing fails for every order. *)
Theorem routing_ignores_registration_order request hs hs' w w' :
  Permutation hs hs' ->
  ok (fst (RequestHandler request hs w))
  = ok (fst (RequestHandler request hs' w'))
  /\ (forall h, fst (RequestHandler request hs w) = Ok h ->
                fst (RequestHandler request hs' w') = Ok h)
  /\ ((forall h, In h hs -> ok (CanHandle h request) = true) ->
      fst (RequestHandler request hs w) = fst (RequestHandler request hs' w')).
Proof.
  intros P.
  assert (Same : (forall h, In h hs -> ok (CanHandle h request) = true) ->
                 fst (RequestHandler request hs w)
                 = fst (RequestHandler request hs' w')).
  { intros A.
    assert (A' : forall h, In h hs' -> ok (CanHandle h request) = true)
      by (intros h Hin; apply A; eapply Permutation_in;
          [apply Permutation_sym; exact P | exact Hin]).
    destruct (RequestHandler_total request hs w A) as (u & -> & _).
    destruct (RequestHandler_total request hs' w' A') as (u' & -> & _).
    cbn [fst]. apply routed_permutation. now apply matching_permutation. }
  destruct (all_answer_dec request hs) as [A|X].
  - rewrite (Same A). repeat split; auto.
  - assert (X' : exists h, In h hs' /\ ok (CanHandle h request) = false).
    { destruct X as (h & Hin & Hh). exists h. split; [|exact Hh].
      eapply Permutation_in; eauto. }
    destruct (first_failure request hs X)
      as (pre & k & post & e & -> & Hpre & He).
    destruct (first_failure request hs' X')
      as (pre' & k' & post' & e' & -> & Hpre' & He').
    destruct (collect_compatible_fails request pre k post Hpre He [] w)
      as (u & Ec & _).
    destruct (collect_compatible_fails request pre' k' post' Hpre' He' [] w')
      as (u' & Ec' & _).
    unfold RequestHandler, bind. rewrite Ec, Ec'. cbn [fst ok].
    split; [reflexivity|]. split; [discriminate|].
    intros A. exfalso.
    assert (Hk : In k (pre ++ k :: post))
      by (apply in_or_app; right; now left).
    specialize (A k Hk). rewrite He in A. discriminate.
Qed.
(** ** The shutdown cascade *)

Hypothesis eventfd_opens : forall f, IsOpen env f = true.
Hypothesis eventfd_writes : forall f, EventfdWrite env f = true.

Lemma not_registered_beyond f T :
  (forall r, In r T -> reg_fd r < f) -> registered f T = false.
Proof.
  intros H; unfold registered.
  destruct (existsb _ T) eqn:E; [|reflexivity].
  apply existsb_exists in E as (r & Hin & Hr).
  apply Nat.eqb_eq in Hr. specialize (H r Hin). lia.
Qed.

(** With descriptors available, arming a wake-up succeeds and its effect
    is explicit. *)
Lemma BestEffortWakeup_arms w :
  (forall r, In r (callbacks_ w) -> reg_fd r < next_fd w) ->
  BestEffortWakeup w
  = (Ok tt,
     log (ActRegister (next_fd w) EPOLLIN wakeup_cb true)
       (set_callbacks
          ({| reg_fd := next_fd w; reg_interest := EPOLLIN;
              reg_cb := wakeup_cb |} :: callbacks_ w)
          (log (ActEventfdWrite (next_fd w))
             (set_signalled (next_fd w :: signalled w)
                (set_next_fd (S (next_fd w)) w))))).
Proof.
  intros H.
  unfold BestEffortWakeup, bind, new_fd, CF_EXPECT_that, call_EventfdWrite,
    CF_EXPECT, Register, ret.
  rewrite eventfd_opens, eventfd_writes.
  cbn [callbacks_ log set_signalled set_next_fd].
  now rewrite (@not_registered_beyond _ _ H).
Qed.

(** A pending wake-up is dispatched to the no-op closure and consumed. *)
Lemma HandleEvent_wakeup ready w :
  (forall r, In r (callbacks_ w) -> is_signalled w r = true ->
             reg_cb r = wakeup_cb /\ reg_interest r = EPOLLIN) ->
  ready_now w ready = true ->
  HandleEvent run_callback ready w
  = (Ok tt,
     log (ActDispatch (fd ready))
       (set_callbacks (unregister (fd ready) (callbacks_ w)) w)).
Proof.
  intros Hw Hr. unfold ready_now in Hr.
  apply andb_true_iff in Hr as [_ Hr].
  apply existsb_exists in Hr as (r & Hin & Hs).
  unfold HandleEvent.
  assert (Hf : reg_fd r = fd ready)
    by (apply filter_In in Hin as [_ Hf]; now apply Nat.eqb_eq in Hf).
  destruct (registrations (fd ready) (callbacks_ w)) as [|r0 rs] eqn:E;
    [destruct Hin|].
  assert (Hin0 : In r0 (registrations (fd ready) (callbacks_ w)))
    by (rewrite E; now left).
  apply filter_In in Hin0 as [Hin0 Hf0].
  apply Nat.eqb_eq in Hf0.
  assert (S0 : is_signalled w r0 = true).
  { unfold signals in Hs. apply andb_true_iff in Hs as [Hs _].
    unfold is_signalled in *. now rewrite Hf0, <- Hf. }
  destruct (Hw r0 Hin0 S0) as [-> _]. reflexivity.
Qed.

Lemma remaining_update i t t' ts :
  nth_error ts i = Some t ->
  remaining_all (update i (fun _ => t') ts) + remaining t
  = remaining_all ts + remaining t'.
Proof.
  unfold remaining_all.
  revert i; induction ts as [|a ts IH]; intros [|i] H; simpl in *;
    try discriminate.
  - inversion H; subst; lia.
  - specialize (IH i H). lia.
Qed.

Lemma finished_update i t t' ts :
  nth_error ts i = Some t ->
  finished_count (update i (fun _ => t') ts)
    + (if is_finished t then 1 else 0)
  = finished_count ts + (if is_finished t' then 1 else 0).
Proof.
  unfold finished_count.
  revert i; induction ts as [|a ts IH]; intros [|i] H; simpl in *;
    try discriminate.
  - inversion H; subst. destruct t, t'; simpl; lia.
  - specialize (IH i H). destruct (is_finished a); simpl; lia.
Qed.

Lemma in_update {A} i (x y : A) l :
  In x (update i (fun _ => y) l) -> x = y \/ In x l.
Proof.
  revert i; induction l as [|a l IH]; intros [|i] H; simpl in *; auto.
  - destruct H as [H|H]; auto.
  - destruct H as [H|H]; auto. destruct (IH i H); auto.
Qed.

Lemma update_in {A} i (x y : A) l :
  nth_error l i = Some x -> In y (update i (fun _ => y) l).
Proof.
  revert i; induction l as [|a l IH]; intros [|i] H; simpl in *;
    try discriminate; [now left | right; eauto].
Qed.

Lemma in_unregister r f T : In r (unregister f T) -> In r T.
Proof. unfold unregister; intros H; now apply filter_In in H. Qed.

(** One step of the cascade, seen from the thread that takes it. *)
Lemma cascade_step p p' :
  cascading p -> step p p' ->
  cascading p'
  /\ remaining_all (threads_ p') + 1 = remaining_all (threads_ p)
  /\ wakeups_armed (world p') + finished_count (threads_ p)
     = wakeups_armed (world p) + finished_count (threads_ p')
  /\ next_fd (world p') + finished_count (threads_ p)
     = next_fd (world p) + finished_count (threads_ p').
Proof.
  intros [Hstop Hout Hwake Hab Hpend] Hstep.
  destruct Hstep as [i ready t t' w' p Hi Hw].
  pose proof (remaining_update i t' (threads_ p) Hi) as Hrem.
  pose proof (finished_update i t' (threads_ p) Hi) as Hfin.
  cbn [world threads_].
  destruct t; cbn [worker_step] in Hw.
  - (* the loop test *)
    rewrite Hstop in Hw. inversion Hw; subst; clear Hw.
    cbn in Hrem, Hfin.
    split; [|repeat split; lia].
    constructor; cbn [world threads_]; auto.
    + intros X; apply in_update in X as [X|X]; [discriminate | auto].
    + right; right. eapply update_in; eauto.
  - (* a wake-up is delivered *)
    destruct (ready_now (world p) ready) eqn:Hr; [|discriminate].
    rewrite (@HandleEvent_wakeup ready (world p) Hwake Hr) in Hw.
    inversion Hw; subst; clear Hw. cbn in Hrem, Hfin.
    split; [|repeat split; cbn; try lia].
    + constructor; cbn; auto.
      * intros r X; apply Hout; eapply in_unregister; eauto.
      * intros r X; apply Hwake; eapply in_unregister; eauto.
      * intros X; apply in_update in X as [X|X]; [discriminate | auto].
      * right; left. eapply update_in; eauto.
    + unfold wakeups_armed; cbn. rewrite filter_app; cbn.
      rewrite app_nil_r. lia.
  - (* the wake-up is re-armed *)
    rewrite (@BestEffortWakeup_arms (world p) Hout) in Hw.
    inversion Hw; subst; clear Hw. cbn in Hrem, Hfin.
    split; [|repeat split; cbn; try lia].
    + constructor; cbn; auto.
      * intros r [<-|X]; cbn; [lia | specialize (Hout r X); lia].
      * intros r [<-|X]; cbn; [auto|].
        unfold is_signalled; cbn.
        destruct (reg_fd r =? next_fd (world p)) eqn:E.
        { apply Nat.eqb_eq in E. specialize (Hout r X). lia. }
        cbn. apply Hwake; exact X.
      * intros X; apply in_update in X as [X|X]; [discriminate | auto].
      * left. unfold signals at 1; cbn. now rewrite Nat.eqb_refl.
    + unfold wakeups_armed; cbn. rewrite !filter_app; cbn.
      rewrite !length_app; cbn. lia.
  - discriminate.
  - discriminate.
Qed.

Lemma length_update {A} i (f : A -> A) l :
  List.length (update i f l) = List.length l.
Proof. revert i; induction l; intros [|i]; simpl; auto. Qed.

Lemma some_remaining ts :
  0 < remaining_all ts ->
  exists i t, nth_error ts i = Some t /\ 0 < remaining t.
Proof.
  unfold remaining_all; induction ts as [|a ts IH]; simpl; [lia|].
  intros H. destruct (remaining a) eqn:E.
  - destruct (IH H) as (i & t & Hi & Ht). now exists (S i), t.
  - exists 0, a; simpl; split; [reflexivity | lia].
Qed.

Lemma none_remaining ts :
  remaining_all ts = 0 -> ~ In Aborted ts ->
  forallb is_finished ts = true /\ finished_count ts = List.length ts.
Proof.
  unfold remaining_all, finished_count.
  induction ts as [|a ts IH]; simpl; [auto|].
  intros H N.
  assert (Ha : remaining a = 0) by lia.
  destruct IH as [IH1 IH2]; [lia | tauto |].
  destruct a; simpl in *; try discriminate; [|tauto].
  split; [exact IH1 | now rewrite IH2].
Qed.

(** While some thread has not returned, some thread can move. *)
Lemma cascade_progress p :
  cascading p -> 0 < remaining_all (threads_ p) -> exists p', step p p'.
Proof.
  intros [Hstop Hout Hwake Hab Hpend] Hrem.
  assert (Loop : In AtLoopTest (threads_ p) -> exists p', step p p').
  { intros X. apply In_nth_error in X as (j & Hj).
    eexists. eapply step_worker with (ready := {| fd := 0; events := 0 |});
      [exact Hj | reflexivity]. }
  assert (Wake : In AtWakeup (threads_ p) -> exists p', step p p').
  { intros X. apply In_nth_error in X as (j & Hj).
    eexists. eapply step_worker with (ready := {| fd := 0; events := 0 |});
      [exact Hj |].
    unfold worker_step.
    rewrite (@BestEffortWakeup_arms (world p) Hout). reflexivity. }
  destruct (some_remaining _ Hrem) as (i & t & Hi & Ht).
  destruct t; cbn in Ht; try lia.
  - apply Loop. eapply nth_error_In; eauto.
  - destruct Hpend as [Hp|[Hp|Hp]]; auto.
    apply existsb_exists in Hp as (r & Hin & Hs).
    eexists.
    eapply step_worker
      with (ready := {| fd := reg_fd r; events := EPOLLIN |});
      [exact Hi |].
    cbn [worker_step].
    replace (ready_now (world p) {| fd := reg_fd r; events := EPOLLIN |})
      with true; [reflexivity|].
    symmetry. unfold ready_now; cbn.
    apply existsb_exists. exists r; split; [|exact Hs].
    apply filter_In; split; [exact Hin | apply Nat.eqb_refl].
  - apply Wake. eapply nth_error_In; eauto.
Qed.

Lemma shutting_down_cascading N w :
  quiet w ->
  fst (request_shutdown w) = Ok tt /\ cascading (shutting_down N w).
Proof.
  intros Q.
  assert (Hout : forall r, In r (callbacks_ (set_running false w)) ->
                           reg_fd r < next_fd (set_running false w))
    by (intros r X; now apply Q).
  unfold shutting_down, request_shutdown.
  rewrite (@BestEffortWakeup_arms (set_running false w) Hout).
  split; [reflexivity|].
  constructor; cbn.
  - reflexivity.
  - intros r [<-|X]; cbn; [lia | destruct (Q r X); lia].
  - intros r [<-|X]; cbn; [auto|].
    destruct (Q r X) as [Hlt Hs].
    unfold is_signalled in *; cbn.
    destruct (reg_fd r =? next_fd w) eqn:E;
      [apply Nat.eqb_eq in E; lia|].
    cbn. rewrite Hs. discriminate.
  - intros X. apply repeat_spec in X. discriminate.
  - left. unfold signals at 1; cbn. now rewrite Nat.eqb_refl.
Qed.

Lemma remaining_waiting N : remaining_all (repeat InHandleEvent N) = 3 * N.
Proof. unfold remaining_all; induction N; simpl in *; lia. Qed.

Lemma finished_waiting N : finished_count (repeat InHandleEvent N) = 0.
Proof. unfold finished_count; induction N; simpl in *; auto. Qed.

(** Bookkeeping along any run of the cascade. *)
Lemma cascade_run N w n p :
  quiet w ->
  steps n (shutting_down N w) p ->
  cascading p
  /\ remaining_all (threads_ p) + n = 3 * N
  /\ List.length (threads_ p) = N
  /\ wakeups_armed (world p)
     = wakeups_armed (world (shutting_down N w)) + finished_count (threads_ p)
  /\ next_fd (world p)
     = next_fd (world (shutting_down N w)) + finished_count (threads_ p).
Proof.
  intros Q Hsteps.
  remember (shutting_down N w) as p0 eqn:E0.
  induction Hsteps as [p|n p q r Hpq IH Hqr].
  - subst p. destruct (shutting_down_cascading N Q) as [_ C].
    cbn [threads_ shutting_down].
    rewrite remaining_waiting, finished_waiting, repeat_length.
    split; [exact C|]. split; [lia|]. split; [reflexivity|]. split; lia.
  - destruct (IH E0) as (C & Hrem & Hlen & Harm & Hfd).
    destruct (cascade_step C Hqr) as (C' & Hrem' & Harm' & Hfd').
    split; [exact C'|]. split; [lia|].
    split; [destruct Hqr; cbn; now rewrite length_update|].
    split; lia.
Qed.

Lemma all_finished_stuck p p' :
  forallb is_finished (threads_ p) = true -> ~ step p p'.
Proof.
  intros F Hstep. destruct Hstep as [i ready t t' w' p Hi Hw].
  rewrite forallb_forall in F.
  specialize (F t (nth_error_In _ _ Hi)).
  destruct t; try discriminate F. discriminate Hw.
Qed.

Lemma cascade_reaches N w n :
  quiet w -> n <= 3 * N -> exists p, steps n (shutting_down N w) p.
Proof.
  intros Q. induction n as [|n IH]; intros Hn.
  - eexists; constructor.
  - destruct IH as (p & Hp); [lia|].
    destruct (cascade_run Q Hp) as (C & Hrem & _).
    destruct (cascade_progress C) as (p' & Hstep); [lia|].
    exists p'; econstructor; eauto.
Qed.

(** C3. Take [N] workers all waiting inside [HandleEvent] on a quiet
    server, and let the owner request shutdown: [running_] is cleared and
    one wake-up is armed.  Provided eventfds can be created and written,
    then whatever the order in which the threads move: no run is longer
    than [3 * N] steps; before that some thread can always move (a
    signal is pending or a thread is on its way to arm one); no thread
    dies on the [CHECK]; the number of wake-ups armed since, each on a
    descriptor of its own, equals the number of threads that have
    returned; and after [3 * N] steps every thread has returned, so
    [Join] returns.  Such a complete run exists. *)
Theorem shutdown_cascade N w :
  quiet w ->
  let p0 := shutting_down N w in
  fst (request_shutdown w) = Ok tt
  /\ running_ (world p0) = false
  /\ (forall n p,
        steps n p0 p ->
        n <= 3 * N
        /\ (n < 3 * N -> exists p', step p p')
        /\ ~ In Aborted (threads_ p)
        /\ wakeups_armed (world p)
           = wakeups_armed (world p0) + finished_count (threads_ p)
        /\ next_fd (world p)
           = next_fd (world p0) + finished_count (threads_ p)
        /\ (n = 3 * N ->
            Join_returns p = true
            /\ finished_count (threads_ p) = N
            /\ forall p', ~ step p p'))
  /\ exists p, steps (3 * N) p0 p.
Proof.
  intros Q; cbv zeta.
  destruct (shutting_down_cascading N Q) as [Hok C0].
  split; [exact Hok|]. split; [apply C0|]. split.
  - intros n p Hsteps.
    destruct (cascade_run Q Hsteps) as (C & Hrem & Hlen & Harm & Hfd).
    split; [lia|]. split.
    { intros Hn. apply cascade_progress; [exact C | lia]. }
    split; [apply C|]. split; [exact Harm|]. split; [exact Hfd|].
    intros Hn.
    destruct (@none_remaining (threads_ p)) as [F Hc];
      [lia | apply C |].
    split; [exact F|]. split; [congruence|].
    intros p'; now apply all_finished_stuck.
  - apply cascade_reaches; [exact Q | lia].
Qed.

(** ** More on the listener *)

Lemma registered_cons_other f f' i cb T :
  f <> f' ->
  registered f ({| reg_fd := f'; reg_interest := i; reg_cb := cb |} :: T)
  = registered f T.
Proof.
  intros N; unfold registered; simpl.
  destruct (f' =? f) eqn:E; [apply Nat.eqb_eq in E; congruence | reflexivity].
Qed.


(** X2. Seen from the dispatch that runs it (the listener's
    registration consumed, the kernel's next descriptor ahead of every
    registered one), [AcceptClient] succeeds exactly when the event is
    readable and the accepted descriptor is open; it then registers the
    client for reading with the [HandleMessage] closure, registers the
    listener again, and leaves [running_] alone. *)
Theorem accept_succeeds_when_it_can event w :
  (forall r, In r (callbacks_ w) -> reg_fd r < next_fd w) ->
  fd event < next_fd w ->
  registered (fd event) (callbacks_ w) = false ->
  let w' := snd (AcceptClient event w) in
  ok (fst (AcceptClient event w))
  = has_flag (events event) EPOLLIN && IsOpen env (next_fd w)
  /\ (ok (fst (AcceptClient event w)) = true ->
      callbacks_ w'
      = listener_registration (fd event)
          :: connection_registration (next_fd w) :: callbacks_ w
      /\ running_ w' = running_ w
      /\ since w w'
         = [ActAccept (fd event);
            ActRegister (next_fd w) EPOLLIN message_cb true;
            ActRegister (fd event) EPOLLIN accept_cb true]).
Proof.
  clear eventfd_opens eventfd_writes.
  intros Hout Hlt Hfree; cbv zeta.
  pose proof (not_registered_beyond _ Hout) as Hnew.
  assert (Hl : registered (fd event) (client_registration w :: callbacks_ w)
               = false).
  { unfold client_registration.
    rewrite registered_cons_other by lia. exact Hfree. }
  accept_client_paths event w r g1 w1 HP; use_evolves; try congruence;
    repeat match goal with H : has_flag _ _ = _ |- _ => rewrite H end;
    repeat match goal with H : IsOpen _ _ = _ |- _ => rewrite H end;
    (split; [reflexivity|]); intros Hok; try discriminate Hok.
  split; [exact Htab|]. split; [exact Hrun|]. now apply since_app.
Qed.

(** X1. [StartServer] on a descriptor that has no registration yet
    registers it for reading with the accepting closure; on one that has,
    it fails and changes nothing but the trace.  After a successful
    start, the first readable event dispatched on the listener accepts a
    client (when the accepted descriptor is open): the client is
    registered for reading, the listener is registered again, every
    earlier registration is still there, and the server keeps running. *)
Theorem listener_accepts_and_rearms server_fd w :
  (forall r, In r (callbacks_ w) -> reg_fd r < next_fd w) ->
  server_fd < next_fd w ->
  IsOpen env (next_fd w) = true ->
  let w1 := snd (StartServer server_fd w) in
  let w2 := snd (HandleEvent run_callback (readable server_fd) w1) in
  (registered server_fd (callbacks_ w) = true ->
   ok (fst (StartServer server_fd w)) = false
   /\ callbacks_ w1 = callbacks_ w)
  /\ (registered server_fd (callbacks_ w) = false ->
      fst (StartServer server_fd w) = Ok tt
      /\ callbacks_ w1 = listener_registration server_fd :: callbacks_ w
      /\ fst (HandleEvent run_callback (readable server_fd) w1) = Ok tt
      /\ callbacks_ w2
         = listener_registration server_fd
             :: connection_registration (next_fd w) :: callbacks_ w
      /\ running_ w2 = running_ w
      /\ since w w2
         = [ActRegister server_fd EPOLLIN accept_cb true;
            ActDispatch server_fd;
            ActAccept server_fd;
            ActRegister (next_fd w) EPOLLIN message_cb true;
            ActRegister server_fd EPOLLIN accept_cb true]).
Proof.
  clear eventfd_opens eventfd_writes.
  intros Hout Hlt Hopen; cbv zeta.
  unfold StartServer, bind, CF_EXPECT, Register.
  split; intros Hreg; rewrite Hreg; cbn [fst snd ok ret].
  { split; reflexivity. }
  split; [reflexivity|]. split; [reflexivity|].
  set (w1 := log (ActRegister server_fd EPOLLIN accept_cb true)
               (set_callbacks
                  ({| reg_fd := server_fd; reg_interest := EPOLLIN;
                      reg_cb := accept_cb |} :: callbacks_ w) w)).
  assert (R1 : registrations (fd (readable server_fd)) (callbacks_ w1)
               = [listener_registration server_fd]).
  { unfold w1; cbn [callbacks_ log set_callbacks fd readable].
    rewrite registrations_self.
    now rewrite registrations_fresh by exact Hreg. }
  rewrite (HandleEvent_dispatches (readable server_fd) w1 R1).
  cbn [reg_cb listener_registration].
  set (wd := log (ActDispatch (fd (readable server_fd)))
               (set_callbacks
                  (unregister (fd (readable server_fd)) (callbacks_ w1)) w1)).
  assert (Td : callbacks_ wd = callbacks_ w).
  { unfold wd, w1; cbn [callbacks_ log set_callbacks fd readable].
    now rewrite unregister_cons, unregister_fresh. }
  assert (Nd : next_fd wd = next_fd w) by reflexivity.
  assert (Rd : running_ wd = running_ w) by reflexivity.
  assert (Trd : trace wd
                = trace w ++ [ActRegister server_fd EPOLLIN accept_cb true;
                              ActDispatch server_fd])
    by (cbn; now rewrite <- app_assoc).
  assert (Hout' : forall r, In r (callbacks_ wd) -> reg_fd r < next_fd wd)
    by (rewrite Td, Nd; exact Hout).
  pose proof (not_registered_beyond _ Hout') as Hnew.
  assert (Hl : registered (fd (readable server_fd))
                 (client_registration wd :: callbacks_ wd) = false).
  { unfold client_registration. cbn [fd readable].
    rewrite registered_cons_other by lia. now rewrite Td. }
  unfold CF_EXPECT at 1, run_callback, bind, CF_EXPECT.
  clearbody wd. clear R1. clearbody w1.
  accept_client_paths (readable server_fd) wd r g1 w2 HP; use_evolves;
    try congruence; try discriminate.
  cbn [fst snd ret].
  split; [reflexivity|]. split.
  { rewrite Htab. unfold client_registration. now rewrite Td, Nd. }
  split; [congruence|].
  apply since_app. rewrite Htr, Trd, Nd. now rewrite <- app_assoc.
Qed.

(** ** Stopping without and with a wake-up *)


Lemma AcceptClient_body_allocation event g w :
  let w1 := snd (snd (AcceptClient_body event (g, w))) in
  signalled w1 = signalled w
  /\ next_fd w1
     = (if has_flag (events event) EPOLLIN then S (next_fd w) else next_fd w).
Proof.
  clear eventfd_opens eventfd_writes. cbv zeta.
  set (P := fun X : Result unit * Frame =>
              signalled (snd (snd X)) = signalled w
              /\ next_fd (snd (snd X))
                 = (if has_flag (events event) EPOLLIN
                    then S (next_fd w) else next_fd w)).
  change (P (AcceptClient_body event (g, w))).
  unfold AcceptClient_body.
  unfold bind at 1, CF_EXPECT_that at 1.
  destruct (has_flag (events event) EPOLLIN) eqn:Hin;
    [|unfold P; split; reflexivity].
  unfold bind at 1, in_world at 1, SharedFD_Accept, new_fd. cbn [fst snd].
  unfold bind at 1, CF_EXPECT_that at 1. cbn [next_fd log].
  destruct (IsOpen env (next_fd w));
    [|unfold P; split; reflexivity].
  unfold bind at 1, in_world at 1, CF_EXPECT at 1, Register at 1.
  cbn [fst snd callbacks_ set_next_fd log].
  destruct (registered (next_fd w) (callbacks_ w));
    [unfold P; split; reflexivity|].
  unfold bind at 1, in_world at 1, CF_EXPECT at 1, Register at 1.
  cbn [fst snd callbacks_ set_next_fd log set_callbacks].
  destruct (registered (fd event) _);
    unfold P; split; reflexivity.
Qed.

Lemma remaining_after_dispatch N i :
  i < N ->
  remaining_all (update i (fun _ => AtLoopTest) (repeat InHandleEvent N)) + 1
  = 3 * N.
Proof.
  intros Hi.
  pose proof (remaining_update i AtLoopTest (repeat InHandleEvent N)
                (t := InHandleEvent)) as H.
  rewrite remaining_waiting in H. cbn [remaining] in H.
  specialize (H (nth_error_repeat _ Hi)). lia.
Qed.

(** ** The cascade when only the descriptors still to come are good *)

Lemma AcceptClient_next_fd event w :
  next_fd (snd (AcceptClient event w)) = next_fd_after_accept event w.
Proof.
  clear eventfd_opens eventfd_writes.
  pose proof (AcceptClient_body_allocation event {| fn_ := Some Stop |} w)
    as Hall; cbv zeta in Hall. revert Hall.
  unfold next_fd_after_accept.
  accept_client_paths event w r g1 w1 HP; intros (_ & Hn);
    unfold Stop; cbn [next_fd log set_running]; exact Hn.
Qed.

Lemma BestEffortWakeup_arms_from first w :
  eventfds_from first ->
  first <= next_fd w ->
  (forall r, In r (callbacks_ w) -> reg_fd r < next_fd w) ->
  BestEffortWakeup w
  = (Ok tt,
     log (ActRegister (next_fd w) EPOLLIN wakeup_cb true)
       (set_callbacks
          ({| reg_fd := next_fd w; reg_interest := EPOLLIN;
              reg_cb := wakeup_cb |} :: callbacks_ w)
          (log (ActEventfdWrite (next_fd w))
             (set_signalled (next_fd w :: signalled w)
                (set_next_fd (S (next_fd w)) w))))).
Proof.
  clear eventfd_opens eventfd_writes.
  intros Hgood Hb H. destruct (Hgood _ Hb) as (Ho & Hw).
  unfold BestEffortWakeup, bind, new_fd, CF_EXPECT_that, call_EventfdWrite,
    CF_EXPECT, Register, ret.
  rewrite Ho, Hw.
  cbn [callbacks_ log set_signalled set_next_fd].
  now rewrite (@not_registered_beyond _ _ H).
Qed.

Lemma cascade_step_from first p p' :
  eventfds_from first ->
  first <= next_fd (world p) ->
  cascading p -> step p p' ->
  cascading p'
  /\ remaining_all (threads_ p') + 1 = remaining_all (threads_ p)
  /\ first <= next_fd (world p').
Proof.
  clear eventfd_opens eventfd_writes.
  intros Hgood Hb [Hstop Hout Hwake Hab Hpend] Hstep.
  destruct Hstep as [i ready t t' w' p Hi Hw].
  pose proof (remaining_update i t' (threads_ p) Hi) as Hrem.
  cbn [world threads_] in *.
  destruct t; cbn [worker_step] in Hw.
  - (* the loop test *)
    rewrite Hstop in Hw. inversion Hw; subst; clear Hw.
    cbn in Hrem.
    split; [|split; [lia | exact Hb]].
    constructor; cbn [world threads_]; auto.
    + intros X; apply in_update in X as [X|X]; [discriminate | auto].
    + right; right. eapply update_in; eauto.
  - (* a wake-up is delivered *)
    destruct (ready_now (world p) ready) eqn:Hr; [|discriminate].
    rewrite (@HandleEvent_wakeup ready (world p) Hwake Hr) in Hw.
    inversion Hw; subst; clear Hw. cbn in Hrem.
    split; [|split; [lia | exact Hb]].
    constructor; cbn; auto.
    + intros r X; apply Hout; eapply in_unregister; eauto.
    + intros r X; apply Hwake; eapply in_unregister; eauto.
    + intros X; apply in_update in X as [X|X]; [discriminate | auto].
    + right; left. eapply update_in; eauto.
  - (* the wake-up is re-armed *)
    rewrite (@BestEffortWakeup_arms_from first (world p) Hgood Hb Hout) in Hw.
    inversion Hw; subst; clear Hw. cbn in Hrem.
    split; [|split; [lia | cbn; lia]].
    constructor; cbn; auto.
    + intros r [<-|X]; cbn; [lia | specialize (Hout r X); lia].
    + intros r [<-|X]; cbn; [auto|].
      unfold is_signalled; cbn.
      destruct (reg_fd r =? next_fd (world p)) eqn:E.
      { apply Nat.eqb_eq in E. specialize (Hout r X). lia. }
      cbn. apply Hwake; exact X.
    + intros X; apply in_update in X as [X|X]; [discriminate | auto].
    + left. unfold signals at 1; cbn. now rewrite Nat.eqb_refl.
  - discriminate.
  - discriminate.
Qed.

Lemma cascade_progress_from first p :
  eventfds_from first ->
  first <= next_fd (world p) ->
  cascading p -> 0 < remaining_all (threads_ p) -> exists p', step p p'.
Proof.
  clear eventfd_opens eventfd_writes.
  intros Hgood Hb [Hstop Hout Hwake Hab Hpend] Hrem.
  assert (Loop : In AtLoopTest (threads_ p) -> exists p', step p p').
  { intros X. apply In_nth_error in X as (j & Hj).
    eexists. eapply step_worker with (ready := {| fd := 0; events := 0 |});
      [exact Hj | reflexivity]. }
  assert (Wake : In AtWakeup (threads_ p) -> exists p', step p p').
  { intros X. apply In_nth_error in X as (j & Hj).
    eexists. eapply step_worker with (ready := {| fd := 0; events := 0 |});
      [exact Hj |].
    unfold worker_step.
    rewrite (@BestEffortWakeup_arms_from first (world p) Hgood Hb Hout).
    reflexivity. }
  destruct (some_remaining _ Hrem) as (i & t & Hi & Ht).
  destruct t; cbn in Ht; try lia.
  - apply Loop. eapply nth_error_In; eauto.
  - destruct Hpend as [Hp|[Hp|Hp]]; auto.
    apply existsb_exists in Hp as (r & Hin & Hs).
    eexists.
    eapply step_worker
      with (ready := {| fd := reg_fd r; events := EPOLLIN |});
      [exact Hi |].
    cbn [worker_step].
    replace (ready_now (world p) {| fd := reg_fd r; events := EPOLLIN |})
      with true; [reflexivity|].
    symmetry. unfold ready_now; cbn.
    apply existsb_exists. exists r; split; [|exact Hs].
    apply filter_In; split; [exact Hin | apply Nat.eqb_refl].
  - apply Wake. eapply nth_error_In; eauto.
Qed.

Lemma cascade_run_from first p0 n p :
  eventfds_from first ->
  first <= next_fd (world p0) ->
  cascading p0 -> steps n p0 p ->
  cascading p
  /\ remaining_all (threads_ p) + n = remaining_all (threads_ p0)
  /\ first <= next_fd (world p).
Proof.
  clear eventfd_opens eventfd_writes.
  intros Hgood Hb C0 Hsteps. induction Hsteps as [p|n p q r Hpq IH Hqr].
  - split; [exact C0 | split; [lia | exact Hb]].
  - destruct (IH Hb C0) as (C & Hrem & Hq).
    destruct (cascade_step_from Hgood Hq C Hqr) as (C' & Hrem' & Hr).
    split; [exact C' | split; [lia | exact Hr]].
Qed.

(** X12. A failing accept shuts the whole pool down without any help
    from the owner, whatever made it fail: an event that is not readable,
    [accept()] itself returning a descriptor that is not open, or a
    registration refused.  When a worker's dispatch of a listener event
    fails, [AcceptClient] has cleared [running_]; that worker then leaves
    its loop and arms a wake-up itself, and the cascade carries every
    other worker (all of them waiting) out as well, provided the eventfds
    created from then on are open and can be written: from the moment the
    dispatch returns, every run has at most [3 * N - 1] steps, can always
    go on before that, loses no thread on the [CHECK], and ends with
    [Join] able to return. *)
Theorem listener_failure_starts_cascade N i event w :
  i < N ->
  (forall r, In r (callbacks_ w) -> reg_fd r < next_fd w) ->
  signalled w = [] ->
  registrations (fd event) (callbacks_ w)
    = [listener_registration (fd event)] ->
  ok (fst (HandleEvent run_callback event w)) = false ->
  eventfds_from (next_fd_after_accept event w) ->
  let p0 := after_dispatch N i event w in
  running_ (world p0) = false
  /\ (forall n p,
        steps n p0 p ->
        n + 1 <= 3 * N
        /\ (n + 1 < 3 * N -> exists p', step p p')
        /\ ~ In Aborted (threads_ p)
        /\ (n + 1 = 3 * N ->
            Join_returns p = true /\ forall p', ~ step p p')).
Proof.
  clear eventfd_opens eventfd_writes.
  intros Hi Hout Hsig Hreg Hfail Hgood; cbv zeta.
  assert (Hb : next_fd_after_accept event w
               <= next_fd (world (after_dispatch N i event w))).
  { unfold after_dispatch. cbn [world].
    rewrite (HandleEvent_dispatches event w Hreg), dispatched_world.
    cbn [reg_cb listener_registration].
    rewrite run_callback_world, AcceptClient_next_fd.
    unfold next_fd_after_accept; cbn [next_fd log set_callbacks]. lia. }
  assert (C0 : cascading (after_dispatch N i event w)).
  { unfold after_dispatch.
    rewrite (HandleEvent_dispatches event w Hreg) in Hfail |- *.
    rewrite dispatched_world.
    cbn [reg_cb listener_registration] in Hfail |- *.
    rewrite run_callback_world.
    set (wd := log (ActDispatch (fd event))
                 (set_callbacks (unregister (fd event) (callbacks_ w)) w))
      in *.
    assert (Hacc : ok (fst (AcceptClient event wd)) = false).
    { unfold CF_EXPECT at 1, run_callback, bind, CF_EXPECT in Hfail.
      destruct (AcceptClient event wd) as [[[]|e] u]; [discriminate Hfail|].
      reflexivity. }
    assert (Houtd : forall r, In r (callbacks_ wd) -> reg_fd r < next_fd wd)
      by (intros r X; apply Hout; eapply in_unregister; exact X).
    assert (Hsigd : signalled wd = []) by exact Hsig.
    pose proof (AcceptClient_body_allocation event {| fn_ := Some Stop |} wd)
      as Hall; cbv zeta in Hall.
    pose proof (AcceptClient_failure_stops event wd Hacc) as Hstop.
    clear Hb. clearbody wd. revert Hall Hstop Hacc.
    accept_client_paths event wd r g1 w1 HP; use_evolves;
      intros (Hs & Hn) Hstop Hacc; try discriminate Hacc;
      (constructor; cbn [world threads_];
       [ exact Hstop
       | unfold Stop; cbn [callbacks_ next_fd log set_running]
       | unfold Stop, is_signalled;
         cbn [callbacks_ signalled log set_running]
       | intros X; apply in_update in X as [X|X];
         [discriminate | apply repeat_spec in X; discriminate]
       | right; left; eapply update_in; apply (nth_error_repeat _ Hi) ]).
    all: try (intros r _; rewrite ?Hs, Hsigd; discriminate).
    all: repeat match goal with H : has_flag _ _ = _ |- _ =>
                  rewrite H in Hn end;
         rewrite ?Hn; repeat match goal with H : callbacks_ _ = _ |- _ =>
                               rewrite H end.
    - exact Houtd.
    - intros r X. specialize (Houtd r X). lia.
    - intros r X. specialize (Houtd r X). lia.
    - intros r [<-|X]; [cbn; lia | specialize (Houtd r X); lia]. }
  split; [apply C0|].
  intros n p Hsteps.
  destruct (cascade_run_from Hgood Hb C0 Hsteps) as (C & Hrem & Hp).
  pose proof (remaining_after_dispatch Hi) as H0.
  cbn [after_dispatch threads_] in Hrem.
  split; [lia|]. split.
  { intros Hn. apply (cascade_progress_from Hgood Hp C). lia. }
  split; [apply C|].
  intros Hn.
  destruct (@none_remaining (threads_ p)) as [F _]; [lia | apply C |].
  split; [exact F|]. intros p'; now apply all_finished_stuck.
Qed.

End Server.

(** * Examples on concrete servers

    Requests and responses are strings here.  The client talks on
    descriptor 5, the listener is descriptor 3. *)

(** C1, counterexample.  Handler 1 is the only one whose predicate says
    true, yet routing fails, because the predicate of handler 2 returns
    an error. *)
Lemma unique_match_is_not_enough :
  let handlers := [stub_handler string 1 (Ok true) (Ok "1.0");
                   stub_handler string 2 (Err ["unavailable"]) (Ok "2.0")] in
  ~ (ok (fst (RequestHandler "version" handlers (serving string string)))
       = true
     <-> List.length (matching "version" handlers) = 1).
Proof.
  cbv zeta. intros [_ H]. specialize (H eq_refl).
  vm_compute in H. discriminate H.
Qed.

Lemma routing_needs_exactly_one_match_witness :
  let handlers := [stub_handler string 1 (Ok true) (Ok "1.0");
                   stub_handler string 2 (Ok false) (Ok "2.0")] in
  (forall h, In h handlers -> ok (CanHandle h "version") = true)
  /\ fst (RequestHandler "version" handlers (serving string string))
     = Ok (stub_handler string 1 (Ok true) (Ok "1.0")).
Proof.
  cbv zeta.
  assert (H : forall h,
             In h [stub_handler string 1 (Ok true) (Ok "1.0");
                   stub_handler string 2 (Ok false) (Ok "2.0")] ->
             ok (CanHandle h "version") = true)
    by (intros h [<-|[<-|[]]]; reflexivity).
  split; [exact H|].
  pose proof (routing_needs_exactly_one_match
                (scripted [] (Ok None) (Ok tt)) "version" _
                (serving string string) H) as T.
  cbv zeta in T. apply (proj1 (proj2 T)). reflexivity.
Defined.

(** C2, counterexample.  After a request has been served the handler
    reference is cleared; the interrupt closure of that request, run
    then, does not return success: its null check fails. *)
Lemma late_interrupt_is_an_error :
  let env := scripted [stub_handler string 1 (Ok true) (Ok "1.0")]
               (Ok (Some "version")) (Ok tt) in
  let served := snd (HandleMessage env (readable 5) (serving string string)) in
  get_handler 0 served = None
  /\ fst (interrupt 0 (hung_up 5) served) = Err ["shared->handler != nullptr"]
  /\ fst (interrupt 0 (hung_up 5) served) <> Ok tt.
Proof.
  cbv zeta. split; [reflexivity|]. split; [reflexivity|].
  vm_compute. discriminate.
Qed.

Lemma interrupt_only_while_handling_witness :
  let env := scripted [stub_handler string 1 (Ok true) (Ok "1.0")]
               (Ok (Some "version")) (Ok tt) in
  let served := snd (HandleMessage env (readable 5) (serving string string)) in
  existsb is_handle (since (serving string string) served) = true
  /\ ok (fst (HandleMessage env (readable 5) (serving string string))) = true
  /\ get_handler 0 served = None.
Proof.
  cbv zeta. split; [reflexivity|]. split; [reflexivity|].
  pose proof (interrupt_only_while_handling
                (scripted [stub_handler string 1 (Ok true) (Ok "1.0")]
                   (Ok (Some "version")) (Ok tt))
                0 (hung_up 5) (serving string string)) as T.
  cbv zeta in T.
  apply (proj2 (proj2 (proj2 (proj2 (proj2 T)))) (readable 5)
           (serving string string)); reflexivity.
Defined.

Lemma shutdown_cascade_witness :
  let env := scripted (@nil (CvdServerHandler string string))
               (Ok None) (Ok tt) in
  (forall f, IsOpen env f = true)
  /\ (forall f, EventfdWrite env f = true)
  /\ quiet (idle string string)
  /\ exists p,
       steps env (3 * kNumThreads)
         (shutting_down env kNumThreads (idle string string)) p.
Proof.
  cbv zeta.
  assert (Q : quiet (idle string string)).
  { intros r [<-|[<-|[]]]; split; try reflexivity; cbn; lia. }
  split; [reflexivity|]. split; [reflexivity|]. split; [exact Q|].
  apply (shutdown_cascade
           (scripted (@nil (CvdServerHandler string string)) (Ok None) (Ok tt))
           (fun _ => eq_refl) (fun _ => eq_refl) kNumThreads Q).
Defined.

(** C4, counterexample.  A failing read drops the connection and leaves
    the server running. *)
Lemma read_failure_leaves_server_running :
  let env := scripted (@nil (CvdServerHandler string string))
               (Err ["read failed"]) (Ok tt) in
  let after := snd (HandleMessage env (readable 5) (serving string string)) in
  ok (GetRequest env 5) = false
  /\ registered 5 (callbacks_ after) = false
  /\ running_ after <> false.
Proof.
  cbv zeta. split; [reflexivity|]. split; [reflexivity|].
  vm_compute. discriminate.
Qed.

Lemma read_failure_drops_connection_witness :
  let env := scripted (@nil (CvdServerHandler string string))
               (Err ["read failed"]) (Ok tt) in
  let after := snd (HandleMessage env (readable 5) (serving string string)) in
  has_flag (events (readable 5)) EPOLLHUP = false
  /\ has_flag (events (readable 5)) EPOLLIN = true
  /\ GetRequest env 5 = Err ["read failed"]
  /\ running_ after = running_ (serving string string).
Proof.
  cbv zeta. split; [reflexivity|]. split; [reflexivity|].
  split; [reflexivity|].
  apply (read_failure_drops_connection
           (scripted (@nil (CvdServerHandler string string))
              (Err ["read failed"]) (Ok tt))
           (readable 5) (serving string string)
           (e := ["read failed"]) eq_refl eq_refl eq_refl).
Defined.

(** C5, counterexample.  The listener is readable and intact, only the
    accept itself fails (the accepted descriptor is not open): the server
    does not keep running, [running_] is cleared, and no registration has
    been dropped. *)
Lemma failed_accept_stops_server :
  let env := scripted_but 6 (@nil (CvdServerHandler string string))
               (Ok None) (Ok tt) in
  let after := snd (AcceptClient env (readable 3) (idle string string)) in
  has_flag (events (readable 3)) EPOLLIN = true
  /\ fst (AcceptClient env (readable 3) (idle string string))
     = Err ["client_fd->StrError()"]
  /\ callbacks_ after = callbacks_ (idle string string)
  /\ running_ (idle string string) = true
  /\ running_ after <> true.
Proof.
  cbv zeta. repeat (split; [reflexivity|]).
  vm_compute. discriminate.
Qed.

Lemma handling_failures_local_accept_failures_fatal_witness :
  let env := scripted_but 6 (@nil (CvdServerHandler string string))
               (Ok (Some "version")) (Ok tt) in
  let w := serving string string in
  let u := idle string string in
  let w' := snd (HandleMessage_among env (@alone _ _) (readable 5) w) in
  (has_flag (events (readable 5)) EPOLLHUP = false
   /\ has_flag (events (readable 5)) EPOLLIN = true
   /\ GetRequest env 5 = Ok (Some "version")
   /\ ok (fst (RequestHandler "version" (possible_handlers env) w)) = false
   /\ 3 <> fd (readable 5)
   /\ leaves_registered 3 (@alone string string)
   /\ (forall moment u0,
         running_ (@alone string string moment u0) = running_ u0)
   /\ IsOpen env (next_fd u) = false)
  /\ ok (fst (HandleMessage_among env (@alone _ _) (readable 5) w)) = false
  /\ registered 5 (callbacks_ w') = false
  /\ registrations 3 (callbacks_ w') = registrations 3 (callbacks_ w)
  /\ running_ w' = running_ w
  /\ ok (fst (AcceptClient env (readable 3) u)) = false
  /\ running_ (snd (AcceptClient env (readable 3) u)) = false.
Proof.
  cbv zeta.
  assert (N : 3 <> fd (readable 5)) by discriminate.
  assert (L : leaves_registered 3 (@alone string string))
    by (intros moment u0; reflexivity).
  assert (R : forall moment u0,
             running_ (@alone string string moment u0) = running_ u0)
    by reflexivity.
  split.
  { repeat (split; [reflexivity|]). split; [exact N|]. split; [exact L|].
    split; [exact R | reflexivity]. }
  pose proof (handling_failures_local_accept_failures_fatal
                (scripted_but 6 (@nil (CvdServerHandler string string))
                   (Ok (Some "version")) (Ok tt))
                (@alone string string)
                (readable 5) (serving string string)
                (readable 3) (idle string string)) as (T1 & T2 & T3 & _).
  destruct (T1 "version" eq_refl eq_refl eq_refl (or_introl eq_refl))
    as (F1 & F2 & F3 & F4).
  assert (A : ok (fst (AcceptClient
                         (scripted_but 6 (@nil (CvdServerHandler string string))
                            (Ok (Some "version")) (Ok tt))
                         (readable 3) (idle string string))) = false)
    by (apply T2; right; left; reflexivity).
  split; [exact F1|]. split; [exact F2|]. split; [exact (F3 3 N L)|].
  split; [exact (F4 R)|]. split; [exact A|].
  rewrite T3, A. reflexivity.
Defined.

Lemma guard_fires_unless_cancelled_witness :
  let failing := scripted (@nil (CvdServerHandler string string))
                   (Err ["read failed"]) (Ok tt) in
  let working := scripted [stub_handler string 1 (Ok true) (Ok "1.0")]
                   (Ok (Some "version")) (Ok tt) in
  let w := serving string string in
  (ok (fst (HandleMessage_body failing (readable 5)
              (armed string string (readable 5), w))) = false
   /\ registered 5 (callbacks_ (snd (HandleMessage failing (readable 5) w)))
      = false)
  /\ (In (ActRegister 5 EPOLLIN message_cb true)
        (since w
           (snd (snd (HandleMessage_body working (readable 5)
                        (armed string string (readable 5), w)))))
      /\ snd (HandleMessage working (readable 5) w)
         = snd (snd (HandleMessage_body working (readable 5)
                       (armed string string (readable 5), w)))).
Proof.
  cbv zeta.
  pose proof (guard_fires_unless_cancelled
                (scripted (@nil (CvdServerHandler string string))
                   (Err ["read failed"]) (Ok tt))
                (readable 5) (serving string string)) as F.
  pose proof (guard_fires_unless_cancelled
                (scripted [stub_handler string 1 (Ok true) (Ok "1.0")]
                   (Ok (Some "version")) (Ok tt))
                (readable 5) (serving string string)) as S.
  cbv zeta in F, S.
  destruct F as (_ & F & _). destruct S as (_ & _ & S).
  assert (I : In (ActRegister 5 EPOLLIN message_cb true)
                (since (serving string string)
                   (snd (snd (HandleMessage_body
                                (scripted
                                   [stub_handler string 1 (Ok true) (Ok "1.0")]
                                   (Ok (Some "version")) (Ok tt))
                                (readable 5)
                                (armed string string (readable 5),
                                 serving string string))))))
    by (vm_compute; tauto).
  split.
  - split; [reflexivity|]. apply (F eq_refl).
  - split; [exact I|]. apply (S I).
Defined.

Lemma next_read_armed_after_response_witness :
  let env := scripted [stub_handler string 1 (Ok true) (Ok "1.0")]
               (Ok (Some "version")) (Ok tt) in
  let before := [ActGetRequest 5; ActCanHandle 1;
                 ActRegister 5 EPOLLHUP (interrupt_cb 0) true;
                 ActHandle 1; ActSendResponse 5 true;
                 ActLock 0; ActUnlock 0; ActRemove 5 true] in
  since (serving string string)
    (snd (HandleMessage env (readable 5) (serving string string)))
  = before ++ ActRegister 5 EPOLLIN message_cb true :: []
  /\ arms_read (ActRegister 5 EPOLLIN message_cb true) = true
  /\ In (ActSendResponse 5 true) before.
Proof.
  cbv zeta. split; [reflexivity|]. split; [reflexivity|].
  pose proof (next_read_armed_after_response
                (scripted [stub_handler string 1 (Ok true) (Ok "1.0")]
                   (Ok (Some "version")) (Ok tt))
                (readable 5) (serving string string)) as T.
  cbv zeta in T. destruct T as [T _].
  apply (T _ [] (ActRegister 5 EPOLLIN message_cb true)); reflexivity.
Defined.

Lemma registration_discipline_witness :
  let env := scripted [stub_handler string 1 (Ok true) (Ok "1.0")]
               (Ok (Some "version")) (Ok tt) in
  one_registration_each (callbacks_ (idle string string))
  /\ one_registration_each
       (callbacks_ (snd (AcceptClient env (readable 3) (idle string string))))
  /\ (registered 7 (callbacks_ (idle string string)) = false
      /\ fst (Remove 7 (idle string string))
         = Err ["No callback registered with epoll"]).
Proof.
  cbv zeta.
  assert (I : one_registration_each (callbacks_ (idle string string))).
  { apply one_registration_cons; [reflexivity|].
    apply one_registration_cons; [reflexivity|].
    intros f; apply Nat.le_0_l. }
  pose proof (registration_discipline
                (scripted [stub_handler string 1 (Ok true) (Ok "1.0")]
                   (Ok (Some "version")) (Ok tt))
                7 EPOLLIN message_cb 0 (readable 3) (idle string string) I)
    as (K & R & _).
  split; [exact I|]. split; [apply K|].
  split; [reflexivity | apply (R eq_refl)].
Defined.

Lemma hangup_drops_connection_witness :
  let env := scripted [stub_handler string 1 (Ok true) (Ok "1.0")]
               (Ok (Some "version")) (Ok tt) in
  has_flag (events (hung_up 5)) EPOLLHUP = true
  /\ fst (HandleMessage env (hung_up 5) (idle string string)) = Ok tt
  /\ existsb is_io
       (since (idle string string)
          (snd (HandleMessage env (hung_up 5) (idle string string))))
     = false
  /\ registered 5
       (callbacks_ (snd (HandleMessage env (hung_up 5) (idle string string))))
     = false.
Proof.
  cbv zeta.
  pose proof (hangup_drops_connection
                (scripted [stub_handler string 1 (Ok true) (Ok "1.0")]
                   (Ok (Some "version")) (Ok tt))
                (hung_up 5) (idle string string) eq_refl) as T.
  cbv zeta in T. destruct T as (T1 & _ & T3 & T4 & _).
  split; [reflexivity|]. split; [exact T1|]. split; [exact T3 | exact T4].
Defined.

Lemma predicate_error_aborts_routing_witness :
  let handlers := [stub_handler string 1 (Ok true) (Ok "1.0");
                   stub_handler string 2 (Err ["unavailable"]) (Ok "2.0")] in
  (exists h, In h handlers /\ ok (CanHandle h "version") = false)
  /\ exists e,
       fst (RequestHandler "version" handlers (serving string string))
       = Err ("Received error" :: e).
Proof.
  cbv zeta.
  assert (X : exists h,
             In h [stub_handler string 1 (Ok true) (Ok "1.0");
                   stub_handler string 2 (Err ["unavailable"]) (Ok "2.0")]
             /\ ok (CanHandle h "version") = false).
  { exists (stub_handler string 2 (Err ["unavailable"]) (Ok "2.0")).
    split; [right; left; reflexivity | reflexivity]. }
  split; [exact X|].
  destruct (predicate_error_aborts_routing "version" _
              (serving string string) X)
    as (pre & h & post & e & _ & _ & _ & R & _).
  exists e; exact R.
Defined.

(** ** Further examples *)

Lemma end_of_file_drops_connection_witness :
  let env := scripted (@nil (CvdServerHandler string string))
               (Ok None) (Ok tt) in
  has_flag (events (readable 5)) EPOLLHUP = false
  /\ has_flag (events (readable 5)) EPOLLIN = true
  /\ GetRequest env 5 = Ok None
  /\ fst (HandleMessage env (readable 5) (serving string string)) = Ok tt.
Proof.
  cbv zeta. split; [reflexivity|]. split; [reflexivity|].
  split; [reflexivity|].
  apply (end_of_file_drops_connection
           (scripted (@nil (CvdServerHandler string string)) (Ok None) (Ok tt))
           (readable 5) (serving string string) eq_refl eq_refl eq_refl).
Defined.

Lemma handler_runs_under_watch_witness :
  let env := scripted [stub_handler string 1 (Ok true) (Ok "1.0")]
               (Ok (Some "version")) (Ok tt) in
  let t1 := [ActGetRequest 5; ActCanHandle 1;
             ActRegister 5 EPOLLHUP (interrupt_cb 0) true] in
  let t2 := [ActSendResponse 5 true; ActLock 0; ActUnlock 0;
             ActRemove 5 true; ActRegister 5 EPOLLIN message_cb true] in
  since (serving string string)
    (snd (HandleMessage env (readable 5) (serving string string)))
  = t1 ++ ActHandle 1 :: t2
  /\ existsb is_handle t2 = false.
Proof.
  cbv zeta. split; [reflexivity|].
  apply (handler_runs_under_watch
           (scripted [stub_handler string 1 (Ok true) (Ok "1.0")]
              (Ok (Some "version")) (Ok tt))
           (readable 5) (serving string string)
           [ActGetRequest 5; ActCanHandle 1;
            ActRegister 5 EPOLLHUP (interrupt_cb 0) true]
           _ _ eq_refl).
Defined.

Lemma response_only_after_handle_witness :
  let env := scripted [stub_handler string 1 (Ok true) (Ok "1.0")]
               (Ok (Some "version")) (Err ["broken pipe"]) in
  let t1 := [ActGetRequest 5; ActCanHandle 1;
             ActRegister 5 EPOLLHUP (interrupt_cb 0) true; ActHandle 1] in
  since (serving string string)
    (snd (HandleMessage env (readable 5) (serving string string)))
  = t1 ++ ActSendResponse 5 false :: [ActRemove 5 true]
  /\ existsb is_handle t1 = true.
Proof.
  cbv zeta. split; [reflexivity|].
  apply (response_only_after_handle
           (scripted [stub_handler string 1 (Ok true) (Ok "1.0")]
              (Ok (Some "version")) (Err ["broken pipe"]))
           (readable 5) (serving string string)
           [ActGetRequest 5; ActCanHandle 1;
            ActRegister 5 EPOLLHUP (interrupt_cb 0) true; ActHandle 1]
           _ _ _ eq_refl).
Defined.

Lemma mutex_held_for_the_clear_only_witness :
  let env := scripted [stub_handler string 1 (Ok true) (Ok "1.0")]
               (Ok (Some "version")) (Ok tt) in
  let t1 := [ActGetRequest 5; ActCanHandle 1;
             ActRegister 5 EPOLLHUP (interrupt_cb 0) true; ActHandle 1;
             ActSendResponse 5 true] in
  let t2 := [ActUnlock 0; ActRemove 5 true;
             ActRegister 5 EPOLLIN message_cb true] in
  since (serving string string)
    (snd (HandleMessage env (readable 5) (serving string string)))
  = t1 ++ ActLock 0 :: t2
  /\ exists t3, t2 = ActUnlock 0 :: t3.
Proof.
  cbv zeta. split; [reflexivity|].
  apply (mutex_held_for_the_clear_only
           (scripted [stub_handler string 1 (Ok true) (Ok "1.0")]
              (Ok (Some "version")) (Ok tt))
           (readable 5) (serving string string)
           [ActGetRequest 5; ActCanHandle 1;
            ActRegister 5 EPOLLHUP (interrupt_cb 0) true; ActHandle 1;
            ActSendResponse 5 true]
           _ _ eq_refl).
Defined.

(** X9 on the shutdown request: the handler stops the server while it
    handles, the request is still answered and the connection re-armed. *)
Lemma served_request_rearms_connection_witness :
  let h := stub_handler string 1 (Ok true) (Ok "stopping") in
  let env := scripted [h] (Ok (Some "shutdown")) (Ok tt) in
  let w := idle string string in
  let run := HandleEvent (run_callback_among env (@handler_stops _ _))
               (readable 5) w in
  (registrations 5 (callbacks_ w) = [connection_registration 5]
   /\ has_flag (events (readable 5)) EPOLLHUP = false
   /\ has_flag (events (readable 5)) EPOLLIN = true
   /\ GetRequest env 5 = Ok (Some "shutdown")
   /\ fst (RequestHandler "shutdown" (possible_handlers env) w) = Ok h
   /\ Handle h "shutdown" = Ok "stopping"
   /\ SendResponse env 5 "stopping" = Ok tt
   /\ leaves_registered 5 (@handler_stops string string))
  /\ running_ (snd run) = false
  /\ fst run = Ok tt
  /\ registrations 5 (callbacks_ (snd run)) = [connection_registration 5].
Proof.
  cbv zeta.
  assert (L : leaves_registered 5 (@handler_stops string string))
    by (intros [] u; reflexivity).
  split; [repeat (split; [reflexivity|]); exact L|].
  split; [reflexivity|].
  pose proof (served_request_rearms_connection
                (scripted [stub_handler string 1 (Ok true) (Ok "stopping")]
                   (Ok (Some "shutdown")) (Ok tt))
                (meanwhile := @handler_stops string string)
                (readable 5) (idle string string)
                (request := "shutdown")
                (h := stub_handler string 1 (Ok true) (Ok "stopping"))
                (response := "stopping")
                eq_refl eq_refl eq_refl eq_refl eq_refl eq_refl eq_refl L)
    as (T1 & T2 & _).
  split; [exact T1 | exact T2].
Defined.

(** X16 on a client that hangs up while its request is handled. *)
Lemma hangup_in_flight_fails_request_witness :
  let h := stub_handler string 1 (Ok true) (Ok "1.0") in
  let env := scripted [h] (Ok (Some "version")) (Ok tt) in
  let w := idle string string in
  let gone := {| fd := 5; events := EPOLLHUP |} in
  let run := HandleEvent
               (run_callback_among env (hangup_at env DuringHandle gone))
               (readable 5) w in
  (fd gone = fd (readable 5)
   /\ registrations 5 (callbacks_ w) = [connection_registration 5]
   /\ has_flag (events (readable 5)) EPOLLHUP = false
   /\ has_flag (events (readable 5)) EPOLLIN = true
   /\ GetRequest env 5 = Ok (Some "version")
   /\ fst (RequestHandler "version" (possible_handlers env) w) = Ok h
   /\ Handle h "version" = Ok "1.0"
   /\ SendResponse env 5 "1.0" = Ok tt)
  /\ ok (fst run) = false
  /\ registered 5 (callbacks_ (snd run)) = false
  /\ In (ActSendResponse 5 true) (since w (snd run)).
Proof.
  cbv zeta.
  split; [repeat (split; [reflexivity|]); reflexivity|].
  pose proof (hangup_in_flight_fails_request
                (scripted [stub_handler string 1 (Ok true) (Ok "1.0")]
                   (Ok (Some "version")) (Ok tt))
                DuringHandle (readable 5) {| fd := 5; events := EPOLLHUP |}
                (idle string string)
                (request := "version")
                (h := stub_handler string 1 (Ok true) (Ok "1.0"))
                (response := "1.0")
                eq_refl eq_refl eq_refl eq_refl eq_refl eq_refl eq_refl eq_refl)
    as (T1 & T2 & T3 & _).
  split; [now rewrite T1|]. split; [exact T2 | exact T3].
Defined.

(** X15 on a request handled with nothing else going on, and on the
    shutdown request, whose handler stops the server: the listener keeps
    its registration over both. *)
Lemma request_stays_within_its_connection_witness :
  let h := stub_handler string 1 (Ok true) (Ok "stopping") in
  let env := scripted [h] (Ok (Some "shutdown")) (Ok tt) in
  let w := serving string string in
  ((forall moment u, running_ (@alone string string moment u) = running_ u)
   /\ 3 <> fd (readable 5)
   /\ leaves_registered 3 (@alone string string)
   /\ (forall moment u, kept_to 5 u (@alone string string moment u))
   /\ leaves_registered 3 (@handler_stops string string))
  /\ running_ (snd (HandleMessage_among env (@alone _ _) (readable 5) w))
     = running_ w
  /\ registrations 3
       (callbacks_ (snd (HandleMessage_among env (@alone _ _) (readable 5) w)))
     = registrations 3 (callbacks_ w)
  /\ existsb (strays 5)
       (since w (snd (HandleMessage_among env (@alone _ _) (readable 5) w)))
     = false
  /\ registrations 3
       (callbacks_
          (snd (HandleMessage_among env (@handler_stops _ _) (readable 5) w)))
     = registrations 3 (callbacks_ w).
Proof.
  cbv zeta.
  assert (R : forall moment u,
             running_ (@alone string string moment u) = running_ u)
    by reflexivity.
  assert (N : 3 <> fd (readable 5)) by discriminate.
  assert (L : leaves_registered 3 (@alone string string))
    by (intros moment u; reflexivity).
  assert (K : forall moment u, kept_to 5 u (@alone string string moment u))
    by (intros moment u; exists []; split;
        [symmetry; apply app_nil_r | reflexivity]).
  assert (L' : leaves_registered 3 (@handler_stops string string))
    by (intros [] u; reflexivity).
  split; [repeat (split; [assumption|]); exact L'|].
  pose proof (request_stays_within_its_connection
                (scripted [stub_handler string 1 (Ok true) (Ok "stopping")]
                   (Ok (Some "shutdown")) (Ok tt))
                (@alone string string) (readable 5) (serving string string))
    as (T1 & T2 & T3).
  pose proof (request_stays_within_its_connection
                (scripted [stub_handler string 1 (Ok true) (Ok "stopping")]
                   (Ok (Some "shutdown")) (Ok tt))
                (@handler_stops string string) (readable 5)
                (serving string string))
    as (_ & U2 & _).
  split; [exact (T1 R)|]. split; [exact (T2 3 N L)|].
  split; [exact (T3 K) | exact (U2 3 N L')].
Defined.

Lemma routing_ignores_registration_order_witness :
  let a := stub_handler string 1 (Ok true) (Ok "1.0") in
  let b := stub_handler string 2 (Ok false) (Ok "2.0") in
  Permutation [a; b] [b; a]
  /\ fst (RequestHandler "version" [b; a] (idle string string)) = Ok a.
Proof.
  cbv zeta. split; [apply perm_swap|].
  pose proof (routing_ignores_registration_order "version"
                (serving string string) (idle string string)
                (perm_swap (stub_handler string 2 (Ok false) (Ok "2.0"))
                   (stub_handler string 1 (Ok true) (Ok "1.0")) [])) as T.
  apply (proj1 (proj2 T)). reflexivity.
Defined.

Lemma interrupt_fires_once_witness :
  let h := stub_handler string 1 (Ok true) (Ok "1.0") in
  let env := scripted [h] (Ok (Some "version")) (Ok tt) in
  let w := {| running_ := true;
              callbacks_ := [{| reg_fd := 5; reg_interest := EPOLLHUP;
                                reg_cb := interrupt_cb 0 |}];
              heap := [{| handler := Some h; mutex := false |}];
              next_fd := 6; signalled := []; trace := [] |} in
  registrations 5 (callbacks_ w)
    = [{| reg_fd := 5; reg_interest := EPOLLHUP; reg_cb := interrupt_cb 0 |}]
  /\ registered 5
       (callbacks_ (snd (HandleEvent (run_callback env) (hung_up 5) w)))
     = false.
Proof.
  cbv zeta. split; [reflexivity|].
  apply (interrupt_fires_once
           (scripted [stub_handler string 1 (Ok true) (Ok "1.0")]
              (Ok (Some "version")) (Ok tt))
           (shared := 0) (hung_up 5)
           {| running_ := true;
              callbacks_ := [{| reg_fd := 5; reg_interest := EPOLLHUP;
                                reg_cb := interrupt_cb 0 |}];
              heap := [{| handler :=
                            Some (stub_handler string 1 (Ok true) (Ok "1.0"));
                          mutex := false |}];
              next_fd := 6; signalled := []; trace := [] |}
           eq_refl).
Defined.

Lemma accept_succeeds_when_it_can_witness :
  let env := scripted (@nil (CvdServerHandler string string))
               (Ok None) (Ok tt) in
  let w := {| running_ := true;
              callbacks_ := [connection_registration 5];
              heap := []; next_fd := 6; signalled := []; trace := [] |} in
  (forall r, In r (callbacks_ w) -> reg_fd r < next_fd w)
  /\ fd (readable 3) < next_fd w
  /\ registered 3 (callbacks_ w) = false
  /\ ok (fst (AcceptClient env (readable 3) w)) = true.
Proof.
  cbv zeta.
  assert (H : forall r : Registration,
             In r [connection_registration 5] -> reg_fd r < 6)
    by (intros r [<-|[]]; cbn; lia).
  assert (L : 3 < 6) by lia.
  split; [exact H|]. split; [exact L|]. split; [reflexivity|].
  pose proof (accept_succeeds_when_it_can
                (scripted (@nil (CvdServerHandler string string))
                   (Ok None) (Ok tt))
                (readable 3)
                {| running_ := true;
                   callbacks_ := [connection_registration 5];
                   heap := []; next_fd := 6; signalled := []; trace := [] |}
                H L eq_refl) as T.
  cbv zeta in T. destruct T as [T _]. rewrite T. reflexivity.
Defined.

Lemma listener_accepts_and_rearms_witness :
  let env := scripted (@nil (CvdServerHandler string string))
               (Ok None) (Ok tt) in
  let w := {| running_ := true; callbacks_ := [];
              heap := []; next_fd := 4; signalled := []; trace := [] |} in
  (forall r, In r (callbacks_ w) -> reg_fd r < next_fd w)
  /\ 3 < next_fd w
  /\ IsOpen env (next_fd w) = true
  /\ registered 3 (callbacks_ w) = false
  /\ callbacks_
       (snd (HandleEvent (run_callback env) (readable 3)
               (snd (StartServer 3 w))))
     = [listener_registration 3; connection_registration 4].
Proof.
  cbv zeta.
  assert (H : forall r : Registration, In r [] -> reg_fd r < 4)
    by (intros r []).
  assert (L : 3 < 4) by lia.
  split; [exact H|]. split; [exact L|]. split; [reflexivity|].
  split; [reflexivity|].
  pose proof (listener_accepts_and_rearms
                (scripted (@nil (CvdServerHandler string string))
                   (Ok None) (Ok tt))
                {| running_ := true; callbacks_ := [];
                   heap := []; next_fd := 4; signalled := []; trace := [] |}
                H L eq_refl) as T.
  cbv zeta in T. destruct T as [_ T]. apply (T eq_refl).
Defined.


(** X12 on a listener that is readable while [accept()] fails: the
    descriptor it returns, 6, is not open; the eventfds after it are. *)
Lemma listener_failure_starts_cascade_witness :
  let env := scripted_but 6 (@nil (CvdServerHandler string string))
               (Ok None) (Ok tt) in
  let w := idle string string in
  (0 < kNumThreads
   /\ (forall r, In r (callbacks_ w) -> reg_fd r < next_fd w)
   /\ signalled w = []
   /\ registrations 3 (callbacks_ w) = [listener_registration 3]
   /\ ok (fst (HandleEvent (run_callback env) (readable 3) w)) = false
   /\ eventfds_from env (next_fd_after_accept (readable 3) w))
  /\ has_flag (events (readable 3)) EPOLLIN = true
  /\ IsOpen env (next_fd w) = false
  /\ running_ (world (after_dispatch env kNumThreads 0 (readable 3) w)) = false.
Proof.
  cbv zeta.
  assert (K : 0 < kNumThreads) by (unfold kNumThreads; lia).
  assert (H : forall r : Registration,
             In r (callbacks_ (idle string string)) ->
             reg_fd r < next_fd (idle string string))
    by (intros r [<-|[<-|[]]]; cbn; lia).
  assert (G : eventfds_from
                (scripted_but 6 (@nil (CvdServerHandler string string))
                   (Ok None) (Ok tt))
                (next_fd_after_accept (readable 3) (idle string string))).
  { intros f Hf. cbn in Hf. split; [|reflexivity]. cbn [IsOpen scripted_but].
    destruct (Nat.eqb_spec f 6); [lia | reflexivity]. }
  split.
  { split; [exact K|]. split; [exact H|]. split; [reflexivity|].
    split; [reflexivity|]. split; [reflexivity | exact G]. }
  split; [reflexivity|]. split; [reflexivity|].
  apply (listener_failure_starts_cascade
           (env := scripted_but 6 (@nil (CvdServerHandler string string))
                     (Ok None) (Ok tt))
           (N := kNumThreads) (i := 0)
           (readable 3) (idle string string)
           K H eq_refl eq_refl eq_refl G).
Defined.
